(** * Chirp: feed assembly, relationship graph, notification fan-out and
      community-note consensus

    A shallow embedding of the SQLite schema of [app/database.py] and of the
    request handlers of [app/routes/auth.py], [app/routes/feed.py] and
    [app/routes/posts.py] that read and write the relationship, post, like,
    notification and community-note tables.

    Tables are lists of rows in rowid order together with the
    [sqlite_sequence] counter of their AUTOINCREMENT key.  A handler is a
    function from the committed database (and the request data it reads) to
    the database it leaves committed and the response it returns.

    The bookmark and poll tables, the page of a post and the timeline and
    like of the REST API ([app/routes/api.py]) are modelled after the
    relationship and post handlers, on top of the same tables. *)

From Stdlib Require Import List Arith Bool Lia String Ascii ZArith.
From Stdlib Require Import Permutation Sorted.
Import ListNotations.

Set Implicit Arguments.

Local Open Scope nat_scope.

(* ===================================================================== *)
(** * SQL tables *)
(* ===================================================================== *)

Module Sql.

(** Every modelled table has [id INTEGER PRIMARY KEY AUTOINCREMENT]. *)
Class Keyed (A : Type) := key : A -> nat.

Record table (A : Type) := Table { rows : list A; seq : nat }.

Arguments Table {A} rows seq.

Section TableOps.
Context {A : Type} `{Keyed A}.

Definition keys (l : list A) : list nat := map key l.

Definition max_id (l : list A) : nat :=
  fold_right (fun r m => Nat.max (key r) m) 0 l.

(** AUTOINCREMENT: one more than the largest rowid ever used. *)
Definition next_rowid (t : table A) : nat :=
  S (Nat.max (seq t) (max_id (rows t))).

(** [INSERT INTO t (...) VALUES (...)]; [mk] builds the row from the
    rowid it is given. *)
Definition insert (mk : nat -> A) (t : table A) : table A :=
  let i := next_rowid t in Table (rows t ++ [mk i]) i.

(** [DELETE FROM t WHERE c]. *)
Definition delete (c : A -> bool) (t : table A) : table A :=
  Table (filter (fun r => negb (c r)) (rows t)) (seq t).

(** [UPDATE t SET ... WHERE c]. *)
Definition update (c : A -> bool) (f : A -> A) (t : table A) : table A :=
  Table (map (fun r => if c r then f r else r) (rows t)) (seq t).

(** [SELECT * FROM t WHERE c], rows in scan order. *)
Definition select (c : A -> bool) (t : table A) : list A :=
  filter c (rows t).

(** [SELECT ... WHERE c] followed by [fetchone()]. *)
Definition fetchone (c : A -> bool) (t : table A) : option A :=
  find c (rows t).

(** [SELECT COUNT( * ) FROM t WHERE c]. *)
Definition count (c : A -> bool) (t : table A) : nat :=
  List.length (filter c (rows t)).

Definition exists_row (c : A -> bool) (t : table A) : bool :=
  existsb c (rows t).
End TableOps.

(** [ORDER BY]: rows with equal sort keys keep the order in which the scan
    produced them.  [before x y] says that [x] may precede [y]. *)
Section OrderBy.
Context {A : Type} (before : A -> A -> bool).

Fixpoint place (x : A) (l : list A) : list A :=
  match l with
  | [] => [x]
  | y :: l' => if before x y then x :: y :: l' else y :: place x l'
  end.

Fixpoint order_by (l : list A) : list A :=
  match l with
  | [] => []
  | x :: l' => place x (order_by l')
  end.
End OrderBy.

(** The order of [ORDER BY key DESC]. *)
Definition key_desc {A} (sort_key : A -> nat) (x y : A) : bool :=
  sort_key y <=? sort_key x.

(** [LIMIT lim OFFSET off]: SQLite reads a negative offset as 0 and a
    negative limit as no limit. *)
Definition limit_offset {A} (lim off : Z) (l : list A) : list A :=
  let l' := skipn (Z.to_nat off) l in
  if (lim <? 0)%Z then l' else firstn (Z.to_nat lim) l'.

Definition opt_eqb (o : option nat) (n : nat) : bool :=
  match o with Some m => m =? n | None => false end.

(** [ON DELETE SET NULL] for a nullable reference to [n]. *)
Definition null_if (n : nat) (o : option nat) : option nat :=
  if opt_eqb o n then None else o.

End Sql.

Import Sql.

(* ===================================================================== *)
(** * Schema (app/database.py) *)
(* ===================================================================== *)

(** Columns that none of the modelled handlers reads or writes (profile
    fields, media, edit history, timestamps of edges) are left out.
    [INTEGER DEFAULT 0] flags are booleans, [created_at] is the number of
    seconds that [CURRENT_TIMESTAMP] renders: the text order of the rendering
    is the numeric order. *)

Module User.
Record t := mk {
  id : nat;
  username : string;
  is_admin : bool;
  is_suspended : bool
}.
End User.

Module Post.
Record t := mk {
  id : nat;
  user_id : nat;
  content : string;
  parent_id : option nat;
  repost_id : option nat;
  quote_id : option nat;
  is_pinned : bool;
  is_deleted : bool;
  created_at : nat
}.

Definition set_pinned (b : bool) (p : t) : t :=
  mk (id p) (user_id p) (content p) (parent_id p) (repost_id p)
     (quote_id p) b (is_deleted p) (created_at p).

Definition set_deleted (b : bool) (p : t) : t :=
  mk (id p) (user_id p) (content p) (parent_id p) (repost_id p)
     (quote_id p) (is_pinned p) b (created_at p).

(** The three [ON DELETE SET NULL] references to a deleted post. *)
Definition forget (n : nat) (p : t) : t :=
  mk (id p) (user_id p) (content p) (null_if n (parent_id p))
     (null_if n (repost_id p)) (null_if n (quote_id p))
     (is_pinned p) (is_deleted p) (created_at p).
End Post.

Module Like.
Record t := mk { id : nat; user_id : nat; post_id : nat }.
End Like.

Module Follow.
Record t := mk { id : nat; follower_id : nat; following_id : nat }.
End Follow.

Module Block.
Record t := mk { id : nat; blocker_id : nat; blocked_id : nat }.
End Block.

Module Mute.
Record t := mk { id : nat; muter_id : nat; muted_id : nat }.
End Mute.

Module Notification.
Inductive kind := follow | like | reply | mention | repost | message.

Record t := mk {
  id : nat;
  user_id : nat;
  actor_id : option nat;
  type : kind;
  post_id : option nat
}.
End Notification.

Module Note.
Inductive status_t := proposed | approved | rejected.

Record t := mk {
  id : nat;
  post_id : nat;
  author_id : nat;
  status : status_t;
  helpful_count : nat;
  not_helpful_count : nat
}.

Definition set_counts (h n : nat) (c : t) : t :=
  mk (id c) (post_id c) (author_id c) (status c) h n.

Definition set_status (s : status_t) (c : t) : t :=
  mk (id c) (post_id c) (author_id c) s (helpful_count c)
     (not_helpful_count c).
End Note.

Module Rating.
(** [rating TEXT NOT NULL CHECK(rating IN ('helpful', 'not_helpful'))]. *)
Inductive value := helpful | not_helpful.

Definition eqb (a b : value) : bool :=
  match a, b with
  | helpful, helpful | not_helpful, not_helpful => true
  | _, _ => false
  end.

Record t := mk { id : nat; note_id : nat; user_id : nat; rating : value }.

Definition set_rating (v : value) (r : t) : t :=
  mk (id r) (note_id r) (user_id r) v.
End Rating.

#[export] Instance user_key : Keyed User.t := User.id.
#[export] Instance post_key : Keyed Post.t := Post.id.
#[export] Instance like_key : Keyed Like.t := Like.id.
#[export] Instance follow_key : Keyed Follow.t := Follow.id.
#[export] Instance block_key : Keyed Block.t := Block.id.
#[export] Instance mute_key : Keyed Mute.t := Mute.id.
#[export] Instance notification_key : Keyed Notification.t := Notification.id.
#[export] Instance note_key : Keyed Note.t := Note.id.
#[export] Instance rating_key : Keyed Rating.t := Rating.id.

Record db := Db {
  users : table User.t;
  posts : table Post.t;
  likes : table Like.t;
  follows : table Follow.t;
  blocks : table Block.t;
  mutes : table Mute.t;
  notifications : table Notification.t;
  community_notes : table Note.t;
  community_note_ratings : table Rating.t
}.

Definition with_posts (d : db) (t : table Post.t) : db :=
  Db (users d) t (likes d) (follows d) (blocks d) (mutes d)
     (notifications d) (community_notes d) (community_note_ratings d).

Definition with_likes (d : db) (t : table Like.t) : db :=
  Db (users d) (posts d) t (follows d) (blocks d) (mutes d)
     (notifications d) (community_notes d) (community_note_ratings d).

Definition with_follows (d : db) (t : table Follow.t) : db :=
  Db (users d) (posts d) (likes d) t (blocks d) (mutes d)
     (notifications d) (community_notes d) (community_note_ratings d).

Definition with_blocks (d : db) (t : table Block.t) : db :=
  Db (users d) (posts d) (likes d) (follows d) t (mutes d)
     (notifications d) (community_notes d) (community_note_ratings d).

Definition with_mutes (d : db) (t : table Mute.t) : db :=
  Db (users d) (posts d) (likes d) (follows d) (blocks d) t
     (notifications d) (community_notes d) (community_note_ratings d).

Definition with_notifications (d : db) (t : table Notification.t) : db :=
  Db (users d) (posts d) (likes d) (follows d) (blocks d) (mutes d)
     t (community_notes d) (community_note_ratings d).

Definition with_community_notes (d : db) (t : table Note.t) : db :=
  Db (users d) (posts d) (likes d) (follows d) (blocks d) (mutes d)
     (notifications d) t (community_note_ratings d).

Definition with_community_note_ratings (d : db) (t : table Rating.t) : db :=
  Db (users d) (posts d) (likes d) (follows d) (blocks d) (mutes d)
     (notifications d) (community_notes d) t.

(* ===================================================================== *)
(** * Text: NOCASE collation and [@handle] extraction *)
(* ===================================================================== *)

(** A [string] is a Python [str] whose code points are below 256. *)

Module Text.

Definition in_range (lo hi : nat) (c : ascii) : bool :=
  (lo <=? nat_of_ascii c) && (nat_of_ascii c <=? hi).

(** [\w] of Python's [re] on [str]: a character for which [str.isalnum()]
    holds, or the underscore. *)
Definition is_word (c : ascii) : bool :=
  in_range 48 57 c || in_range 65 90 c || in_range 97 122 c
  || (nat_of_ascii c =? 95)
  || (nat_of_ascii c =? 170) || in_range 178 179 c
  || (nat_of_ascii c =? 181) || in_range 185 186 c || in_range 188 190 c
  || in_range 192 214 c || in_range 216 246 c || in_range 248 255 c.

(** SQLite's NOCASE folds the 26 upper-case letters of ASCII only. *)
Definition fold_case (c : ascii) : ascii :=
  if in_range 65 90 c then ascii_of_nat (nat_of_ascii c + 32) else c.

Fixpoint nocase (s : string) : string :=
  match s with
  | EmptyString => EmptyString
  | String c s' => String (fold_case c) (nocase s')
  end.

Definition nocase_eqb (a b : string) : bool :=
  String.eqb (nocase a) (nocase b).

Definition is_at (c : ascii) : bool := nat_of_ascii c =? 64.

(** The handle being read after an [@], most recent character first. *)
Definition flush (st : option (list ascii)) : list string :=
  match st with
  | Some (c :: acc) => [string_of_list_ascii (rev (c :: acc))]
  | _ => []
  end.

(** [re.findall(r'@(\w+)', s)], left to right without overlap: [st] is
    [Some acc] while the characters after an [@] are being consumed. *)
Fixpoint findall_at (st : option (list ascii)) (s : string) : list string :=
  match s with
  | EmptyString => flush st
  | String c s' =>
      match st with
      | Some acc =>
          if is_word c then findall_at (Some (c :: acc)) s'
          else (flush st ++
                findall_at (if is_at c then Some [] else None) s')%list
      | None => findall_at (if is_at c then Some [] else None) s'
      end
  end.

End Text.

(** [list(set(re.findall(...)))]: the distinct handles.  Python leaves the
    iteration order of a set open; the model keeps one occurrence of each
    handle in the order of the text. *)
Definition extract_mentions (content : string) : list string :=
  nodup string_dec (Text.findall_at None content).

(* ===================================================================== *)
(** * Constraints of the schema *)
(* ===================================================================== *)

(** A transaction is a partial function on databases: a statement that
    violates a FOREIGN KEY or UNIQUE constraint raises [IntegrityError] and
    nothing of the request's open transaction is committed. *)
Definition txn := db -> option db.

Definition and_then (f g : txn) : txn :=
  fun d => match f d with Some d' => g d' | None => None end.

Notation "f ;; g" := (and_then f g) (at level 61, right associativity).

Definition skip : txn := fun d => Some d.

Definition when (b : bool) (f : txn) : txn := if b then f else skip.

Definition user_exists (d : db) (uid : nat) : bool :=
  exists_row (fun u => User.id u =? uid) (users d).

Definition post_exists (d : db) (pid : nat) : bool :=
  exists_row (fun p => Post.id p =? pid) (posts d).

Definition note_exists (d : db) (nid : nat) : bool :=
  exists_row (fun c => Note.id c =? nid) (community_notes d).

Definition ref_ok (present : nat -> bool) (o : option nat) : bool :=
  match o with Some n => present n | None => true end.

Definition is_follow (a b : nat) (f : Follow.t) : bool :=
  (Follow.follower_id f =? a) && (Follow.following_id f =? b).

Definition is_block (a b : nat) (k : Block.t) : bool :=
  (Block.blocker_id k =? a) && (Block.blocked_id k =? b).

Definition is_mute (a b : nat) (m : Mute.t) : bool :=
  (Mute.muter_id m =? a) && (Mute.muted_id m =? b).

Definition is_like (u p : nat) (l : Like.t) : bool :=
  (Like.user_id l =? u) && (Like.post_id l =? p).

Definition is_rating (n u : nat) (r : Rating.t) : bool :=
  (Rating.note_id r =? n) && (Rating.user_id r =? u).

(** [INSERT INTO follows (follower_id, following_id)]. *)
Definition insert_follow (a b : nat) : txn := fun d =>
  if user_exists d a && user_exists d b
     && negb (exists_row (is_follow a b) (follows d))
  then Some (with_follows d (insert (fun i => Follow.mk i a b) (follows d)))
  else None.

(** [INSERT INTO blocks (blocker_id, blocked_id)]. *)
Definition insert_block (a b : nat) : txn := fun d =>
  if user_exists d a && user_exists d b
     && negb (exists_row (is_block a b) (blocks d))
  then Some (with_blocks d (insert (fun i => Block.mk i a b) (blocks d)))
  else None.

(** [INSERT INTO mutes (muter_id, muted_id)]. *)
Definition insert_mute (a b : nat) : txn := fun d =>
  if user_exists d a && user_exists d b
     && negb (exists_row (is_mute a b) (mutes d))
  then Some (with_mutes d (insert (fun i => Mute.mk i a b) (mutes d)))
  else None.

(** [INSERT INTO likes (user_id, post_id)]. *)
Definition insert_like (u p : nat) : txn := fun d =>
  if user_exists d u && post_exists d p
     && negb (exists_row (is_like u p) (likes d))
  then Some (with_likes d (insert (fun i => Like.mk i u p) (likes d)))
  else None.

(** [INSERT INTO notifications (user_id, actor_id, type, post_id)]. *)
Definition insert_notification (u : nat) (actor : option nat)
    (k : Notification.kind) (p : option nat) : txn := fun d =>
  if user_exists d u && ref_ok (user_exists d) actor
     && ref_ok (post_exists d) p
  then Some (with_notifications d
               (insert (fun i => Notification.mk i u actor k p)
                       (notifications d)))
  else None.

(** [INSERT INTO posts (user_id, content, parent_id, repost_id, ...)]: the
    flags take their default 0 and [created_at] the current time. *)
Definition insert_post (u : nat) (content : string)
    (parent repost quote : option nat) (now : nat) : txn := fun d =>
  if user_exists d u && (String.length content <=? 500)
     && ref_ok (post_exists d) parent && ref_ok (post_exists d) repost
     && ref_ok (post_exists d) quote
  then Some (with_posts d
               (insert (fun i => Post.mk i u content parent repost quote
                                         false false now)
                       (posts d)))
  else None.

(** [INSERT INTO community_note_ratings (note_id, user_id, rating)]. *)
Definition insert_rating (n u : nat) (v : Rating.value) : txn := fun d =>
  if note_exists d n && user_exists d u
     && negb (exists_row (is_rating n u) (community_note_ratings d))
  then Some (with_community_note_ratings d
               (insert (fun i => Rating.mk i n u v)
                       (community_note_ratings d)))
  else None.

(** [DELETE FROM posts WHERE id = ?] with the cascades of the schema: likes,
    notifications and community notes (and their ratings) of the post go,
    references from other posts become NULL. *)
Definition delete_post_row (pid : nat) : txn := fun d =>
  let gone := map Note.id
                  (select (fun c => Note.post_id c =? pid)
                          (community_notes d)) in
  Some
    (Db (users d)
        (update (fun _ => true) (Post.forget pid)
                (delete (fun p => Post.id p =? pid) (posts d)))
        (delete (fun l => Like.post_id l =? pid) (likes d))
        (follows d) (blocks d) (mutes d)
        (delete (fun n => opt_eqb (Notification.post_id n) pid)
                (notifications d))
        (delete (fun c => Note.post_id c =? pid) (community_notes d))
        (delete (fun r => existsb (Nat.eqb (Rating.note_id r)) gone)
                (community_note_ratings d))).

(* ===================================================================== *)
(** * Requests and responses *)
(* ===================================================================== *)

(** What a handler returns.  [redirect] carries the message it flashed, if
    any, with its category; the pictographs that end some messages are not
    part of the model. *)
Inductive response :=
| redirect_login
| abort (code : nat)
| redirect (flashed : option (string * string))
| json_login_required
| json_like (liked : bool) (count : nat)
| server_error.

(** [db.commit()] at the end of a transaction that ran on [d]. *)
Definition commit (d : db) (t : txn) (r : db -> response) : db * response :=
  match t d with
  | Some d' => (d', r d')
  | None => (d, server_error)
  end.

(** [before_request] of app/main.py, the part that sets [g.user]: the row
    of the session's user unless that user is suspended or gone.  The rest
    of the function, which clears such a session and compares the CSRF
    token, is [before_request_post] below. *)
Definition before_request (d : db) (session_user_id : option nat)
  : option User.t :=
  match session_user_id with
  | Some uid =>
      fetchone (fun u => (User.id u =? uid) && negb (User.is_suspended u))
               (users d)
  | None => None
  end.

Definition delete_follows (c : Follow.t -> bool) : txn :=
  fun d => Some (with_follows d (delete c (follows d))).

Definition delete_blocks (c : Block.t -> bool) : txn :=
  fun d => Some (with_blocks d (delete c (blocks d))).

Definition delete_mutes (c : Mute.t -> bool) : txn :=
  fun d => Some (with_mutes d (delete c (mutes d))).

Definition delete_likes (c : Like.t -> bool) : txn :=
  fun d => Some (with_likes d (delete c (likes d))).

Definition update_posts (c : Post.t -> bool) (f : Post.t -> Post.t) : txn :=
  fun d => Some (with_posts d (update c f (posts d))).

Definition update_notes (c : Note.t -> bool) (f : Note.t -> Note.t) : txn :=
  fun d => Some (with_community_notes d (update c f (community_notes d))).

Definition update_ratings (c : Rating.t -> bool) (f : Rating.t -> Rating.t)
  : txn :=
  fun d => Some (with_community_note_ratings d
                   (update c f (community_note_ratings d))).

Definition either_block (a b : nat) (k : Block.t) : bool :=
  is_block a b k || is_block b a k.

Definition either_follow (a b : nat) (f : Follow.t) : bool :=
  is_follow a b f || is_follow b a f.

(* ===================================================================== *)
(** * Relationship handlers (app/routes/auth.py) *)
(* ===================================================================== *)

Definition follow (d : db) (g_user : option User.t) (user_id : nat)
  : db * response :=
  match g_user with
  | None => (d, redirect_login)
  | Some me =>
      if User.id me =? user_id then (d, abort 400)
      else
        match fetchone (fun u => User.id u =? user_id) (users d) with
        | None => (d, abort 404)
        | Some target =>
            if exists_row (either_block (User.id me) user_id) (blocks d)
            then (d, redirect (Some ("Unable to follow this user.",
                                     "error")))%string
            else if exists_row (is_follow (User.id me) user_id) (follows d)
            then commit d
                   (delete_follows (is_follow (User.id me) user_id))
                   (fun _ => redirect
                      (Some ("Unfollowed @" ++ User.username target,
                             "info")))%string
            else commit d
                   (insert_follow (User.id me) user_id ;;
                    insert_notification user_id (Some (User.id me))
                                        Notification.follow None)
                   (fun _ => redirect
                      (Some ("Following @" ++ User.username target ++ "!",
                             "success")))%string
        end
  end.

Definition block_user (d : db) (g_user : option User.t) (user_id : nat)
  : db * response :=
  match g_user with
  | None => (d, abort 400)
  | Some me =>
      if User.id me =? user_id then (d, abort 400)
      else if exists_row (is_block (User.id me) user_id) (blocks d)
      then commit d (delete_blocks (is_block (User.id me) user_id))
                  (fun _ => redirect None)
      else commit d
             (insert_block (User.id me) user_id ;;
              delete_follows (either_follow (User.id me) user_id))
             (fun _ => redirect None)
  end.

Definition mute_user (d : db) (g_user : option User.t) (user_id : nat)
  : db * response :=
  match g_user with
  | None => (d, abort 400)
  | Some me =>
      if User.id me =? user_id then (d, abort 400)
      else if exists_row (is_mute (User.id me) user_id) (mutes d)
      then commit d (delete_mutes (is_mute (User.id me) user_id))
                  (fun _ => redirect None)
      else commit d (insert_mute (User.id me) user_id)
                  (fun _ => redirect None)
  end.

(* ===================================================================== *)
(** * Post handlers (app/routes/posts.py) *)
(* ===================================================================== *)

Definition live_post (pid : nat) (p : Post.t) : bool :=
  (Post.id p =? pid) && negb (Post.is_deleted p).

(** The three counts every timeline query selects next to a post. *)
Definition like_count (d : db) (pid : nat) : nat :=
  count (fun l => Like.post_id l =? pid) (likes d).

Definition reply_count (d : db) (pid : nat) : nat :=
  count (fun r => opt_eqb (Post.parent_id r) pid
                  && negb (Post.is_deleted r)) (posts d).

Definition repost_count (d : db) (pid : nat) : nat :=
  count (fun r => opt_eqb (Post.repost_id r) pid) (posts d).

Definition like_post (d : db) (g_user : option User.t) (post_id : nat)
    (accept_json : bool) : db * response :=
  match g_user with
  | None => (d, if accept_json then json_login_required else redirect_login)
  | Some me =>
      match fetchone (live_post post_id) (posts d) with
      | None => (d, abort 404)
      | Some post =>
          let existing := fetchone (is_like (User.id me) post_id) (likes d) in
          let liked := match existing with Some _ => false | None => true end in
          commit d
            (match existing with
             | Some _ => delete_likes (is_like (User.id me) post_id)
             | None =>
                 insert_like (User.id me) post_id ;;
                 when (negb (Post.user_id post =? User.id me))
                      (insert_notification (Post.user_id post)
                         (Some (User.id me)) Notification.like
                         (Some post_id))
             end)
            (fun d' => if accept_json
                       then json_like liked (like_count d' post_id)
                       else redirect None)
      end
  end.

(** The user a handle resolves to: [username] is declared COLLATE NOCASE. *)
Definition user_by_name (d : db) (name : string) : option User.t :=
  fetchone (fun u => Text.nocase_eqb (User.username u) name) (users d).

(** The loop over [extract_mentions(content)] that notifies each mentioned
    user other than the author; [pid] is the post id it records. *)
Fixpoint notify_mentions (me : nat) (pid : nat) (mentions : list string)
  : txn :=
  match mentions with
  | [] => skip
  | m :: rest =>
      fun d =>
        (match user_by_name d m with
         | Some u =>
             when (negb (User.id u =? me))
                  (insert_notification (User.id u) (Some me)
                     Notification.mention (Some pid))
         | None => skip
         end ;; notify_mentions me pid rest) d
  end.

(** [content] is the form field after [strip()] and [bleach.clean].  The
    reply and its notification are committed first; the mentions follow in
    a second transaction, whose post id is [last_insert_rowid()]: the rowid
    of the most recent INSERT of the connection. *)
Definition reply (d : db) (g_user : option User.t) (post_id : nat)
    (content : string) (now : nat) : db * response :=
  match g_user with
  | None => (d, redirect_login)
  | Some me =>
      match fetchone (live_post post_id) (posts d) with
      | None => (d, abort 404)
      | Some parent =>
          if (String.length content =? 0) || (500 <? String.length content)
          then (d, redirect (Some ("Reply must be 1-500 characters.",
                                   "error")))%string
          else
            let notified := negb (Post.user_id parent =? User.id me) in
            match (insert_post (User.id me) content (Some post_id) None None
                               now ;;
                   when notified
                        (insert_notification (Post.user_id parent)
                           (Some (User.id me)) Notification.reply
                           (Some post_id))) d with
            | None => (d, server_error)
            | Some d1 =>
                let reply_id := if notified then seq (notifications d1)
                                else seq (posts d1) in
                commit d1
                  (notify_mentions (User.id me) reply_id
                                   (extract_mentions content))
                  (fun _ => redirect (Some ("Reply posted!",
                                            "success")))%string
            end
      end
  end.

Definition is_repost_of (u pid : nat) (p : Post.t) : bool :=
  (Post.user_id p =? u) && opt_eqb (Post.repost_id p) pid.

Definition repost (d : db) (g_user : option User.t) (post_id : nat)
    (now : nat) : db * response :=
  match g_user with
  | None => (d, redirect_login)
  | Some me =>
      match fetchone (live_post post_id) (posts d) with
      | None => (d, abort 404)
      | Some original =>
          match fetchone (is_repost_of (User.id me) post_id) (posts d) with
          | Some existing =>
              commit d (delete_post_row (Post.id existing))
                     (fun _ => redirect (Some ("Rechirp removed.",
                                               "info")))%string
          | None =>
              commit d
                (insert_post (User.id me) EmptyString None (Some post_id)
                             None now ;;
                 when (negb (Post.user_id original =? User.id me))
                      (insert_notification (Post.user_id original)
                         (Some (User.id me)) Notification.repost
                         (Some post_id)))
                (fun _ => redirect (Some ("Rechirped!", "success")))%string
          end
      end
  end.

Definition owned_post (pid u : nat) (p : Post.t) : bool :=
  (Post.id p =? pid) && (Post.user_id p =? u).

Definition pin_post (d : db) (g_user : option User.t) (post_id : nat)
  : db * response :=
  match g_user with
  | None => (d, redirect_login)
  | Some me =>
      match fetchone (owned_post post_id (User.id me)) (posts d) with
      | None => (d, abort 404)
      | Some post =>
          commit d
            (update_posts (fun p => Post.user_id p =? User.id me)
                          (Post.set_pinned false) ;;
             when (negb (Post.is_pinned post))
                  (update_posts (fun p => Post.id p =? post_id)
                                (Post.set_pinned true)))
            (fun _ => redirect None)
      end
  end.

(** Soft deletion, by the owner or an administrator. *)
Definition delete_post (d : db) (g_user : option User.t) (post_id : nat)
  : db * response :=
  match g_user with
  | None => (d, redirect_login)
  | Some me =>
      match fetchone (fun p => Post.id p =? post_id) (posts d) with
      | None => (d, abort 404)
      | Some post =>
          if negb (Post.user_id post =? User.id me)
             && negb (User.is_admin me)
          then (d, abort 403)
          else commit d
                 (update_posts (fun p => Post.id p =? post_id)
                               (Post.set_deleted true))
                 (fun _ => redirect (Some ("Post deleted.", "info")))%string
      end
  end.

(** [rating not in ('helpful', 'not_helpful')] aborts; otherwise the form
    value is one of the two ratings. *)
Definition parse_rating (s : string) : option Rating.value :=
  if String.eqb s "helpful" then Some Rating.helpful
  else if String.eqb s "not_helpful" then Some Rating.not_helpful
  else None.

Definition rated (nid : nat) (v : Rating.value) (r : Rating.t) : bool :=
  (Rating.note_id r =? nid) && Rating.eqb (Rating.rating r) v.

Definition helpful_of (d : db) (nid : nat) : nat :=
  count (rated nid Rating.helpful) (community_note_ratings d).

Definition not_helpful_of (d : db) (nid : nat) : nat :=
  count (rated nid Rating.not_helpful) (community_note_ratings d).

(** The recount and the auto-approval that follow the upsert. *)
Definition recount (note_id : nat) : txn := fun d =>
  let helpful := helpful_of d note_id in
  let not_helpful := not_helpful_of d note_id in
  (update_notes (fun c => Note.id c =? note_id)
                (Note.set_counts helpful not_helpful) ;;
   when (3 <=? helpful)
        (update_notes (fun c => Note.id c =? note_id)
                      (Note.set_status Note.approved))) d.

Definition rate_community_note (d : db) (g_user : option User.t)
    (note_id : nat) (rating : string) : db * response :=
  match g_user with
  | None => (d, redirect_login)
  | Some me =>
      match fetchone (fun c => Note.id c =? note_id) (community_notes d) with
      | None => (d, abort 404)
      | Some note =>
          match parse_rating rating with
          | None => (d, abort 400)
          | Some v =>
              commit d
                (match fetchone (is_rating note_id (User.id me))
                                (community_note_ratings d) with
                 | Some existing =>
                     when (negb (Rating.eqb (Rating.rating existing) v))
                          (update_ratings
                             (fun r => Rating.id r =? Rating.id existing)
                             (Rating.set_rating v))
                 | None => insert_rating note_id (User.id me) v
                 end ;; recount note_id)
                (fun _ => redirect None)
          end
      end
  end.

(* ===================================================================== *)
(** * Timelines (app/routes/feed.py, app/routes/auth.py) *)
(* ===================================================================== *)

(** A selected post with its counts and the viewer's like flag.  The
    bookmark flag and the notes that [enrich_post] attaches read tables that
    are not modelled; they add fields to a row and never drop or move one. *)
Record item := Item {
  post : Post.t;
  likes_n : nat;
  replies_n : nat;
  reposts_n : nat;
  is_liked : bool
}.

Definition enrich_post (d : db) (current_user : option User.t) (p : Post.t)
  : item :=
  Item p (like_count d (Post.id p)) (reply_count d (Post.id p))
       (repost_count d (Post.id p))
       match current_user with
       | Some u => exists_row (is_like (User.id u) (Post.id p)) (likes d)
       | None => false
       end.

(** [ORDER BY p.created_at DESC]. *)
Definition newest_first (p q : Post.t) : bool :=
  Post.created_at q <=? Post.created_at p.

(** [ORDER BY p.is_pinned DESC, p.created_at DESC]. *)
Definition pinned_then_newest (p q : Post.t) : bool :=
  if Bool.eqb (Post.is_pinned p) (Post.is_pinned q)
  then Post.created_at q <=? Post.created_at p
  else Post.is_pinned p.

(** [JOIN users u ON p.user_id = u.id]. *)
Definition has_author (d : db) (p : Post.t) : bool :=
  user_exists d (Post.user_id p).

(** The WHERE clause of the home timeline; the two LEFT JOINs with
    [IS NULL] keep a post when the viewer has no mute and no block row for
    its author. *)
Definition in_feed (d : db) (viewer : nat) (p : Post.t) : bool :=
  negb (Post.is_deleted p)
  && negb (exists_row (is_mute viewer (Post.user_id p)) (mutes d))
  && negb (exists_row (is_block viewer (Post.user_id p)) (blocks d))
  && ((Post.user_id p =? viewer)
      || exists_row (is_follow viewer (Post.user_id p)) (follows d)).

(** The home timeline query without its LIMIT and OFFSET.  Posts of one
    creation time stand here in the order of the posts table.  The query
    names no second sort key, and SQLite may list such posts in another
    order; what is proved of the listing (the posts it holds, its order by
    creation time, its pages) does not depend on the order among them. *)
Definition feed_rows (d : db) (viewer : nat) : list Post.t :=
  order_by newest_first
    (filter (fun p => has_author d p && in_feed d viewer p) (rows (posts d))).

Definition get_feed_posts (d : db) (user : User.t) (page per_page : Z)
  : list item :=
  let offset := ((page - 1) * per_page)%Z in
  map (enrich_post d (Some user))
      (limit_offset per_page offset (feed_rows d (User.id user))).

(** [home] calls [get_feed_posts(db, g.user, page)]: 20 posts a page. *)
Definition home (d : db) (g_user : option User.t) (page : Z)
  : option (list item) :=
  match g_user with
  | Some u => Some (get_feed_posts d u page 20)
  | None => None
  end.

(** The posts query of [profile] without its LIMIT. *)
Definition profile_rows (d : db) (subject : nat) : list Post.t :=
  order_by pinned_then_newest
    (filter (fun p => has_author d p
                      && (Post.user_id p =? subject)
                      && negb (Post.is_deleted p))
            (rows (posts d))).

Record profile_page := ProfilePage {
  profile_user : User.t;
  page_posts : list item;
  post_count : nat;
  follower_count : nat;
  following_count : nat;
  is_following : bool;
  is_own_profile : bool
}.

(** [profile(username)]: [None] is the 404 of an unknown name. *)
Definition profile (d : db) (g_user : option User.t) (username : string)
  : option profile_page :=
  match user_by_name d username with
  | None => None
  | Some user =>
      let uid := User.id user in
      let own := match g_user with
                 | Some me => User.id me =? uid
                 | None => false
                 end in
      Some (ProfilePage user
              (map (enrich_post d g_user)
                   (limit_offset 50 0 (profile_rows d uid)))
              (count (fun p => (Post.user_id p =? uid)
                               && negb (Post.is_deleted p)
                               && match Post.parent_id p with
                                  | None => true | Some _ => false end
                               && match Post.repost_id p with
                                  | None => true | Some _ => false end)
                     (posts d))
              (count (fun f => Follow.following_id f =? uid) (follows d))
              (count (fun f => Follow.follower_id f =? uid) (follows d))
              match g_user with
              | Some me =>
                  negb own && exists_row (is_follow (User.id me) uid)
                                         (follows d)
              | None => false
              end
              own)
  end.

(** The posts a viewer is shown on a page. *)
Definition shown (l : list item) : list Post.t := map post l.

(* ===================================================================== *)
(** * Requests in sequence *)
(* ===================================================================== *)

Inductive action :=
| Follow_ (user_id : nat)
| BlockUser (user_id : nat)
| MuteUser (user_id : nat)
| LikePost (post_id : nat) (accept_json : bool)
| Reply (post_id : nat) (content : string) (now : nat)
| Repost (post_id : nat) (now : nat)
| PinPost (post_id : nat)
| DeletePost (post_id : nat)
| RateNote (note_id : nat) (rating : string).

Record request := Request { session_user_id : option nat; act : action }.

Definition handle (d : db) (r : request) : db * response :=
  let g_user := before_request d (session_user_id r) in
  match act r with
  | Follow_ u => follow d g_user u
  | BlockUser u => block_user d g_user u
  | MuteUser u => mute_user d g_user u
  | LikePost p j => like_post d g_user p j
  | Reply p c now => reply d g_user p c now
  | Repost p now => repost d g_user p now
  | PinPost p => pin_post d g_user p
  | DeletePost p => delete_post d g_user p
  | RateNote n s => rate_community_note d g_user n s
  end.

Definition serve (d : db) (rs : list request) : db :=
  fold_left (fun d r => fst (handle d r)) rs d.

(* ===================================================================== *)
(** * Properties the claims are stated with *)
(* ===================================================================== *)

(** [g.user] is a row of the users table. *)
Definition logged_in (d : db) (me : User.t) : Prop := In me (rows (users d)).

(** FOREIGN KEY (user_id) REFERENCES users(id) on posts. *)
Definition posts_have_authors (d : db) : Prop :=
  forall p, In p (rows (posts d)) -> has_author d p = true.

(** Rowids of posts grow along the table: the PRIMARY KEY is unique. *)
Definition posts_keyed (d : db) : Prop :=
  StronglySorted lt (keys (rows (posts d))).

(** UNIQUE(user_id, post_id) on likes. *)
Definition likes_unique (d : db) : Prop :=
  forall u p, count (is_like u p) (likes d) <= 1.

(** UNIQUE(note_id, user_id) on community_note_ratings. *)
Definition ratings_unique (d : db) : Prop :=
  NoDup (map (fun r => (Rating.note_id r, Rating.user_id r))
             (rows (community_note_ratings d))).

(** No block row is a self-block, and no follow edge joins the two users of
    a block row. *)
Definition blocks_sever_follows (d : db) : Prop :=
  forall k, In k (rows (blocks d)) ->
    Block.blocker_id k <> Block.blocked_id k /\
    exists_row (either_follow (Block.blocker_id k) (Block.blocked_id k))
               (follows d) = false.

Definition pinned_by (u : nat) (p : Post.t) : bool :=
  (Post.user_id p =? u) && Post.is_pinned p.

Definition pinned_live_by (u : nat) (p : Post.t) : bool :=
  pinned_by u p && negb (Post.is_deleted p).

(** At most one pinned post per author. *)
Definition pins_unique (d : db) : Prop :=
  forall u, count (pinned_by u) (posts d) <= 1.

(** The users that hold a rating for a note, each once. *)
Definition raters (d : db) (nid : nat) : list nat :=
  nodup Nat.eq_dec
        (map Rating.user_id
             (select (fun r => Rating.note_id r =? nid)
                     (community_note_ratings d))).



(** Profile timeline candidates in the words of the specification: the
    subject's own posts that are neither soft-deleted nor replies. *)
Definition profile_candidate (subject : nat) (p : Post.t) : bool :=
  (Post.user_id p =? subject) && negb (Post.is_deleted p)
  && match Post.parent_id p with None => true | Some _ => false end.

(** What the profile query selects: the subject's own live posts. *)
Definition own_live (subject : nat) (p : Post.t) : bool :=
  (Post.user_id p =? subject) && negb (Post.is_deleted p).



Definition pinned_first_then_newer (p q : Post.t) : Prop :=
  (Post.is_pinned p = true /\ Post.is_pinned q = false)
  \/ (Post.is_pinned p = Post.is_pinned q
      /\ Post.created_at q <= Post.created_at p).

(* ===================================================================== *)
(** * Derived tables, frames and invariants *)
(* ===================================================================== *)

(** What [follow] answers across a block. *)
Definition refused : response :=
  redirect (Some ("Unable to follow this user.", "error")%string).

(** A notification that tells somebody else of a mention. *)
Definition mention_for_other (me : nat) (n : Notification.t) : Prop :=
  Notification.type n = Notification.mention
  /\ Notification.user_id n <> me
  /\ Notification.actor_id n = Some me.

(** The ratings table after the upsert of [rate_community_note]. *)
Definition ratings_after (d : db) (me nid : nat) (v : Rating.value)
  : table Rating.t :=
  match fetchone (is_rating nid me) (community_note_ratings d) with
  | Some existing =>
      if Rating.eqb (Rating.rating existing) v
      then community_note_ratings d
      else update (fun r => Rating.id r =? Rating.id existing)
                  (Rating.set_rating v) (community_note_ratings d)
  | None => insert (fun i => Rating.mk i nid me v) (community_note_ratings d)
  end.

(** The note row after the recount over the ratings [rs]. *)
Definition note_after (rs : table Rating.t) (nid : nat) (c : Note.t)
  : Note.t :=
  let counted := Note.set_counts (count (rated nid Rating.helpful) rs)
                                 (count (rated nid Rating.not_helpful) rs)
                                 c in
  if 3 <=? count (rated nid Rating.helpful) rs
  then Note.set_status Note.approved counted
  else counted.

(** The notes table after the recount for note [nid]. *)
Definition notes_after (rs : table Rating.t) (nid : nat)
    (t : table Note.t) : table Note.t :=
  update (fun c => Note.id c =? nid) (note_after rs nid) t.

(** The columns of UNIQUE(note_id, user_id). *)
Definition rating_pair (r : Rating.t) : nat * nat :=
  (Rating.note_id r, Rating.user_id r).

(** The posts table after a pin-toggle on a post that was found. *)
Definition posts_after_pin (d : db) (me pid : nat) (was_pinned : bool)
  : table Post.t :=
  let cleared := update (fun p => Post.user_id p =? me)
                        (Post.set_pinned false) (posts d) in
  if was_pinned then cleared
  else update (fun p => Post.id p =? pid) (Post.set_pinned true) cleared.

(** The requests of a sequence of pin-toggle calls, each with the session
    that makes it. *)
Definition pin_calls (calls : list (option nat * nat)) : list request :=
  map (fun c => Request (fst c) (PinPost (snd c))) calls.

(** A transaction that commits only databases in which [I] still holds. *)
Definition preserves (I : db -> Prop) (t : txn) : Prop :=
  forall d d', I d -> t d = Some d' -> I d'.

(** A transaction whose result is [same] as its input on the tables an
    invariant reads. *)
Definition framed (same : db -> db -> Prop) (t : txn) : Prop :=
  forall d d', t d = Some d' -> same d d'.

Definition same_posts (d d' : db) : Prop :=
  users d' = users d /\ posts d' = posts d.

Definition same_graph (d d' : db) : Prop :=
  follows d' = follows d /\ blocks d' = blocks d.

Definition same_likes (d d' : db) : Prop := likes d' = likes d.

Definition same_ratings (d d' : db) : Prop :=
  community_note_ratings d' = community_note_ratings d.

(** The three invariants of the posts table. *)
Definition posts_sound (d : db) : Prop :=
  posts_have_authors d /\ posts_keyed d /\ pins_unique d.

(** What the theorems on handlers assume of a database. *)
Definition consistent (d : db) : Prop :=
  posts_sound d /\ blocks_sever_follows d /\ likes_unique d
  /\ ratings_unique d.

(* ===================================================================== *)
(** * A small database *)
(* ===================================================================== *)

(** Alice has written two posts in the same second and a reply to the first
    of them; Bob follows Alice, Carol has blocked her; Alice has proposed a
    community note on her first post. *)
Module Demo.

Definition alice : User.t := User.mk 1 "alice" false false.
Definition bob : User.t := User.mk 2 "bob" false false.
Definition carol : User.t := User.mk 3 "carol" false false.

Definition p1 : Post.t := Post.mk 1 1 "hello" None None None false false 10.
Definition p2 : Post.t := Post.mk 2 1 "again" None None None false false 10.
Definition p3 : Post.t :=
  Post.mk 3 1 "and more" (Some 1) None None false false 12.

Definition note1 : Note.t := Note.mk 1 1 1 Note.proposed 0 0.

Definition state : db :=
  Db (Table [alice; bob; carol] 3)
     (Table [p1; p2; p3] 3)
     (Table [] 0)
     (Table [Follow.mk 1 2 1] 1)
     (Table [Block.mk 1 3 1] 1)
     (Table [] 0)
     (Table [] 0)
     (Table [note1] 1)
     (Table [] 0).

End Demo.

(** A rating of the demo note by the user of session [uid]. *)
Definition rate (uid : nat) (s : string) : request :=
  Request (Some uid) (RateNote 1 s).

(** A mention notification from [me] that records post id [pid]. *)
Definition mention_about (me pid : nat) (n : Notification.t) : Prop :=
  Notification.type n = Notification.mention
  /\ Notification.actor_id n = Some me
  /\ Notification.post_id n = Some pid.

(** Bob unfollows and follows Alice four times over: four follow
    notifications later the notifications table is ahead of the posts
    table. *)
Definition busy : db :=
  serve Demo.state
        (repeat (Request (Some 2) (Follow_ 1)) 8).

(** FOREIGN KEY (parent_id / repost_id / quote_id) REFERENCES posts(id). *)
Definition posts_refer_to_posts (d : db) : Prop :=
  forall p, In p (rows (posts d)) ->
    ref_ok (post_exists d) (Post.parent_id p) = true
    /\ ref_ok (post_exists d) (Post.repost_id p) = true
    /\ ref_ok (post_exists d) (Post.quote_id p) = true.

(** The posts on page [k + 1] of a viewer's home timeline. *)
Definition home_page (d : db) (u : User.t) (per_page : Z) (k : nat)
  : list Post.t :=
  shown (get_feed_posts d u (Z.of_nat (S k)) per_page).

(** Every note of [d'] is a note of [d] with the same post and author whose
    status is what it was in [d] or [approved]. *)
Definition notes_advance (d d' : db) : Prop :=
  forall c', In c' (rows (community_notes d')) ->
    exists c, In c (rows (community_notes d))
      /\ Note.id c = Note.id c'
      /\ Note.post_id c = Note.post_id c'
      /\ Note.author_id c = Note.author_id c'
      /\ (Note.status c' = Note.status c
          \/ Note.status c' = Note.approved).

Definition same_notes (d d' : db) : Prop :=
  community_notes d' = community_notes d.

Definition is_hash (c : ascii) : bool := nat_of_ascii c =? 35.

(** [re.findall] of a marker character followed by [(\w+)]: the scan of
    [Text.findall_at] for any marker. *)
Fixpoint findall_marked (mark : ascii -> bool) (st : option (list ascii))
    (s : string) : list string :=
  match s with
  | EmptyString => Text.flush st
  | String c s' =>
      match st with
      | Some acc =>
          if Text.is_word c then findall_marked mark (Some (c :: acc)) s'
          else (Text.flush st ++
                findall_marked mark (if mark c then Some [] else None) s')%list
      | None => findall_marked mark (if mark c then Some [] else None) s'
      end
  end.

(** [list(set(re.findall(r'#(\w+)', content)))]. *)
Definition extract_hashtags (content : string) : list string :=
  nodup string_dec (findall_marked is_hash None content).

Fixpoint all_word (s : string) : bool :=
  match s with
  | EmptyString => true
  | String c s' => Text.is_word c && all_word s'
  end.

(** [h] stands in [s] right after a marker character. *)
Definition marked_in (mark : ascii -> bool) (h s : string) : Prop :=
  exists pre c post,
    s = (pre ++ String c (h ++ post))%string /\ mark c = true.

(* ===================================================================== *)
(** * Bookmarks, polls and the page of a post *)
(* ===================================================================== *)

Module Bookmark.
Record t := mk { id : nat; user_id : nat; post_id : nat; created_at : nat }.
End Bookmark.

Module Poll.
(** [options] is the list that the JSON text of the column decodes to. *)
Record t := mk {
  id : nat;
  post_id : nat;
  options : list string;
  expires_at : nat
}.
End Poll.

Module PollVote.
Record t := mk { id : nat; poll_id : nat; user_id : nat; option_index : Z }.
End PollVote.

#[export] Instance bookmark_key : Keyed Bookmark.t := Bookmark.id.
#[export] Instance poll_key : Keyed Poll.t := Poll.id.
#[export] Instance poll_vote_key : Keyed PollVote.t := PollVote.id.

(** The database together with the bookmark and poll tables, and with the
    column [posts.poll_id], which [Post.t] leaves out, as a map from the id
    of a post. *)
Record site := Site {
  base : db;
  poll_id : nat -> option nat;
  bookmarks : table Bookmark.t;
  polls : table Poll.t;
  poll_votes : table PollVote.t
}.

Definition with_bookmarks (s : site) (t : table Bookmark.t) : site :=
  Site (base s) (poll_id s) t (polls s) (poll_votes s).

Definition with_poll_votes (s : site) (t : table PollVote.t) : site :=
  Site (base s) (poll_id s) (bookmarks s) (polls s) t.

Definition is_bookmark (u p : nat) (b : Bookmark.t) : bool :=
  (Bookmark.user_id b =? u) && (Bookmark.post_id b =? p).

Definition is_vote (poll u : nat) (v : PollVote.t) : bool :=
  (PollVote.poll_id v =? poll) && (PollVote.user_id v =? u).

Definition poll_exists (s : site) (n : nat) : bool :=
  exists_row (fun p => Poll.id p =? n) (polls s).

(** [INSERT INTO bookmarks (user_id, post_id)]. *)
Definition insert_bookmark (u p now : nat) (s : site) : option site :=
  if user_exists (base s) u && post_exists (base s) p
     && negb (exists_row (is_bookmark u p) (bookmarks s))
  then Some (with_bookmarks s
               (insert (fun i => Bookmark.mk i u p now) (bookmarks s)))
  else None.

(** [INSERT INTO poll_votes (poll_id, user_id, option_index)]. *)
Definition insert_vote (poll u : nat) (i : Z) (s : site) : option site :=
  if poll_exists s poll && user_exists (base s) u
     && negb (exists_row (is_vote poll u) (poll_votes s))
  then Some (with_poll_votes s
               (insert (fun k => PollVote.mk k poll u i) (poll_votes s)))
  else None.

(** What [bookmark_post] returns: a page response, or the JSON object with
    the new state of the bookmark. *)
Inductive bookmark_response :=
| html (r : response)
| json_bookmarked (bookmarked : bool).

Definition bookmark_post (s : site) (g_user : option User.t)
    (post_id now : nat) (accept_json : bool) : site * bookmark_response :=
  match g_user with
  | None => (s, html redirect_login)
  | Some me =>
      let answer b :=
        if accept_json then json_bookmarked b else html (redirect None) in
      match fetchone (is_bookmark (User.id me) post_id) (bookmarks s) with
      | Some _ =>
          (with_bookmarks s
             (delete (is_bookmark (User.id me) post_id) (bookmarks s)),
           answer false)
      | None =>
          match insert_bookmark (User.id me) post_id now s with
          | Some s' => (s', answer true)
          | None => (s, html server_error)
          end
      end
  end.

(** A post as the templates get it: the counts and the like flag of [item]
    with the bookmark flag that [enrich_post] adds. *)
Record page_item := PageItem { shown_item : item; is_bookmarked : bool }.

Definition enrich_post_in (s : site) (current_user : option User.t)
    (p : Post.t) : page_item :=
  PageItem (enrich_post (base s) current_user p)
           match current_user with
           | Some u =>
               match fetchone (is_bookmark (User.id u) (Post.id p))
                              (bookmarks s) with
               | Some _ => true
               | None => false
               end
           | None => false
           end.

(** The join of the bookmarks page for one bookmark row: the post of the
    bookmark when it is not deleted and has its author. *)
Definition bookmarked_post (s : site) (b : Bookmark.t) : list Post.t :=
  filter (fun p => has_author (base s) p && negb (Post.is_deleted p))
         (select (fun p => Post.id p =? Bookmark.post_id b)
                 (posts (base s))).

(** The posts query of [bookmarks] in app/routes/feed.py:
    [WHERE b.user_id = ? AND p.is_deleted = 0 ORDER BY b.created_at DESC
    LIMIT 50]. *)
Definition bookmark_rows (s : site) (uid : nat) : list Post.t :=
  limit_offset 50 0
    (flat_map (bookmarked_post s)
       (order_by (key_desc Bookmark.created_at)
          (select (fun b => Bookmark.user_id b =? uid) (bookmarks s)))).

(** [bookmarks] of app/routes/feed.py; [None] is the login redirect. *)
Definition bookmarks_page (s : site) (g_user : option User.t)
  : option (list page_item) :=
  match g_user with
  | None => None
  | Some me => Some (map (enrich_post_in s (Some me))
                         (bookmark_rows s (User.id me)))
  end.

(** [request.form.get('option', type=int)] is [None] when the field is
    missing or is no integer. *)
Definition vote_poll (s : site) (g_user : option User.t) (poll : nat)
    (option_index : option Z) : site * response :=
  match g_user with
  | None => (s, redirect_login)
  | Some me =>
      match fetchone (fun p => Poll.id p =? poll) (polls s) with
      | None => (s, abort 404)
      | Some row =>
          match option_index with
          | None => (s, abort 400)
          | Some i =>
              if (i <? 0)%Z
                 || (Z.of_nat (List.length (Poll.options row)) <=? i)%Z
              then (s, abort 400)
              else
                match fetchone (is_vote poll (User.id me)) (poll_votes s) with
                | Some _ =>
                    (s, redirect (Some ("You already voted.", "info")%string))
                | None =>
                    match insert_vote poll (User.id me) i s with
                    | Some s' =>
                        (s', redirect (Some ("Vote cast!", "success")%string))
                    | None => (s, server_error)
                    end
                end
          end
      end
  end.

(** The poll that [view_post] hands to the template. *)
Record poll_view := PollView {
  poll_options : list string;
  total_votes : nat;
  vote_counts : list nat;
  user_voted : option Z
}.

Definition votes_for (n : nat) (i : Z) (v : PollVote.t) : bool :=
  (PollVote.poll_id v =? n) && (PollVote.option_index v =? i)%Z.

Definition view_poll (s : site) (g_user : option User.t) (row : Poll.t)
  : poll_view :=
  PollView
    (Poll.options row)
    (count (fun v => PollVote.poll_id v =? Poll.id row) (poll_votes s))
    (map (fun i => count (votes_for (Poll.id row) (Z.of_nat i))
                         (poll_votes s))
         (List.seq 0 (List.length (Poll.options row))))
    match g_user with
    | None => None
    | Some me =>
        option_map PollVote.option_index
          (fetchone (is_vote (Poll.id row) (User.id me)) (poll_votes s))
    end.

(** [ORDER BY p.created_at ASC]. *)
Definition oldest_first (p q : Post.t) : bool :=
  Post.created_at p <=? Post.created_at q.

(** The replies query of [view_post]. *)
Definition reply_rows (d : db) (pid : nat) : list Post.t :=
  order_by oldest_first
    (filter (fun p => has_author d p
                      && opt_eqb (Post.parent_id p) pid
                      && negb (Post.is_deleted p))
            (rows (posts d))).

Record post_page := PostPage {
  page_post : page_item;
  page_poll : option poll_view;
  page_replies : list page_item
}.

(** [view_post]; [None] is the 404 of a post that is deleted, missing or
    without its author. *)
Definition view_post (s : site) (g_user : option User.t) (post_id : nat)
  : option post_page :=
  match fetchone (fun p => has_author (base s) p && live_post post_id p)
                 (posts (base s)) with
  | None => None
  | Some p =>
      Some (PostPage
              (enrich_post_in s g_user p)
              match poll_id s (Post.id p) with
              | Some (S n) =>
                  option_map (view_poll s g_user)
                    (fetchone (fun r => Poll.id r =? S n) (polls s))
              | _ => None
              end
              (map (enrich_post_in s g_user) (reply_rows (base s) post_id)))
  end.

(** A call of [vote_poll]: the user of the session, the poll and the form
    field. *)
Record ballot := Ballot {
  voter : option nat;
  on_poll : nat;
  chosen : option Z
}.

Fixpoint poll_votes_after (s : site) (bs : list ballot) : site :=
  match bs with
  | [] => s
  | b :: bs' =>
      poll_votes_after
        (fst (vote_poll s (before_request (base s) (voter b)) (on_poll b)
                        (chosen b)))
        bs'
  end.

(** Every vote is for an option of its poll. *)
Definition votes_in_range (s : site) : Prop :=
  forall v, In v (rows (poll_votes s)) ->
    exists row,
      fetchone (fun p => Poll.id p =? PollVote.poll_id v) (polls s)
      = Some row
      /\ (0 <= PollVote.option_index v
          < Z.of_nat (List.length (Poll.options row)))%Z.

(** UNIQUE(poll_id, user_id) on poll_votes. *)
Definition votes_unique (s : site) : Prop :=
  NoDup (map (fun v => (PollVote.poll_id v, PollVote.user_id v))
             (rows (poll_votes s))).

Definition sum (l : list nat) : nat := fold_right Nat.add 0 l.

(** The demo database with a poll of three options on the first post, one
    vote of Bob, and a bookmark of Bob on Alice's second post. *)
Definition demo_site : site :=
  Site Demo.state
       (fun p => if p =? 1 then Some 1 else None)
       (Table [Bookmark.mk 1 2 2 30] 1)
       (Table [Poll.mk 1 1 ["yes"; "no"; "maybe"]%string 100] 1)
       (Table [PollVote.mk 1 1 2 1%Z] 1).

(* ===================================================================== *)
(** * The REST API (app/routes/api.py) *)
(* ===================================================================== *)

(** The handlers of the API are modelled below their [rate_limit]
    decorator: what they do with a request that the limiter lets through. *)

(** A row of the API timeline: the post with its three counts. *)
Record api_post := ApiPost {
  api_row : Post.t;
  api_likes : nat;
  api_replies : nat;
  api_reposts : nat
}.

Inductive api_response :=
| api_error (code : nat)
| api_timeline (posts : list api_post) (page per_page : Z)
| api_liked (liked : bool) (count : nat)
| api_server_error.

(** The WHERE clause of the API timeline. *)
Definition in_timeline (d : db) (viewer : nat) (p : Post.t) : bool :=
  negb (Post.is_deleted p)
  && ((Post.user_id p =? viewer)
      || exists_row (is_follow viewer (Post.user_id p)) (follows d)).

(** The API timeline query without its LIMIT and OFFSET; as in
    [feed_rows], the order among posts of one creation time is that of the
    posts table, where SQLite is free to choose. *)
Definition timeline_rows (d : db) (viewer : nat) : list Post.t :=
  order_by newest_first
    (filter (fun p => has_author d p && in_timeline d viewer p)
            (rows (posts d))).

Definition api_post_of (d : db) (p : Post.t) : api_post :=
  ApiPost p (like_count d (Post.id p)) (reply_count d (Post.id p))
          (repost_count d (Post.id p)).

(** An integer that SQLite can bind: [sqlite3] raises [OverflowError] for
    a Python [int] outside 64 bits. *)
Definition fits_int64 (z : Z) : bool :=
  (- 2 ^ 63 <=? z)%Z && (z <? 2 ^ 63)%Z.

(** [timeline] under [api_auth_required]; [page] and [per_page] are the
    query arguments after [request.args.get(..., type=int)] has put in
    the defaults 1 and 20. *)
Definition timeline (d : db) (g_user : option User.t) (page per_page : Z)
  : api_response :=
  match g_user with
  | None => api_error 401
  | Some me =>
      let per_page := Z.min per_page 100 in
      let offset := ((page - 1) * per_page)%Z in
      if fits_int64 per_page && fits_int64 offset
      then api_timeline
             (map (api_post_of d)
                  (limit_offset per_page offset
                                (timeline_rows d (User.id me))))
             page per_page
      else api_server_error
  end.

(** [DELETE FROM likes WHERE id = ?]. *)
Definition like_with_id (i : nat) (l : Like.t) : bool := Like.id l =? i.

Definition api_like (d : db) (g_user : option User.t) (post_id : nat)
  : db * api_response :=
  match g_user with
  | None => (d, api_error 401)
  | Some me =>
      match fetchone (is_like (User.id me) post_id) (likes d) with
      | Some existing =>
          let d' := with_likes d (delete (like_with_id (Like.id existing))
                                         (likes d)) in
          (d', api_liked false (like_count d' post_id))
      | None =>
          match insert_like (User.id me) post_id d with
          | Some d' => (d', api_liked true (like_count d' post_id))
          | None => (d, api_server_error)
          end
      end
  end.

(** The author of [p] is neither muted nor blocked by [viewer]. *)
Definition not_silenced (d : db) (viewer : nat) (p : Post.t) : bool :=
  negb (exists_row (is_mute viewer (Post.user_id p)) (mutes d))
  && negb (exists_row (is_block viewer (Post.user_id p)) (blocks d)).

(* ===================================================================== *)
(** * Sessions and the CSRF token (app/main.py) *)
(* ===================================================================== *)

(** The two keys of the session that [before_request] reads and writes. *)
Module Session.
Record t := mk { user_id : option nat; csrf_token : option string }.
End Session.





(** The view function of each route. *)
Definition route (d : db) (g_user : option User.t) (a : action)
  : db * response :=
  match a with
  | Follow_ u => follow d g_user u
  | BlockUser u => block_user d g_user u
  | MuteUser u => mute_user d g_user u
  | LikePost p j => like_post d g_user p j
  | Reply p c now => reply d g_user p c now
  | Repost p now => repost d g_user p now
  | PinPost p => pin_post d g_user p
  | DeletePost p => delete_post d g_user p
  | RateNote n s => rate_community_note d g_user n s
  end.



(* ===================================================================== *)
(** * Facts about tables *)
(* ===================================================================== *)

Unset Implicit Arguments.

Section TableFacts.
Context {A : Type} `{Keyed A}.

Lemma count_insert (c : A -> bool) (mk : nat -> A) (t : table A) :
  count c (insert mk t)
  = count c t + (if c (mk (next_rowid t)) then 1 else 0).
Proof.
  unfold count, insert; simpl.
  rewrite filter_app, length_app; simpl.
  destruct (c (mk (next_rowid t))); reflexivity.
Qed.

Lemma exists_row_insert (c : A -> bool) (mk : nat -> A) (t : table A) :
  exists_row c (insert mk t) = exists_row c t || c (mk (next_rowid t)).
Proof.
  unfold exists_row, insert; simpl.
  rewrite existsb_app; simpl. now rewrite orb_false_r.
Qed.

Lemma exists_row_delete_same (c : A -> bool) (t : table A) :
  exists_row c (delete c t) = false.
Proof.
  unfold exists_row, delete; simpl.
  induction (rows t) as [|x l IH]; simpl; auto.
  destruct (c x) eqn:E; simpl; auto. now rewrite E.
Qed.

Lemma exists_row_false_count (c : A -> bool) (t : table A) :
  exists_row c t = false -> count c t = 0.
Proof.
  unfold exists_row, count.
  induction (rows t) as [|x l IH]; simpl; auto.
  destruct (c x); simpl; [discriminate | auto].
Qed.

Lemma exists_row_In (c : A -> bool) (t : table A) :
  exists_row c t = true <-> exists x, In x (rows t) /\ c x = true.
Proof. apply existsb_exists. Qed.

Lemma exists_row_none (c : A -> bool) (t : table A) :
  exists_row c t = false <-> forall x, In x (rows t) -> c x = false.
Proof.
  unfold exists_row. split.
  - intros E x Hx. destruct (c x) eqn:C; auto.
    assert (existsb c (rows t) = true) by (apply existsb_exists; eauto).
    congruence.
  - intros F. destruct (existsb c (rows t)) eqn:E; auto.
    apply existsb_exists in E as [x [Hx Cx]]. rewrite (F x Hx) in Cx.
    discriminate.
Qed.

Lemma fetchone_some (c : A -> bool) (t : table A) (x : A) :
  fetchone c t = Some x -> In x (rows t) /\ c x = true.
Proof. apply find_some. Qed.

Lemma fetchone_exists (c : A -> bool) (t : table A) :
  exists_row c t = match fetchone c t with Some _ => true | None => false end.
Proof.
  unfold exists_row, fetchone.
  induction (rows t) as [|x l IH]; simpl; auto.
  destruct (c x); auto.
Qed.

Lemma fetchone_none (c : A -> bool) (t : table A) :
  fetchone c t = None -> exists_row c t = false.
Proof. intros E. now rewrite fetchone_exists, E. Qed.

Lemma fetchone_some_exists (c : A -> bool) (t : table A) (x : A) :
  fetchone c t = Some x -> exists_row c t = true.
Proof. intros E. now rewrite fetchone_exists, E. Qed.

(** A row-wise update that keeps the truth of [c] moves the first [c]-row
    along with it. *)
Lemma fetchone_update (c u : A -> bool) (f : A -> A) (t : table A) :
  (forall x, c (f x) = c x) ->
  fetchone c (update u f t)
  = option_map (fun x => if u x then f x else x) (fetchone c t).
Proof.
  intros K. unfold fetchone, update; simpl.
  induction (rows t) as [|x l IH]; simpl; auto.
  assert (E : c (if u x then f x else x) = c x) by (destruct (u x); auto).
  rewrite E. destruct (c x); auto.
Qed.

Lemma count_update (c u : A -> bool) (f : A -> A) (t : table A) :
  (forall x, c (f x) = c x) -> count c (update u f t) = count c t.
Proof.
  intros K. unfold count, update; simpl.
  induction (rows t) as [|x l IH]; simpl; auto.
  assert (E : c (if u x then f x else x) = c x) by (destruct (u x); auto).
  rewrite E. destruct (c x); simpl; auto.
Qed.

Lemma exists_row_update (c u : A -> bool) (f : A -> A) (t : table A) :
  (forall x, c (f x) = c x) -> exists_row c (update u f t) = exists_row c t.
Proof.
  intros K. unfold exists_row, update; simpl.
  induction (rows t) as [|x l IH]; simpl; auto.
  assert (E : c (if u x then f x else x) = c x) by (destruct (u x); auto).
  now rewrite E, IH.
Qed.

Lemma max_id_bound (l : list A) (x : A) : In x l -> key x <= max_id l.
Proof.
  induction l as [|y l IH]; simpl; [tauto|].
  intros [->|Hx]; [lia | specialize (IH Hx); lia].
Qed.

Lemma next_rowid_fresh (t : table A) (x : A) :
  In x (rows t) -> key x < next_rowid t.
Proof. intros Hx. apply max_id_bound in Hx. unfold next_rowid. lia. Qed.

End TableFacts.

(* ===================================================================== *)
(** * Facts about ORDER BY and LIMIT *)
(* ===================================================================== *)

Section OrderFacts.
Context {A : Type} (before : A -> A -> bool).

Lemma place_perm (x : A) (l : list A) :
  Permutation (place before x l) (x :: l).
Proof.
  induction l as [|y l IH]; simpl; auto.
  destruct (before x y); auto.
  rewrite IH. apply perm_swap.
Qed.

Lemma order_by_perm (l : list A) : Permutation (order_by before l) l.
Proof.
  induction l as [|x l IH]; simpl; auto.
  rewrite place_perm. now constructor.
Qed.

Lemma order_by_In (l : list A) (x : A) : In x (order_by before l) <-> In x l.
Proof.
  split; apply Permutation_in;
    [apply order_by_perm | apply Permutation_sym, order_by_perm].
Qed.

Variable R : A -> A -> Prop.
Hypothesis before_R : forall x y, before x y = true -> R x y.
Hypothesis before_total : forall x y, before x y = false -> R y x.
Hypothesis R_trans : forall x y z, R x y -> R y z -> R x z.

Lemma place_sorted (x : A) (l : list A) :
  StronglySorted R l -> StronglySorted R (place before x l).
Proof.
  induction 1 as [|y l S IH F]; simpl.
  - repeat constructor.
  - destruct (before x y) eqn:E.
    + constructor; [constructor; auto|].
      constructor; [now apply before_R|].
      eapply Forall_impl; [|exact F]. intros z Rz.
      eapply R_trans; [apply before_R|]; eauto.
    + constructor; auto.
      apply (Permutation_Forall (Permutation_sym (place_perm x l))).
      constructor; auto.
Qed.

Lemma order_by_sorted (l : list A) : StronglySorted R (order_by before l).
Proof.
  induction l as [|x l IH]; simpl; [constructor | now apply place_sorted].
Qed.

End OrderFacts.

(** Rows with the same sort key leave [ORDER BY key DESC] in the order in
    which they entered it. *)
Section Stable.
Context {A : Type} (sort_key : A -> nat).

Lemma place_same_key (t : nat) (x : A) (l : list A) :
  filter (fun r => sort_key r =? t) (place (key_desc sort_key) x l)
  = filter (fun r => sort_key r =? t) (x :: l).
Proof.
  induction l as [|y l IH]; [reflexivity|].
  cbn [place]. unfold key_desc at 1.
  destruct (sort_key y <=? sort_key x) eqn:E; [reflexivity|].
  apply Nat.leb_gt in E.
  cbn [filter] in *. rewrite IH.
  destruct (sort_key x =? t) eqn:Ex, (sort_key y =? t) eqn:Ey;
    try reflexivity.
  apply Nat.eqb_eq in Ex, Ey. lia.
Qed.

Lemma order_by_same_key (t : nat) (l : list A) :
  filter (fun r => sort_key r =? t) (order_by (key_desc sort_key) l)
  = filter (fun r => sort_key r =? t) l.
Proof.
  induction l as [|x l IH]; [reflexivity|].
  cbn [order_by]. rewrite place_same_key. cbn [filter]. now rewrite IH.
Qed.

End Stable.

Lemma in_skipn {A} (n : nat) (l : list A) (x : A) :
  In x (skipn n l) -> In x l.
Proof.
  intros Hx. rewrite <- (firstn_skipn n l). apply in_or_app. now right.
Qed.

Lemma in_firstn {A} (n : nat) (l : list A) (x : A) :
  In x (firstn n l) -> In x l.
Proof.
  intros Hx. rewrite <- (firstn_skipn n l). apply in_or_app. now left.
Qed.

Lemma limit_offset_incl {A} (lim off : Z) (l : list A) (x : A) :
  In x (limit_offset lim off l) -> In x l.
Proof.
  unfold limit_offset. intros Hx.
  destruct (lim <? 0)%Z.
  - eapply in_skipn; eauto.
  - eapply in_skipn, in_firstn; eauto.
Qed.

(** With a positive page size every row of a listing is on some page. *)
Lemma on_some_page {A} (per_page : Z) (l : list A) (x : A) :
  (0 < per_page)%Z -> In x l ->
  exists page, (1 <= page)%Z
    /\ In x (limit_offset per_page ((page - 1) * per_page) l).
Proof.
  intros Hp Hx. apply In_nth_error in Hx as [n Hn].
  set (k := (Z.of_nat n / per_page)%Z).
  assert (Hk : (0 <= k)%Z) by (apply Z.div_pos; lia).
  exists (k + 1)%Z. split; [lia|].
  replace (k + 1 - 1)%Z with k by lia.
  unfold limit_offset.
  destruct (per_page <? 0)%Z eqn:E; [apply Z.ltb_lt in E; lia|].
  pose proof (Z.mul_div_le (Z.of_nat n) per_page Hp) as Lo.
  pose proof (Z.mod_pos_bound (Z.of_nat n) per_page Hp) as Md.
  pose proof (Z.div_mod (Z.of_nat n) per_page ltac:(lia)) as Dm.
  fold k in Lo, Dm.
  assert (Hoff : Z.to_nat (k * per_page) <= n) by lia.
  apply nth_error_In with (n := n - Z.to_nat (k * per_page)).
  rewrite nth_error_firstn.
  assert (Hlt : n - Z.to_nat (k * per_page) < Z.to_nat per_page) by lia.
  apply Nat.ltb_lt in Hlt. rewrite Hlt.
  rewrite nth_error_skipn.
  replace (Z.to_nat (k * per_page) + (n - Z.to_nat (k * per_page))) with n
    by lia.
  exact Hn.
Qed.

(* ===================================================================== *)
(** * Timelines: contents and order *)
(* ===================================================================== *)

Lemma shown_enrich (d : db) (g : option User.t) (l : list Post.t) :
  shown (map (enrich_post d g) l) = l.
Proof.
  unfold shown. rewrite map_map. simpl. apply map_id.
Qed.

Lemma logged_in_exists (d : db) (u : User.t) :
  logged_in d u -> user_exists d (User.id u) = true.
Proof.
  intros Hu. apply exists_row_In. exists u. split; auto.
  apply Nat.eqb_refl.
Qed.

Lemma before_request_logged_in (d : db) (uid : nat) (me : User.t) :
  before_request d (Some uid) = Some me -> logged_in d me /\ User.id me = uid.
Proof.
  simpl. intros E. apply fetchone_some in E as [Hin Hc].
  apply andb_true_iff in Hc as [Hid _]. apply Nat.eqb_eq in Hid. now split.
Qed.

Lemma user_by_name_logged_in (d : db) (name : string) (u : User.t) :
  user_by_name d name = Some u -> logged_in d u.
Proof. intros E. now apply fetchone_some in E. Qed.

Lemma exists_either_block (d : db) (a b : nat) :
  exists_row (either_block a b) (blocks d)
  = exists_row (is_block a b) (blocks d)
    || exists_row (is_block b a) (blocks d).
Proof.
  unfold exists_row, either_block.
  induction (rows (blocks d)) as [|k l IH]; simpl; auto.
  rewrite IH.
  destruct (is_block a b k), (is_block b a k),
    (existsb (is_block a b) l), (existsb (is_block b a) l); reflexivity.
Qed.




Lemma pinned_then_newest_sorted (l : list Post.t) :
  StronglySorted pinned_first_then_newer (order_by pinned_then_newest l).
Proof.
  apply order_by_sorted; unfold pinned_then_newest, pinned_first_then_newer.
  - intros x y. destruct (Post.is_pinned x), (Post.is_pinned y); simpl;
      intros E; try discriminate; auto; right; split; auto;
      now apply Nat.leb_le in E.
  - intros x y. destruct (Post.is_pinned x), (Post.is_pinned y); simpl;
      intros E; try discriminate; auto; right; split; auto;
      apply Nat.leb_gt in E; lia.
  - intros x y z.
    destruct (Post.is_pinned x), (Post.is_pinned y), (Post.is_pinned z);
      intros [[? ?]|[? ?]] [[? ?]|[? ?]]; try discriminate; auto;
      right; split; auto; lia.
Qed.

(** ** C2 *)



Lemma demo_posts_have_authors : posts_have_authors Demo.state.
Proof. intros p [<-|[<-|[<-|[]]]]; reflexivity. Qed.

Lemma demo_blocks_sever_follows : blocks_sever_follows Demo.state.
Proof.
  intros k [<-|[]]. split; [simpl; lia | reflexivity].
Qed.


(** ** C7 *)

(** C7, as it stands, fails: Alice's profile lists her post 3, which is a
    reply to post 1. *)
Lemma profile_lists_replies_counterexample :
  exists pg,
    profile Demo.state (Some Demo.bob) "alice" = Some pg
    /\ In Demo.p3 (shown (page_posts pg))
    /\ Post.parent_id Demo.p3 = Some 1
    /\ profile_candidate (User.id (profile_user pg)) Demo.p3 = false.
Proof.
  eexists. split; [reflexivity|].
  split; [simpl; auto|]. split; reflexivity.
Qed.

Lemma profile_filter_is_own_live (d : db) (subject : User.t) (p : Post.t) :
  logged_in d subject ->
  has_author d p && (Post.user_id p =? User.id subject)
    && negb (Post.is_deleted p)
  = own_live (User.id subject) p.
Proof.
  intros Hs. unfold own_live, has_author.
  destruct (Post.user_id p =? User.id subject) eqn:E.
  - apply Nat.eqb_eq in E. rewrite E, (logged_in_exists d subject Hs). reflexivity.
  - now rewrite andb_false_r.
Qed.

Lemma profile_some (d : db) (g : option User.t) (name : string)
    (pg : profile_page) :
  profile d g name = Some pg ->
  user_by_name d name = Some (profile_user pg)
  /\ page_posts pg
     = map (enrich_post d g)
           (limit_offset 50 0 (profile_rows d (User.id (profile_user pg)))).
Proof.
  unfold profile. destruct (user_by_name d name) as [u|]; [|discriminate].
  intros E. injection E as <-. simpl. auto.
Qed.

(** C7 (amended): the profile timeline shows the first 50 rows of a listing
    that holds, each once, exactly the subject's own non-deleted posts,
    replies as well as reposts and quotes, ordered pinned-first and then by
    creation time descending. *)
Theorem profile_timeline_contents
    (d : db) (g_user : option User.t) (username : string)
    (pg : profile_page) :
  profile d g_user username = Some pg ->
  shown (page_posts pg)
  = limit_offset 50 0 (profile_rows d (User.id (profile_user pg)))
  /\ Permutation (profile_rows d (User.id (profile_user pg)))
                 (filter (own_live (User.id (profile_user pg)))
                         (rows (posts d)))
  /\ StronglySorted pinned_first_then_newer
                    (profile_rows d (User.id (profile_user pg))).
Proof.
  intros E. apply profile_some in E as [Eu Ep].
  apply user_by_name_logged_in in Eu.
  split; [|split].
  - rewrite Ep. apply shown_enrich.
  - unfold profile_rows.
    rewrite (filter_ext _ (own_live (User.id (profile_user pg)))).
    + apply order_by_perm.
    + intros p. now apply profile_filter_is_own_live.
  - apply pinned_then_newest_sorted.
Qed.

Lemma profile_timeline_contents_witness :
  exists pg,
    profile Demo.state (Some Demo.bob) "Alice" = Some pg
    /\ shown (page_posts pg)
       = limit_offset 50 0
           (profile_rows Demo.state (User.id (profile_user pg)))
    /\ Permutation (profile_rows Demo.state (User.id (profile_user pg)))
                   (filter (own_live (User.id (profile_user pg)))
                           (rows (posts Demo.state)))
    /\ StronglySorted pinned_first_then_newer
                      (profile_rows Demo.state (User.id (profile_user pg))).
Proof.
  eexists. split; [reflexivity|].
  exact (profile_timeline_contents Demo.state (Some Demo.bob) "Alice"
           _ eq_refl).
Defined.

(** ** C6 *)

(** C6, as it stands, fails: Carol blocks Alice, and Carol's view of
    Alice's profile still lists Alice's post 1. *)
Lemma blocker_sees_profile_counterexample :
  exists_row (is_block (User.id Demo.carol) (User.id Demo.alice))
             (blocks Demo.state) = true
  /\ Post.user_id Demo.p1 = User.id Demo.alice
  /\ exists pg,
       profile Demo.state (Some Demo.carol) "alice" = Some pg
       /\ In Demo.p1 (shown (page_posts pg)).
Proof.
  split; [reflexivity|]. split; [reflexivity|].
  eexists. split; [reflexivity|]. simpl; auto.
Qed.

Lemma in_feed_rows (d : db) (viewer : nat) (p : Post.t) :
  In p (feed_rows d viewer)
  <-> In p (rows (posts d)) /\ has_author d p = true
      /\ in_feed d viewer p = true.
Proof.
  unfold feed_rows. rewrite order_by_In, filter_In, andb_true_iff. tauto.
Qed.

(** C6 (amended): when A wrote the live post P1, B follows A without muting
    or blocking A, and C blocks A, then P1 is on some page of B's home
    timeline and on no page of C's home timeline; C's view of A's profile
    does not consult the block: it shows the first 50 rows of A's profile
    listing, and P1 is a row of that listing. *)
Theorem block_visibility
    (d : db) (a b c : User.t) (name : string) (p1 : Post.t) :
  In p1 (rows (posts d)) ->
  Post.user_id p1 = User.id a ->
  Post.is_deleted p1 = false ->
  user_by_name d name = Some a ->
  exists_row (is_follow (User.id b) (User.id a)) (follows d) = true ->
  exists_row (is_mute (User.id b) (User.id a)) (mutes d) = false ->
  exists_row (is_block (User.id b) (User.id a)) (blocks d) = false ->
  exists_row (is_block (User.id c) (User.id a)) (blocks d) = true ->
  (forall per_page, (0 < per_page)%Z ->
     exists page, (1 <= page)%Z
       /\ In p1 (shown (get_feed_posts d b page per_page)))
  /\ (forall page per_page,
        ~ In p1 (shown (get_feed_posts d c page per_page)))
  /\ exists pg,
       profile d (Some c) name = Some pg
       /\ profile_user pg = a
       /\ shown (page_posts pg)
          = limit_offset 50 0 (profile_rows d (User.id a))
       /\ In p1 (profile_rows d (User.id a)).
Proof.
  intros Hp Ha Hlive Hname Hfol Hmute Hblk Hcblk.
  pose proof (user_by_name_logged_in _ _ _ Hname) as Hin.
  assert (Hauth : has_author d p1 = true).
  { unfold has_author. rewrite Ha. now apply logged_in_exists. }
  split; [|split].
  - intros per_page Hpp.
    assert (Hfeed : In p1 (feed_rows d (User.id b))).
    { apply in_feed_rows. repeat split; auto.
      unfold in_feed. rewrite Ha, Hlive, Hmute, Hblk, Hfol.
      simpl. apply orb_true_r. }
    destruct (on_some_page per_page _ _ Hpp Hfeed) as [page [H1 H2]].
    exists page. split; auto.
    unfold get_feed_posts. now rewrite shown_enrich.
  - intros page per_page Hc.
    unfold get_feed_posts in Hc. rewrite shown_enrich in Hc.
    apply limit_offset_incl, in_feed_rows in Hc as [_ [_ Hc]].
    unfold in_feed in Hc. rewrite Ha, Hcblk in Hc. simpl in Hc.
    rewrite andb_false_r in Hc. discriminate.
  - unfold profile. rewrite Hname. eexists. split; [reflexivity|].
    simpl. split; [reflexivity|]. split; [apply shown_enrich|].
    unfold profile_rows. rewrite order_by_In, filter_In. split; auto.
    rewrite Hauth, Ha, Nat.eqb_refl, Hlive. reflexivity.
Qed.

Lemma block_visibility_witness :
  (forall per_page, (0 < per_page)%Z ->
     exists page, (1 <= page)%Z
       /\ In Demo.p1 (shown (get_feed_posts Demo.state Demo.bob page
                                            per_page)))
  /\ (forall page per_page,
        ~ In Demo.p1 (shown (get_feed_posts Demo.state Demo.carol page
                                            per_page)))
  /\ exists pg,
       profile Demo.state (Some Demo.carol) "alice" = Some pg
       /\ profile_user pg = Demo.alice
       /\ shown (page_posts pg)
          = limit_offset 50 0 (profile_rows Demo.state (User.id Demo.alice))
       /\ In Demo.p1 (profile_rows Demo.state (User.id Demo.alice)).
Proof.
  apply (block_visibility Demo.state Demo.alice Demo.bob Demo.carol
           "alice" Demo.p1);
    solve [reflexivity | simpl; auto].
Defined.

(* ===================================================================== *)
(** * Blocks and follows *)
(* ===================================================================== *)

Lemma exists_row_delete_weaker {A} (c c' : A -> bool) (t : table A) :
  (forall x, c x = true -> c' x = true) ->
  exists_row c (delete c' t) = false.
Proof.
  intros W. apply exists_row_none. unfold delete; simpl.
  intros x Hx. apply filter_In in Hx as [_ Hx].
  destruct (c x) eqn:E; auto. rewrite (W x E) in Hx. discriminate.
Qed.

Lemma is_block_refl (i a b : nat) : is_block a b (Block.mk i a b) = true.
Proof. unfold is_block; simpl. now rewrite !Nat.eqb_refl. Qed.

(** Whoever is on either side of a block row is refused when following the
    other side; nothing is written. *)
Lemma follow_refused (d : db) (me : User.t) (user_id : nat) :
  User.id me <> user_id ->
  user_exists d user_id = true ->
  exists_row (either_block (User.id me) user_id) (blocks d) = true ->
  follow d (Some me) user_id = (d, refused).
Proof.
  intros Hne Hex Hb. unfold follow.
  apply Nat.eqb_neq in Hne. rewrite Hne.
  unfold user_exists in Hex. rewrite fetchone_exists in Hex.
  destruct (fetchone (fun u => User.id u =? user_id) (users d));
    [|discriminate].
  now rewrite Hb.
Qed.

Lemma block_user_inserts (d : db) (a : User.t) (b : nat) :
  User.id a <> b ->
  user_exists d (User.id a) = true -> user_exists d b = true ->
  exists_row (is_block (User.id a) b) (blocks d) = false ->
  block_user d (Some a) b
  = (Db (users d) (posts d) (likes d)
        (delete (either_follow (User.id a) b) (follows d))
        (insert (fun i => Block.mk i (User.id a) b) (blocks d))
        (mutes d) (notifications d) (community_notes d)
        (community_note_ratings d),
     redirect None).
Proof.
  intros Hne Ha Hb Hnone. unfold block_user.
  apply Nat.eqb_neq in Hne. rewrite Hne, Hnone.
  unfold commit, and_then, insert_block. rewrite Ha, Hb, Hnone. reflexivity.
Qed.

(** C3: when A, who has not blocked B yet, blocks B, the block row is
    written and no follow edge is left between A and B in either direction;
    after that a follow attempt of A towards B and one of B towards A are
    both refused and leave the database as it is. *)
Theorem block_implies_no_follow (d : db) (a b : User.t) :
  logged_in d a -> logged_in d b -> User.id a <> User.id b ->
  exists_row (is_block (User.id a) (User.id b)) (blocks d) = false ->
  exists d',
    block_user d (Some a) (User.id b) = (d', redirect None)
    /\ exists_row (is_block (User.id a) (User.id b)) (blocks d') = true
    /\ exists_row (is_follow (User.id a) (User.id b)) (follows d') = false
    /\ exists_row (is_follow (User.id b) (User.id a)) (follows d') = false
    /\ follow d' (Some a) (User.id b) = (d', refused)
    /\ follow d' (Some b) (User.id a) = (d', refused).
Proof.
  intros Ha Hb Hne Hnone.
  pose proof (logged_in_exists d a Ha) as Ea.
  pose proof (logged_in_exists d b Hb) as Eb.
  eexists. split; [now apply block_user_inserts|].
  assert (Hblk : exists_row (is_block (User.id a) (User.id b))
                   (insert (fun i => Block.mk i (User.id a) (User.id b))
                           (blocks d)) = true).
  { rewrite exists_row_insert, is_block_refl. apply orb_true_r. }
  split; [exact Hblk|].
  split; [|split; [|split]].
  - simpl. apply exists_row_delete_weaker. intros f E.
    unfold either_follow. now rewrite E.
  - simpl. apply exists_row_delete_weaker. intros f E.
    unfold either_follow. rewrite E. apply orb_true_r.
  - apply follow_refused; auto.
    rewrite exists_either_block. cbn [blocks]. now rewrite Hblk.
  - apply follow_refused; auto.
    rewrite exists_either_block. cbn [blocks]. rewrite Hblk.
    apply orb_true_r.
Qed.

Lemma block_implies_no_follow_witness :
  exists d',
    block_user Demo.state (Some Demo.alice) (User.id Demo.bob)
    = (d', redirect None)
    /\ exists_row (is_block (User.id Demo.alice) (User.id Demo.bob))
                  (blocks d') = true
    /\ exists_row (is_follow (User.id Demo.alice) (User.id Demo.bob))
                  (follows d') = false
    /\ exists_row (is_follow (User.id Demo.bob) (User.id Demo.alice))
                  (follows d') = false
    /\ follow d' (Some Demo.alice) (User.id Demo.bob) = (d', refused)
    /\ follow d' (Some Demo.bob) (User.id Demo.alice) = (d', refused).
Proof.
  apply (block_implies_no_follow Demo.state Demo.alice Demo.bob).
  - unfold logged_in; simpl; auto.
  - unfold logged_in; simpl; auto.
  - simpl; lia.
  - reflexivity.
Defined.

(* ===================================================================== *)
(** * Likes *)
(* ===================================================================== *)

Lemma fetchone_absent {A} (c : A -> bool) (t : table A) :
  exists_row c t = false -> fetchone c t = None.
Proof.
  rewrite fetchone_exists. destruct (fetchone c t); [discriminate | auto].
Qed.

Lemma live_post_exists (d : db) (pid : nat) (p : Post.t) :
  fetchone (live_post pid) (posts d) = Some p -> post_exists d pid = true.
Proof.
  intros E. apply fetchone_some in E as [Hin Hc].
  apply andb_true_iff in Hc as [Hid _].
  apply exists_row_In. eauto.
Qed.

Lemma live_post_id (d : db) (pid : nat) (p : Post.t) :
  fetchone (live_post pid) (posts d) = Some p ->
  In p (rows (posts d)) /\ Post.id p = pid /\ Post.is_deleted p = false.
Proof.
  intros E. apply fetchone_some in E as [Hin Hc].
  apply andb_true_iff in Hc as [Hid Hl]. apply Nat.eqb_eq in Hid.
  apply negb_true_iff in Hl. auto.
Qed.

Lemma is_like_refl (i u p : nat) : is_like u p (Like.mk i u p) = true.
Proof. unfold is_like; simpl. now rewrite !Nat.eqb_refl. Qed.

Lemma insert_like_ok (d : db) (u p : nat) :
  user_exists d u = true -> post_exists d p = true ->
  exists_row (is_like u p) (likes d) = false ->
  insert_like u p d
  = Some (with_likes d (insert (fun i => Like.mk i u p) (likes d))).
Proof. intros Hu Hp Hn. unfold insert_like. now rewrite Hu, Hp, Hn. Qed.

Lemma insert_notification_ok (d : db) (u : nat) (actor : option nat)
    (k : Notification.kind) (p : option nat) :
  user_exists d u = true ->
  ref_ok (user_exists d) actor = true ->
  ref_ok (post_exists d) p = true ->
  insert_notification u actor k p d
  = Some (with_notifications d
            (insert (fun i => Notification.mk i u actor k p)
                    (notifications d))).
Proof.
  intros Hu Ha Hp. unfold insert_notification. now rewrite Hu, Ha, Hp.
Qed.

(** The likes table after one call of the toggle; users and posts stay. *)
Lemma like_post_likes (d : db) (me : User.t) (pid : nat) (j : bool)
    (p : Post.t) :
  logged_in d me ->
  fetchone (live_post pid) (posts d) = Some p ->
  has_author d p = true ->
  let d' := fst (like_post d (Some me) pid j) in
  likes d'
  = (if exists_row (is_like (User.id me) pid) (likes d)
     then delete (is_like (User.id me) pid) (likes d)
     else insert (fun i => Like.mk i (User.id me) pid) (likes d))
  /\ users d' = users d /\ posts d' = posts d
  /\ snd (like_post d (Some me) pid j)
     = (if j
        then json_like (negb (exists_row (is_like (User.id me) pid)
                                         (likes d)))
                       (like_count d' pid)
        else redirect None).
Proof.
  intros Hme Hp Hau.
  pose proof (logged_in_exists d me Hme) as Eme.
  pose proof (live_post_exists d pid p Hp) as Epost.
  unfold like_post. rewrite Hp, (fetchone_exists (is_like _ _)).
  destruct (fetchone (is_like (User.id me) pid) (likes d)) eqn:E.
  - simpl. destruct j; auto.
  - apply fetchone_none in E.
    unfold commit, and_then. rewrite (insert_like_ok d _ _ Eme Epost E).
    destruct (Post.user_id p =? User.id me); unfold when; cbn [negb].
    + simpl. destruct j; auto.
    + rewrite insert_notification_ok by assumption.
      simpl. destruct j; auto.
Qed.

Section CountFacts.
Context {A : Type}.

Lemma count_split (c c' : A -> bool) (t : table A) :
  (forall x, c' x = true -> c x = true) ->
  count c t = count c (delete c' t) + count c' t.
Proof.
  intros W. unfold count, delete; simpl.
  induction (rows t) as [|x l IH]; simpl; auto.
  destruct (c' x) eqn:E'; simpl.
  - rewrite (W x E'). simpl. lia.
  - destruct (c x); simpl; lia.
Qed.

Lemma count_positive (c : A -> bool) (t : table A) :
  exists_row c t = true -> 1 <= count c t.
Proof.
  unfold exists_row, count.
  induction (rows t) as [|x l IH]; simpl; [discriminate|].
  destruct (c x); simpl; [lia | auto].
Qed.

Lemma delete_nothing (c : A -> bool) (t : table A) :
  exists_row c t = false -> delete c t = t.
Proof.
  intros E. destruct t as [l s]. unfold delete; simpl. f_equal.
  pose proof (proj1 (exists_row_none c (Table l s)) E) as F. simpl in F.
  induction l as [|x l IH]; simpl; auto.
  rewrite (F x (or_introl eq_refl)). simpl. f_equal.
  apply IH.
  - unfold exists_row in *. simpl in *. now apply orb_false_iff in E.
  - intros y Hy. apply F. now right.
Qed.

End CountFacts.

Lemma like_pair_counts (u p : nat) (l : Like.t) :
  is_like u p l = true -> (Like.post_id l =? p) = true.
Proof. unfold is_like. intros E. now apply andb_true_iff in E. Qed.

(** C4: for a user and a live post, two like-toggles in a row bring the
    user's liked flag for the post back to what it was, and the number of
    likes of the post is what it was before the two calls. *)
Theorem like_toggle_twice (d : db) (me : User.t) (pid : nat)
    (j1 j2 : bool) (p : Post.t) :
  logged_in d me ->
  fetchone (live_post pid) (posts d) = Some p ->
  has_author d p = true ->
  count (is_like (User.id me) pid) (likes d) <= 1 ->
  let d1 := fst (like_post d (Some me) pid j1) in
  let d2 := fst (like_post d1 (Some me) pid j2) in
  exists_row (is_like (User.id me) pid) (likes d1)
  = negb (exists_row (is_like (User.id me) pid) (likes d))
  /\ exists_row (is_like (User.id me) pid) (likes d2)
     = exists_row (is_like (User.id me) pid) (likes d)
  /\ like_count d2 pid = like_count d pid.
Proof.
  intros Hme Hp Hau Huniq d1 d2.
  destruct (like_post_likes d me pid j1 p Hme Hp Hau) as [L1 [U1 [P1 _]]].
  fold d1 in L1, U1, P1.
  assert (Hme1 : logged_in d1 me) by (unfold logged_in; now rewrite U1).
  assert (Hp1 : fetchone (live_post pid) (posts d1) = Some p)
    by now rewrite P1.
  assert (Hau1 : has_author d1 p = true)
    by (unfold has_author, user_exists in *; now rewrite U1).
  destruct (like_post_likes d1 me pid j2 p Hme1 Hp1 Hau1) as [L2 _].
  fold d2 in L2. unfold like_count. rewrite L2, L1.
  destruct (exists_row (is_like (User.id me) pid) (likes d)) eqn:E.
  - rewrite exists_row_delete_same.
    rewrite exists_row_insert, is_like_refl, orb_true_r.
    split; [reflexivity|]. split; [reflexivity|].
    rewrite count_insert. simpl. rewrite Nat.eqb_refl.
    rewrite (count_split (fun l => Like.post_id l =? pid)
               (is_like (User.id me) pid) (likes d))
      by apply like_pair_counts.
    pose proof (count_positive _ _ E). lia.
  - rewrite exists_row_insert, is_like_refl, orb_true_r.
    rewrite exists_row_delete_same.
    split; [reflexivity|]. split; [reflexivity|].
    pose proof (count_split (fun l => Like.post_id l =? pid)
                  (is_like (User.id me) pid)
                  (insert (fun i => Like.mk i (User.id me) pid) (likes d))
                  (like_pair_counts _ _)) as S.
    rewrite !count_insert, is_like_refl in S. simpl in S.
    rewrite Nat.eqb_refl in S.
    rewrite (exists_row_false_count _ _ E) in S. lia.
Qed.

Lemma like_toggle_twice_witness :
  let d1 := fst (like_post Demo.state (Some Demo.bob) 1 true) in
  let d2 := fst (like_post d1 (Some Demo.bob) 1 true) in
  exists_row (is_like (User.id Demo.bob) 1) (likes d1)
  = negb (exists_row (is_like (User.id Demo.bob) 1) (likes Demo.state))
  /\ exists_row (is_like (User.id Demo.bob) 1) (likes d2)
     = exists_row (is_like (User.id Demo.bob) 1) (likes Demo.state)
  /\ like_count d2 1 = like_count Demo.state 1.
Proof.
  apply (like_toggle_twice Demo.state Demo.bob 1 true true Demo.p1).
  - unfold logged_in; simpl; auto.
  - reflexivity.
  - reflexivity.
  - unfold count; simpl; lia.
Defined.

(* ===================================================================== *)
(** * Community notes: ratings, counts and approval *)
(* ===================================================================== *)

Lemma update_update {A} (c : A -> bool) (f g : A -> A) (t : table A) :
  (forall x, c (f x) = c x) ->
  update c g (update c f t) = update c (fun x => g (f x)) t.
Proof.
  intros K. unfold update; simpl. f_equal. rewrite map_map.
  apply map_ext. intros x.
  destruct (c x) eqn:E; [now rewrite K, E | now rewrite E].
Qed.

Lemma note_exists_of_fetch (d : db) (nid : nat) (c : Note.t) :
  fetchone (fun c => Note.id c =? nid) (community_notes d) = Some c ->
  note_exists d nid = true.
Proof. intros E. unfold note_exists. now rewrite fetchone_exists, E. Qed.

Lemma recount_eq (d : db) (nid : nat) :
  recount nid d
  = Some (with_community_notes d
            (notes_after (community_note_ratings d) nid
                         (community_notes d))).
Proof.
  unfold recount, and_then, update_notes, when, helpful_of, not_helpful_of,
    notes_after, note_after.
  destruct (3 <=? count (rated nid Rating.helpful)
                        (community_note_ratings d)).
  - unfold with_community_notes. cbn [community_notes users posts likes
      follows blocks mutes notifications community_note_ratings].
    now rewrite update_update by reflexivity.
  - reflexivity.
Qed.

(** A logged-in user's valid rating of an existing note is committed. *)
Lemma rate_community_note_ok (d : db) (me : User.t) (nid : nat)
    (s : string) (v : Rating.value) (note : Note.t) :
  logged_in d me ->
  fetchone (fun c => Note.id c =? nid) (community_notes d) = Some note ->
  parse_rating s = Some v ->
  rate_community_note d (Some me) nid s
  = (Db (users d) (posts d) (likes d) (follows d) (blocks d) (mutes d)
        (notifications d)
        (notes_after (ratings_after d (User.id me) nid v) nid
                     (community_notes d))
        (ratings_after d (User.id me) nid v),
     redirect None).
Proof.
  intros Hme Hnote Hparse.
  pose proof (logged_in_exists d me Hme) as Eme.
  pose proof (note_exists_of_fetch d nid note Hnote) as Enote.
  unfold rate_community_note. rewrite Hnote, Hparse.
  unfold commit, and_then, ratings_after.
  destruct (fetchone (is_rating nid (User.id me))
                     (community_note_ratings d)) as [e|] eqn:E.
  - destruct (Rating.eqb (Rating.rating e) v); unfold when; cbn [negb].
    + unfold skip. rewrite recount_eq. destruct d; reflexivity.
    + unfold update_ratings. rewrite recount_eq. reflexivity.
  - apply fetchone_none in E. unfold insert_rating.
    rewrite Enote, Eme, E. cbn [andb negb].
    rewrite recount_eq. reflexivity.
Qed.

Lemma fetch_note_after (rs : table Rating.t) (nid : nat)
    (t : table Note.t) (c : Note.t) :
  fetchone (fun c => Note.id c =? nid) t = Some c ->
  fetchone (fun c => Note.id c =? nid) (notes_after rs nid t)
  = Some (note_after rs nid c).
Proof.
  intros E. unfold notes_after. rewrite fetchone_update.
  - rewrite E. simpl. apply fetchone_some in E as [_ E]. now rewrite E.
  - intros x. unfold note_after.
    destruct (3 <=? count (rated nid Rating.helpful) rs); reflexivity.
Qed.

Lemma rated_split (nid : nat) (rs : table Rating.t) :
  count (rated nid Rating.helpful) rs
  + count (rated nid Rating.not_helpful) rs
  = count (fun r => Rating.note_id r =? nid) rs.
Proof.
  unfold count, rated.
  induction (rows rs) as [|r l IH]; simpl; auto.
  destruct (Rating.note_id r =? nid); simpl; auto.
  destruct (Rating.rating r); simpl; lia.
Qed.

Lemma users_of_note_NoDup (c : Rating.t -> bool) (nid : nat)
    (l : list Rating.t) :
  (forall r, c r = true -> Rating.note_id r = nid) ->
  NoDup (map rating_pair l) ->
  NoDup (map Rating.user_id (filter c l)).
Proof.
  intros K. induction l as [|a l IH]; simpl; intros N; [constructor|].
  apply NoDup_cons_iff in N as [Na Nl].
  destruct (c a) eqn:E; simpl; auto.
  constructor; auto.
  intros Hin. apply in_map_iff in Hin as [r [Eu Hr]].
  apply filter_In in Hr as [Hr Cr]. apply Na.
  apply in_map_iff. exists r. split; auto.
  unfold rating_pair. now rewrite Eu, (K r Cr), (K a E).
Qed.

(** Under UNIQUE(note_id, user_id) a count of rating rows of a note is a
    count of distinct users. *)
Lemma count_is_distinct_users (c : Rating.t -> bool) (nid : nat)
    (rs : table Rating.t) :
  (forall r, c r = true -> Rating.note_id r = nid) ->
  NoDup (map rating_pair (rows rs)) ->
  List.length (nodup Nat.eq_dec (map Rating.user_id (select c rs)))
  = count c rs.
Proof.
  intros K N. unfold select, count.
  rewrite nodup_fixed_point by (eapply users_of_note_NoDup; eauto).
  apply length_map.
Qed.


(** The upsert keeps UNIQUE(note_id, user_id). *)
Lemma ratings_after_unique (d : db) (me nid : nat) (v : Rating.value) :
  ratings_unique d ->
  NoDup (map rating_pair (rows (ratings_after d me nid v))).
Proof.
  unfold ratings_unique, ratings_after. fold rating_pair. intros N.
  destruct (fetchone (is_rating nid me) (community_note_ratings d))
    as [e|] eqn:E.
  - destruct (Rating.eqb (Rating.rating e) v); auto.
    unfold update; simpl. rewrite map_map.
    erewrite map_ext; [exact N|].
    intros r. destruct (Rating.id r =? Rating.id e); reflexivity.
  - apply fetchone_none in E. unfold insert; simpl.
    rewrite map_app; simpl.
    apply NoDup_app; [auto | repeat constructor; simpl; tauto|].
    intros p Hp [<-|[]].
    apply in_map_iff in Hp as [r [Er Hr]].
    pose proof (proj1 (exists_row_none _ _) E r Hr) as F.
    unfold is_rating in F. unfold rating_pair in Er. simpl in Er.
    injection Er as E1 E2. rewrite E1, E2, !Nat.eqb_refl in F.
    discriminate.
Qed.

Lemma rating_eqb_eq (a b : Rating.value) : Rating.eqb a b = true <-> a = b.
Proof. destruct a, b; simpl; split; congruence. Qed.

Lemma fetchone_insert_new {A} `{Keyed A} (c : A -> bool) (mk : nat -> A)
    (t : table A) :
  exists_row c t = false -> c (mk (next_rowid t)) = true ->
  fetchone c (insert mk t) = Some (mk (next_rowid t)).
Proof.
  intros E Hc. unfold fetchone, insert; simpl.
  pose proof (proj1 (exists_row_none c t) E) as F.
  induction (rows t) as [|x l IH]; simpl.
  - now rewrite Hc.
  - rewrite (F x (or_introl eq_refl)). apply IH.
    intros y Hy. apply F. now right.
Qed.

Lemma is_rating_refl (i n u : nat) (v : Rating.value) :
  is_rating n u (Rating.mk i n u v) = true.
Proof. unfold is_rating; simpl. now rewrite !Nat.eqb_refl. Qed.

(** After the upsert the user holds exactly the submitted value. *)
Lemma ratings_after_holds (d : db) (me nid : nat) (v : Rating.value) :
  exists e,
    fetchone (is_rating nid me) (ratings_after d me nid v) = Some e
    /\ Rating.rating e = v.
Proof.
  unfold ratings_after.
  destruct (fetchone (is_rating nid me) (community_note_ratings d))
    as [e|] eqn:E.
  - destruct (Rating.eqb (Rating.rating e) v) eqn:Ev.
    + exists e. split; auto. now apply rating_eqb_eq.
    + exists (Rating.set_rating v e). split; auto.
      rewrite fetchone_update by reflexivity.
      rewrite E. simpl. now rewrite Nat.eqb_refl.
  - apply fetchone_none in E. eexists. split.
    + apply fetchone_insert_new; auto. apply is_rating_refl.
    + reflexivity.
Qed.

Lemma note_after_counts (rs : table Rating.t) (nid : nat) (c : Note.t) :
  Note.helpful_count (note_after rs nid c)
  = count (rated nid Rating.helpful) rs
  /\ Note.not_helpful_count (note_after rs nid c)
     = count (rated nid Rating.not_helpful) rs
  /\ Note.status (note_after rs nid c)
     = (if 3 <=? count (rated nid Rating.helpful) rs
        then Note.approved else Note.status c).
Proof.
  unfold note_after.
  destruct (3 <=? count (rated nid Rating.helpful) rs); simpl; auto.
Qed.

(** ** C1 *)


Lemma demo_ratings_unique : ratings_unique Demo.state.
Proof. constructor. Qed.


(** ** C9 *)

(** C9: after a committed rate-note operation the note's helpful and
    not-helpful counts add up to the number of distinct users that hold a
    rating of the note; every user still holds at most one rating per note,
    and the caller holds the submitted value: submitting the value already
    held leaves the ratings table as it was, submitting the other value
    overwrites the held row, and a first rating adds one row. *)
Theorem rating_count_consistency (d : db) (me : User.t) (nid : nat)
    (s : string) (v : Rating.value) (note : Note.t) :
  logged_in d me -> ratings_unique d ->
  fetchone (fun c => Note.id c =? nid) (community_notes d) = Some note ->
  parse_rating s = Some v ->
  exists d' note',
    rate_community_note d (Some me) nid s = (d', redirect None)
    /\ fetchone (fun c => Note.id c =? nid) (community_notes d')
       = Some note'
    /\ Note.helpful_count note' + Note.not_helpful_count note'
       = List.length (raters d' nid)
    /\ ratings_unique d'
    /\ (exists e,
          fetchone (is_rating nid (User.id me)) (community_note_ratings d')
          = Some e /\ Rating.rating e = v)
    /\ (forall e,
          fetchone (is_rating nid (User.id me)) (community_note_ratings d)
          = Some e ->
          (Rating.rating e = v ->
           community_note_ratings d' = community_note_ratings d)
          /\ (Rating.rating e <> v ->
              fetchone (is_rating nid (User.id me))
                       (community_note_ratings d')
              = Some (Rating.set_rating v e)
              /\ List.length (rows (community_note_ratings d'))
                 = List.length (rows (community_note_ratings d))))
    /\ (fetchone (is_rating nid (User.id me)) (community_note_ratings d)
        = None ->
        List.length (rows (community_note_ratings d'))
        = S (List.length (rows (community_note_ratings d)))).
Proof.
  intros Hme Huniq Hnote Hparse.
  eexists. exists (note_after (ratings_after d (User.id me) nid v) nid note).
  split; [eapply rate_community_note_ok; eauto|].
  cbn [community_notes community_note_ratings].
  split; [now apply fetch_note_after|].
  destruct (note_after_counts (ratings_after d (User.id me) nid v) nid note)
    as [Hh [Hn _]].
  rewrite Hh, Hn, rated_split.
  pose proof (ratings_after_unique d (User.id me) nid v Huniq) as N.
  split.
  { unfold raters. cbn [community_note_ratings].
    rewrite count_is_distinct_users with (nid := nid); auto.
    intros r E. now apply Nat.eqb_eq. }
  split; [exact N|].
  split; [apply ratings_after_holds|].
  unfold ratings_after. split.
  - intros e E. rewrite E. split.
    + intros Ev. apply rating_eqb_eq in Ev. now rewrite Ev.
    + intros Ev.
      destruct (Rating.eqb (Rating.rating e) v) eqn:B;
        [apply rating_eqb_eq in B; contradiction|].
      split.
      * rewrite fetchone_update by reflexivity.
        rewrite E. simpl. now rewrite Nat.eqb_refl.
      * unfold update; simpl. apply length_map.
  - intros E. rewrite E. unfold insert; simpl.
    rewrite length_app. simpl. lia.
Qed.

Lemma rating_count_consistency_witness :
  exists d' note',
    rate_community_note Demo.state (Some Demo.carol) 1 "not_helpful"
    = (d', redirect None)
    /\ fetchone (fun c => Note.id c =? 1) (community_notes d') = Some note'
    /\ Note.helpful_count note' + Note.not_helpful_count note'
       = List.length (raters d' 1)
    /\ ratings_unique d'
    /\ (exists e,
          fetchone (is_rating 1 (User.id Demo.carol))
                   (community_note_ratings d')
          = Some e /\ Rating.rating e = Rating.not_helpful)
    /\ (forall e,
          fetchone (is_rating 1 (User.id Demo.carol))
                   (community_note_ratings Demo.state)
          = Some e ->
          (Rating.rating e = Rating.not_helpful ->
           community_note_ratings d' = community_note_ratings Demo.state)
          /\ (Rating.rating e <> Rating.not_helpful ->
              fetchone (is_rating 1 (User.id Demo.carol))
                       (community_note_ratings d')
              = Some (Rating.set_rating Rating.not_helpful e)
              /\ List.length (rows (community_note_ratings d'))
                 = List.length (rows (community_note_ratings Demo.state))))
    /\ (fetchone (is_rating 1 (User.id Demo.carol))
                 (community_note_ratings Demo.state)
        = None ->
        List.length (rows (community_note_ratings d'))
        = S (List.length (rows (community_note_ratings Demo.state)))).
Proof.
  apply (rating_count_consistency Demo.state Demo.carol 1 "not_helpful"
           Rating.not_helpful Demo.note1).
  - unfold logged_in; simpl; auto.
  - exact demo_ratings_unique.
  - reflexivity.
  - reflexivity.
Defined.

(** ** C10 *)

(** C10, as it stands, fails: Alice wrote note 1, and her own rating of
    it is committed: the response is the ordinary redirect, the rating row
    is written and the note's helpful count becomes 1. *)
Lemma own_note_rating_counterexample :
  Note.author_id Demo.note1 = User.id Demo.alice
  /\ fetchone (fun c => Note.id c =? 1) (community_notes Demo.state)
     = Some Demo.note1
  /\ snd (rate_community_note Demo.state (Some Demo.alice) 1 "helpful")
     = redirect None
  /\ rows (community_note_ratings
             (fst (rate_community_note Demo.state (Some Demo.alice) 1
                                       "helpful")))
     = [Rating.mk 1 1 1 Rating.helpful]
  /\ rows (community_notes
             (fst (rate_community_note Demo.state (Some Demo.alice) 1
                                       "helpful")))
     = [Note.mk 1 1 1 Note.proposed 1 0].
Proof. repeat split. Qed.

(** C10 (amended): a rate-note attempt by the author of the note is treated
    like anyone else's: with a valid rating it is committed, the author
    then holds the submitted rating, and the note's counts are the recount
    over the ratings table. *)
Theorem own_note_rating_accepted (d : db) (me : User.t) (nid : nat)
    (s : string) (v : Rating.value) (note : Note.t) :
  logged_in d me ->
  fetchone (fun c => Note.id c =? nid) (community_notes d) = Some note ->
  Note.author_id note = User.id me ->
  parse_rating s = Some v ->
  exists d' note',
    rate_community_note d (Some me) nid s = (d', redirect None)
    /\ (exists e,
          fetchone (is_rating nid (User.id me)) (community_note_ratings d')
          = Some e /\ Rating.rating e = v)
    /\ fetchone (fun c => Note.id c =? nid) (community_notes d')
       = Some note'
    /\ Note.helpful_count note' = helpful_of d' nid
    /\ Note.not_helpful_count note' = not_helpful_of d' nid.
Proof.
  intros Hme Hnote _ Hparse.
  eexists. exists (note_after (ratings_after d (User.id me) nid v) nid note).
  split; [eapply rate_community_note_ok; eauto|].
  unfold helpful_of, not_helpful_of.
  cbn [community_notes community_note_ratings].
  split; [apply ratings_after_holds|].
  split; [now apply fetch_note_after|].
  destruct (note_after_counts (ratings_after d (User.id me) nid v) nid note)
    as [Hh [Hn _]].
  now rewrite Hh, Hn.
Qed.

Lemma own_note_rating_accepted_witness :
  exists d' note',
    rate_community_note Demo.state (Some Demo.alice) 1 "helpful"
    = (d', redirect None)
    /\ (exists e,
          fetchone (is_rating 1 (User.id Demo.alice))
                   (community_note_ratings d')
          = Some e /\ Rating.rating e = Rating.helpful)
    /\ fetchone (fun c => Note.id c =? 1) (community_notes d') = Some note'
    /\ Note.helpful_count note' = helpful_of d' 1
    /\ Note.not_helpful_count note' = not_helpful_of d' 1.
Proof.
  apply (own_note_rating_accepted Demo.state Demo.alice 1 "helpful"
           Rating.helpful Demo.note1).
  - unfold logged_in; simpl; auto.
  - reflexivity.
  - reflexivity.
  - reflexivity.
Defined.

(* ===================================================================== *)
(** * Notifications for actions on one's own post *)
(* ===================================================================== *)

Lemma insert_post_ok (d : db) (u : nat) (content : string)
    (parent repost quote : option nat) (now : nat) :
  user_exists d u = true ->
  String.length content <= 500 ->
  ref_ok (post_exists d) parent = true ->
  ref_ok (post_exists d) repost = true ->
  ref_ok (post_exists d) quote = true ->
  insert_post u content parent repost quote now d
  = Some (with_posts d
            (insert (fun i => Post.mk i u content parent repost quote
                                      false false now)
                    (posts d))).
Proof.
  intros Hu Hl Hp Hr Hq. unfold insert_post.
  apply Nat.leb_le in Hl. now rewrite Hu, Hl, Hp, Hr, Hq.
Qed.

Lemma post_exists_inserted (d : db) (mk : nat -> Post.t) :
  (forall i, Post.id (mk i) = i) ->
  post_exists (with_posts d (insert mk (posts d))) (next_rowid (posts d))
  = true.
Proof.
  intros K. unfold post_exists. cbn [posts with_posts].
  rewrite exists_row_insert, K, Nat.eqb_refl. apply orb_true_r.
Qed.

(** The mention loop commits, and all it does is append mention
    notifications for other users. *)
Lemma notify_mentions_ok (me pid : nat) (ms : list string) :
  forall d,
    user_exists d me = true -> post_exists d pid = true ->
    exists t extra,
      notify_mentions me pid ms d = Some (with_notifications d t)
      /\ rows t = (rows (notifications d) ++ extra)%list
      /\ Forall (mention_for_other me) extra
      /\ (ms = [] -> t = notifications d).
Proof.
  induction ms as [|m rest IH]; intros d Hme Hpid.
  - exists (notifications d), []. simpl. unfold skip.
    rewrite app_nil_r. repeat split; auto. destruct d; reflexivity.
  - cbn [notify_mentions]. unfold and_then.
    assert (Skip : exists t extra,
               notify_mentions me pid rest d = Some (with_notifications d t)
               /\ rows t = (rows (notifications d) ++ extra)%list
               /\ Forall (mention_for_other me) extra
               /\ (m :: rest = [] -> t = notifications d)).
    { destruct (IH d Hme Hpid) as [t [extra [E [R [F _]]]]].
      exists t, extra. repeat split; auto. discriminate. }
    destruct (user_by_name d m) as [u|] eqn:Eu; [|exact Skip].
    destruct (User.id u =? me) eqn:Eid; [exact Skip|].
    unfold when; cbn [negb].
    rewrite insert_notification_ok; auto.
    + set (t1 := insert (fun i => Notification.mk i (User.id u) (Some me)
                                    Notification.mention (Some pid))
                        (notifications d)).
      destruct (IH (with_notifications d t1) Hme Hpid)
        as [t [extra [E [R [F _]]]]].
      exists t,
        (Notification.mk (next_rowid (notifications d)) (User.id u)
                         (Some me) Notification.mention (Some pid)
         :: extra).
      split; [exact E|]. split; [|split; [|discriminate]].
      * rewrite R. unfold t1, insert. cbn [notifications with_notifications
          rows]. now rewrite <- app_assoc.
      * constructor; auto. unfold mention_for_other; simpl.
        repeat split; auto. now apply Nat.eqb_neq.
    + apply logged_in_exists. eapply user_by_name_logged_in; eauto.
Qed.

Lemma self_like (d : db) (me : User.t) (pid : nat) (j : bool) (p : Post.t) :
  logged_in d me ->
  fetchone (live_post pid) (posts d) = Some p ->
  Post.user_id p = User.id me ->
  exists_row (is_like (User.id me) pid) (likes d) = false ->
  exists d',
    like_post d (Some me) pid j
    = (d', if j then json_like true (like_count d' pid) else redirect None)
    /\ notifications d' = notifications d
    /\ exists_row (is_like (User.id me) pid) (likes d') = true
    /\ like_count d' pid = S (like_count d pid).
Proof.
  intros Hme Hp Hown Hnot.
  pose proof (logged_in_exists d me Hme) as Eme.
  pose proof (live_post_exists d pid p Hp) as Epost.
  unfold like_post. rewrite Hp, (fetchone_absent _ _ Hnot).
  unfold commit, and_then. rewrite (insert_like_ok d _ _ Eme Epost Hnot).
  rewrite Hown, Nat.eqb_refl. unfold when, skip; cbn [negb].
  eexists. split; [reflexivity|]. cbn [notifications likes with_likes].
  split; [reflexivity|]. split.
  - rewrite exists_row_insert, is_like_refl. apply orb_true_r.
  - unfold like_count. cbn [likes with_likes].
    rewrite count_insert. simpl. rewrite Nat.eqb_refl. lia.
Qed.

Lemma self_repost (d : db) (me : User.t) (pid now : nat) (p : Post.t) :
  logged_in d me ->
  fetchone (live_post pid) (posts d) = Some p ->
  Post.user_id p = User.id me ->
  fetchone (is_repost_of (User.id me) pid) (posts d) = None ->
  exists d',
    repost d (Some me) pid now
    = (d', redirect (Some ("Rechirped!", "success")%string))
    /\ notifications d' = notifications d
    /\ In (Post.mk (next_rowid (posts d)) (User.id me) EmptyString None
                   (Some pid) None false false now)
          (rows (posts d'))
    /\ repost_count d' pid = S (repost_count d pid).
Proof.
  intros Hme Hp Hown Hnot.
  pose proof (logged_in_exists d me Hme) as Eme.
  pose proof (live_post_exists d pid p Hp) as Epost.
  unfold repost. rewrite Hp, Hnot.
  unfold commit, and_then.
  rewrite insert_post_ok; auto; [|simpl; lia].
  rewrite Hown, Nat.eqb_refl. unfold when, skip; cbn [negb].
  eexists. split; [reflexivity|]. cbn [notifications posts with_posts].
  split; [reflexivity|]. split.
  - unfold insert; simpl. apply in_or_app. right. now left.
  - unfold repost_count. cbn [posts with_posts].
    rewrite count_insert. simpl. rewrite Nat.eqb_refl. lia.
Qed.

Lemma self_reply (d : db) (me : User.t) (pid now : nat) (content : string)
    (p : Post.t) :
  logged_in d me ->
  fetchone (live_post pid) (posts d) = Some p ->
  Post.user_id p = User.id me ->
  1 <= String.length content <= 500 ->
  exists d' extra,
    reply d (Some me) pid content now
    = (d', redirect (Some ("Reply posted!", "success")%string))
    /\ rows (notifications d') = (rows (notifications d) ++ extra)%list
    /\ Forall (mention_for_other (User.id me)) extra
    /\ (extract_mentions content = [] -> notifications d' = notifications d)
    /\ In (Post.mk (next_rowid (posts d)) (User.id me) content (Some pid)
                   None None false false now)
          (rows (posts d'))
    /\ reply_count d' pid = S (reply_count d pid).
Proof.
  intros Hme Hp Hown [Hlo Hhi].
  pose proof (logged_in_exists d me Hme) as Eme.
  pose proof (live_post_exists d pid p Hp) as Epost.
  unfold reply. rewrite Hp.
  assert (E0 : (String.length content =? 0) = false)
    by (apply Nat.eqb_neq; lia).
  assert (E5 : (500 <? String.length content) = false)
    by (apply Nat.ltb_ge; lia).
  rewrite E0, E5. cbn [orb].
  rewrite Hown, Nat.eqb_refl. cbn [negb].
  unfold and_then. rewrite insert_post_ok; auto.
  unfold when, skip.
  set (mk := fun i => Post.mk i (User.id me) content (Some pid) None None
                              false false now).
  set (d1 := with_posts d (insert mk (posts d))).
  assert (Hseq : seq (posts d1) = next_rowid (posts d)) by reflexivity.
  rewrite Hseq.
  destruct (notify_mentions_ok (User.id me) (next_rowid (posts d))
              (extract_mentions content) d1 Eme
              (post_exists_inserted d mk (fun i => eq_refl)))
    as [t [extra [E [R [F Z]]]]].
  unfold commit. rewrite E.
  exists (with_notifications d1 t), extra.
  split; [reflexivity|]. cbn [notifications with_notifications].
  split; [exact R|]. split; [exact F|]. split; [exact Z|].
  cbn [posts with_notifications]. split.
  - unfold d1, insert; simpl. apply in_or_app. right. now left.
  - unfold reply_count. cbn [posts with_notifications]. unfold d1.
    cbn [posts with_posts]. rewrite count_insert. unfold mk; simpl.
    rewrite Nat.eqb_refl. simpl. lia.
Qed.

(** ** C5 *)

(** C5, as it stands, fails: Alice replies to her own post 1 with a text
    that mentions Bob, and one notification record is created. *)
Lemma self_reply_mention_counterexample :
  Post.user_id Demo.p1 = User.id Demo.alice
  /\ rows (notifications Demo.state) = []
  /\ rows (notifications
             (fst (reply Demo.state (Some Demo.alice) 1 "@bob hi" 20)))
     = [Notification.mk 1 2 (Some 1) Notification.mention (Some 4)].
Proof. repeat split. Qed.

(** C5 (amended): for a user acting on their own live post, a like (of a
    post not yet liked) and a repost (of a post not yet reposted) leave the
    notifications table as it was, and a reply creates no reply
    notification: the only records it adds are mention notifications for
    other users, none when the text names nobody.  The action itself is
    committed: the like row, the repost row or the reply row is written and
    the like, repost or reply count of the post goes up by one. *)
Theorem self_action_notifications (d : db) (me : User.t) (pid : nat)
    (p : Post.t) :
  logged_in d me ->
  fetchone (live_post pid) (posts d) = Some p ->
  Post.user_id p = User.id me ->
  (forall j,
     exists_row (is_like (User.id me) pid) (likes d) = false ->
     exists d',
       like_post d (Some me) pid j
       = (d', if j then json_like true (like_count d' pid)
              else redirect None)
       /\ notifications d' = notifications d
       /\ exists_row (is_like (User.id me) pid) (likes d') = true
       /\ like_count d' pid = S (like_count d pid))
  /\ (forall now,
        fetchone (is_repost_of (User.id me) pid) (posts d) = None ->
        exists d',
          repost d (Some me) pid now
          = (d', redirect (Some ("Rechirped!", "success")%string))
          /\ notifications d' = notifications d
          /\ In (Post.mk (next_rowid (posts d)) (User.id me) EmptyString
                         None (Some pid) None false false now)
                (rows (posts d'))
          /\ repost_count d' pid = S (repost_count d pid))
  /\ (forall content now,
        1 <= String.length content <= 500 ->
        exists d' extra,
          reply d (Some me) pid content now
          = (d', redirect (Some ("Reply posted!", "success")%string))
          /\ rows (notifications d')
             = (rows (notifications d) ++ extra)%list
          /\ Forall (mention_for_other (User.id me)) extra
          /\ (extract_mentions content = [] ->
              notifications d' = notifications d)
          /\ In (Post.mk (next_rowid (posts d)) (User.id me) content
                         (Some pid) None None false false now)
                (rows (posts d'))
          /\ reply_count d' pid = S (reply_count d pid)).
Proof.
  intros Hme Hp Hown. split; [|split].
  - intros j. now apply self_like with (p := p).
  - intros now. now apply self_repost with (p := p).
  - intros content now. now apply self_reply with (p := p).
Qed.

Lemma self_action_notifications_witness :
  (forall j,
     exists_row (is_like (User.id Demo.alice) 1) (likes Demo.state) = false ->
     exists d',
       like_post Demo.state (Some Demo.alice) 1 j
       = (d', if j then json_like true (like_count d' 1)
              else redirect None)
       /\ notifications d' = notifications Demo.state
       /\ exists_row (is_like (User.id Demo.alice) 1) (likes d') = true
       /\ like_count d' 1 = S (like_count Demo.state 1))
  /\ (forall now,
        fetchone (is_repost_of (User.id Demo.alice) 1) (posts Demo.state)
        = None ->
        exists d',
          repost Demo.state (Some Demo.alice) 1 now
          = (d', redirect (Some ("Rechirped!", "success")%string))
          /\ notifications d' = notifications Demo.state
          /\ In (Post.mk (next_rowid (posts Demo.state))
                         (User.id Demo.alice) EmptyString
                         None (Some 1) None false false now)
                (rows (posts d'))
          /\ repost_count d' 1 = S (repost_count Demo.state 1))
  /\ (forall content now,
        1 <= String.length content <= 500 ->
        exists d' extra,
          reply Demo.state (Some Demo.alice) 1 content now
          = (d', redirect (Some ("Reply posted!", "success")%string))
          /\ rows (notifications d')
             = (rows (notifications Demo.state) ++ extra)%list
          /\ Forall (mention_for_other (User.id Demo.alice)) extra
          /\ (extract_mentions content = [] ->
              notifications d' = notifications Demo.state)
          /\ In (Post.mk (next_rowid (posts Demo.state))
                         (User.id Demo.alice) content
                         (Some 1) None None false false now)
                (rows (posts d'))
          /\ reply_count d' 1 = S (reply_count Demo.state 1)).
Proof.
  apply (self_action_notifications Demo.state Demo.alice 1 Demo.p1).
  - unfold logged_in; simpl; auto.
  - reflexivity.
  - reflexivity.
Defined.

(* ===================================================================== *)
(** * Pinned posts *)
(* ===================================================================== *)

Section KeyFacts.
Context {A : Type} `{Keyed A}.

Lemma keyed_NoDup (l : list A) : StronglySorted lt (keys l) -> NoDup (keys l).
Proof.
  unfold keys. induction (map key l) as [|k ks IH]; intros S.
  - constructor.
  - apply StronglySorted_inv in S as [S F]. constructor; auto.
    intros Hin. rewrite Forall_forall in F. specialize (F k Hin). lia.
Qed.

Lemma keyed_unique (l : list A) (x y : A) :
  NoDup (keys l) -> In x l -> In y l -> key x = key y -> x = y.
Proof.
  unfold keys. induction l as [|a l IH]; simpl; [tauto|].
  intros N Hx Hy E. apply NoDup_cons_iff in N as [Na Nl].
  destruct Hx as [->|Hx], Hy as [->|Hy]; auto.
  - exfalso. apply Na. rewrite E. now apply in_map.
  - exfalso. apply Na. rewrite <- E. now apply in_map.
Qed.

Lemma count_le_impl (c c' : A -> bool) (t : table A) :
  (forall x, In x (rows t) -> c x = true -> c' x = true) ->
  count c t <= count c' t.
Proof.
  unfold count. induction (rows t) as [|x l IH]; simpl; intros W; auto.
  assert (IH' : List.length (filter c l) <= List.length (filter c' l))
    by (apply IH; intros y Hy; apply W; now right).
  destruct (c x) eqn:E.
  - rewrite (W x (or_introl eq_refl) E). simpl. lia.
  - destruct (c' x); simpl; lia.
Qed.

Lemma count_key_le_1 (t : table A) (k : nat) :
  NoDup (keys (rows t)) -> count (fun x => key x =? k) t <= 1.
Proof.
  unfold count, keys. induction (rows t) as [|x l IH]; simpl; intros N; auto.
  apply NoDup_cons_iff in N as [Nx Nl]. specialize (IH Nl).
  destruct (key x =? k) eqn:E; simpl; auto.
  apply Nat.eqb_eq in E.
  assert (Z : List.length (filter (fun x => key x =? k) l) = 0).
  { destruct (filter (fun x => key x =? k) l) as [|y l'] eqn:F; auto.
    exfalso. apply Nx.
    assert (Hy : In y (filter (fun x => key x =? k) l))
      by (rewrite F; now left).
    apply filter_In in Hy as [Hy Ky]. apply Nat.eqb_eq in Ky.
    rewrite E, <- Ky. now apply in_map. }
  lia.
Qed.

Lemma count_update_ext (c u : A -> bool) (f : A -> A) (t : table A) :
  (forall x, In x (rows t) -> c (if u x then f x else x) = c x) ->
  count c (update u f t) = count c t.
Proof.
  unfold count, update; simpl.
  induction (rows t) as [|x l IH]; simpl; intros K; auto.
  assert (IH' : List.length (filter c (map (fun r => if u r then f r else r)
                                           l))
                = List.length (filter c l))
    by (apply IH; intros y Hy; apply K; now right).
  rewrite (K x (or_introl eq_refl)).
  destruct (c x); simpl; now rewrite IH'.
Qed.

Lemma keys_update (u : A -> bool) (f : A -> A) (t : table A) :
  (forall x, key (f x) = key x) ->
  keys (rows (update u f t)) = keys (rows t).
Proof.
  intros K. unfold keys, update; simpl. rewrite map_map.
  apply map_ext. intros x. destruct (u x); auto.
Qed.

Lemma in_update (u : A -> bool) (f : A -> A) (t : table A) (y : A) :
  In y (rows (update u f t)) ->
  exists x, In x (rows t) /\ y = (if u x then f x else x).
Proof.
  unfold update; simpl. intros Hy. apply in_map_iff in Hy as [x [E Hx]].
  eauto.
Qed.

End KeyFacts.

Lemma pin_post_found (d : db) (me : User.t) (pid : nat) (p : Post.t) :
  fetchone (owned_post pid (User.id me)) (posts d) = Some p ->
  pin_post d (Some me) pid
  = (with_posts d (posts_after_pin d (User.id me) pid (Post.is_pinned p)),
     redirect None).
Proof.
  intros E. unfold pin_post. rewrite E.
  unfold commit, and_then, update_posts, when, skip, posts_after_pin.
  destruct (Post.is_pinned p); reflexivity.
Qed.

(** After a pin-toggle every pinned post of the caller is the post just
    pinned. *)
Lemma pinned_after_pin (d : db) (me pid : nat) (was : bool) (q : Post.t) :
  In q (rows (posts_after_pin d me pid was)) ->
  Post.user_id q = me -> Post.is_pinned q = true ->
  was = false /\ Post.id q = pid.
Proof.
  unfold posts_after_pin. intros Hq Hu Hpin.
  destruct was.
  - apply in_update in Hq as [x [_ ->]].
    destruct (Post.user_id x =? me) eqn:E; simpl in *; try discriminate.
    apply Nat.eqb_neq in E. contradiction.
  - split; auto.
    apply in_update in Hq as [y [Hy ->]].
    destruct (Post.id y =? pid) eqn:Ey.
    + simpl. now apply Nat.eqb_eq.
    + apply in_update in Hy as [x [_ ->]].
      destruct (Post.user_id x =? me) eqn:E; simpl in *; try discriminate.
      apply Nat.eqb_neq in E. contradiction.
Qed.

Lemma posts_after_pin_keys (d : db) (me pid : nat) (was : bool) :
  keys (rows (posts_after_pin d me pid was)) = keys (rows (posts d)).
Proof.
  unfold posts_after_pin. destruct was;
    rewrite !keys_update; auto.
Qed.

Lemma owned_post_some (d : db) (me pid : nat) (p : Post.t) :
  fetchone (owned_post pid me) (posts d) = Some p ->
  In p (rows (posts d)) /\ Post.id p = pid /\ Post.user_id p = me.
Proof.
  intros E. apply fetchone_some in E as [Hin Hc].
  apply andb_true_iff in Hc as [E1 E2].
  apply Nat.eqb_eq in E1, E2. auto.
Qed.

(** A pin-toggle does not change which posts of other users are pinned. *)
Lemma pin_keeps_others (d : db) (me pid : nat) (p : Post.t) (u : nat) :
  posts_keyed d ->
  fetchone (owned_post pid me) (posts d) = Some p ->
  u <> me ->
  count (pinned_by u) (posts_after_pin d me pid (Post.is_pinned p))
  = count (pinned_by u) (posts d).
Proof.
  intros K E Hu. apply owned_post_some in E as [Hp [Hid Huid]].
  apply keyed_NoDup in K.
  assert (C1 : count (pinned_by u)
                 (update (fun p => Post.user_id p =? me)
                         (Post.set_pinned false) (posts d))
               = count (pinned_by u) (posts d)).
  { apply count_update_ext. intros x _.
    destruct (Post.user_id x =? me) eqn:Ex; auto.
    apply Nat.eqb_eq in Ex. unfold pinned_by; simpl.
    rewrite Ex. apply Nat.eqb_neq in Hu.
    rewrite Nat.eqb_sym in Hu. now rewrite Hu. }
  unfold posts_after_pin. destruct (Post.is_pinned p); auto.
  rewrite <- C1. apply count_update_ext. intros y Hy.
  destruct (Post.id y =? pid) eqn:Ey; auto.
  apply Nat.eqb_eq in Ey.
  apply in_update in Hy as [x [Hx ->]].
  assert (x = p).
  { apply (keyed_unique (rows (posts d))); auto.
    change (Post.id x = Post.id p). rewrite Hid, <- Ey.
    destruct (Post.user_id x =? me); reflexivity. }
  subst x. rewrite Huid, Nat.eqb_refl. unfold pinned_by; simpl.
  rewrite Huid. apply Nat.eqb_neq in Hu. rewrite Nat.eqb_sym in Hu.
  now rewrite Hu.
Qed.

Lemma pin_leaves_one (d : db) (me pid : nat) (was : bool) :
  posts_keyed d ->
  count (pinned_by me) (posts_after_pin d me pid was) <= 1.
Proof.
  intros K. apply keyed_NoDup in K.
  apply Nat.le_trans
    with (count (fun q => Post.id q =? pid) (posts_after_pin d me pid was)).
  - apply count_le_impl. intros q Hq Hc.
    unfold pinned_by in Hc. apply andb_true_iff in Hc as [Hu Hpin].
    apply Nat.eqb_eq in Hu.
    destruct (pinned_after_pin d me pid was q Hq Hu Hpin) as [_ E].
    now apply Nat.eqb_eq.
  - apply (count_key_le_1 (posts_after_pin d me pid was) pid).
    now rewrite posts_after_pin_keys.
Qed.

(** One pin-toggle keeps the key order of posts and the pin invariant. *)
Lemma pin_post_invariant (d : db) (g_user : option User.t) (pid : nat) :
  posts_keyed d -> pins_unique d ->
  posts_keyed (fst (pin_post d g_user pid))
  /\ pins_unique (fst (pin_post d g_user pid)).
Proof.
  intros K P. destruct g_user as [me|]; [|now split].
  destruct (fetchone (owned_post pid (User.id me)) (posts d)) as [p|] eqn:E.
  - rewrite (pin_post_found d me pid p E). cbn [fst].
    unfold posts_keyed, pins_unique. cbn [posts with_posts]. split.
    + now rewrite posts_after_pin_keys.
    + intros u. destruct (Nat.eq_dec u (User.id me)) as [->|Hu].
      * now apply pin_leaves_one.
      * rewrite pin_keeps_others; auto.
  - unfold pin_post. rewrite E. now split.
Qed.

Lemma pin_calls_invariant (calls : list (option nat * nat)) :
  forall d, posts_keyed d -> pins_unique d ->
    posts_keyed (serve d (pin_calls calls))
    /\ pins_unique (serve d (pin_calls calls)).
Proof.
  induction calls as [|c calls IH]; intros d K P; [now split|].
  simpl. apply IH;
    apply (pin_post_invariant d (before_request d (fst c)) (snd c)); auto.
Qed.

Lemma live_pins_le (d : db) (u : nat) :
  count (pinned_live_by u) (posts d) <= count (pinned_by u) (posts d).
Proof.
  apply count_le_impl. intros x _ E. unfold pinned_live_by in E.
  now apply andb_true_iff in E.
Qed.

(** ** C8 *)

(** C8: from a database in which no author has more than one pinned post,
    after any sequence of pin-toggle calls every author has at most one
    non-deleted pinned post; and a pin-toggle that pins a post leaves no
    other post of its author pinned. *)
Theorem pin_uniqueness (d : db) (calls : list (option nat * nat)) :
  posts_keyed d -> pins_unique d ->
  (forall author,
     count (pinned_live_by author) (posts (serve d (pin_calls calls))) <= 1)
  /\ (forall (me : User.t) (pid : nat) (p q : Post.t),
        fetchone (owned_post pid (User.id me)) (posts d) = Some p ->
        Post.is_pinned p = false ->
        In q (rows (posts (fst (pin_post d (Some me) pid)))) ->
        Post.user_id q = User.id me ->
        Post.is_pinned q = true -> Post.id q = pid)
  /\ (forall (me : User.t) (pid : nat) (p : Post.t),
        fetchone (owned_post pid (User.id me)) (posts d) = Some p ->
        Post.is_pinned p = false ->
        exists_row (fun q => (Post.id q =? pid) && Post.is_pinned q)
                   (posts (fst (pin_post d (Some me) pid))) = true).
Proof.
  intros K P. split; [|split].
  - intros author.
    destruct (pin_calls_invariant calls d K P) as [_ P'].
    eapply Nat.le_trans; [apply live_pins_le | apply P'].
  - intros me pid p q E Hp Hq Hu Hpin.
    rewrite (pin_post_found d me pid p E) in Hq. cbn [fst posts with_posts]
      in Hq.
    now destruct (pinned_after_pin d (User.id me) pid _ q Hq Hu Hpin).
  - intros me pid p E Hp.
    rewrite (pin_post_found d me pid p E). cbn [fst posts with_posts].
    rewrite Hp. unfold posts_after_pin.
    apply owned_post_some in E as [Hin [Hid Hu]].
    apply exists_row_In.
    exists (Post.set_pinned true
              (if Post.user_id p =? User.id me
               then Post.set_pinned false p else p)).
    split.
    + unfold update; simpl. rewrite map_map. apply in_map_iff.
      exists p. split; auto.
      assert (Post.id (if Post.user_id p =? User.id me
                       then Post.set_pinned false p else p) = pid)
        by (destruct (Post.user_id p =? User.id me); auto).
      apply Nat.eqb_eq in H. now rewrite H.
    + simpl. rewrite andb_true_r. apply Nat.eqb_eq.
      destruct (Post.user_id p =? User.id me); auto.
Qed.

Lemma demo_posts_keyed : posts_keyed Demo.state.
Proof.
  unfold posts_keyed; simpl.
  repeat (constructor; [|repeat constructor; lia]). constructor.
Qed.

Lemma demo_pins_unique : pins_unique Demo.state.
Proof.
  intros u. unfold count, pinned_by; simpl.
  rewrite !andb_false_r. simpl. lia.
Qed.

Lemma pin_uniqueness_witness :
  let calls := [(Some 1, 1); (Some 1, 2); (Some 2, 1); (Some 1, 2)] in
  (forall author,
     count (pinned_live_by author)
           (posts (serve Demo.state (pin_calls calls))) <= 1)
  /\ (forall (me : User.t) (pid : nat) (p q : Post.t),
        fetchone (owned_post pid (User.id me)) (posts Demo.state) = Some p ->
        Post.is_pinned p = false ->
        In q (rows (posts (fst (pin_post Demo.state (Some me) pid)))) ->
        Post.user_id q = User.id me ->
        Post.is_pinned q = true -> Post.id q = pid)
  /\ (forall (me : User.t) (pid : nat) (p : Post.t),
        fetchone (owned_post pid (User.id me)) (posts Demo.state) = Some p ->
        Post.is_pinned p = false ->
        exists_row (fun q => (Post.id q =? pid) && Post.is_pinned q)
                   (posts (fst (pin_post Demo.state (Some me) pid))) = true).
Proof.
  exact (pin_uniqueness Demo.state
           [(Some 1, 1); (Some 1, 2); (Some 2, 1); (Some 1, 2)]
           demo_posts_keyed demo_pins_unique).
Defined.

(** Alice pins post 1 and then post 2: post 2 is her only pinned post;
    pinning post 2 once more leaves her without a pinned post. *)
Example pin_moves :
  map (fun p => (Post.id p, Post.is_pinned p))
      (rows (posts (serve Demo.state (pin_calls [(Some 1, 1); (Some 1, 2)]))))
  = [(1, false); (2, true); (3, false)]
  /\ map (fun p => (Post.id p, Post.is_pinned p))
         (rows (posts (serve Demo.state
                         (pin_calls [(Some 1, 1); (Some 1, 2);
                                     (Some 1, 2)]))))
     = [(1, false); (2, false); (3, false)].
Proof. split; reflexivity. Qed.

(* ===================================================================== *)
(** * What every request keeps *)
(* ===================================================================== *)

(** The hypotheses of the theorems above on the database are kept by every
    handler, so they hold in every database the handlers produce from one
    in which they hold. *)

Section Preserves.
Variable I : db -> Prop.

Lemma preserves_skip : preserves I skip.
Proof. intros d d' Hi E. injection E as <-. exact Hi. Qed.

Lemma preserves_and_then (f g : txn) :
  preserves I f -> preserves I g -> preserves I (f ;; g).
Proof.
  intros Pf Pg d d' Hi E. unfold and_then in E.
  destruct (f d) as [d1|] eqn:F; [|discriminate].
  exact (Pg d1 d' (Pf d d1 Hi F) E).
Qed.

Lemma preserves_when (b : bool) (f : txn) :
  preserves I f -> preserves I (when b f).
Proof. destruct b; auto using preserves_skip. Qed.

Lemma preserves_commit (d : db) (t : txn) (r : db -> response) :
  preserves I t -> I d -> I (fst (commit d t r)).
Proof.
  intros Pt Hi. unfold commit. destruct (t d) eqn:E; simpl; eauto.
Qed.

End Preserves.

Ltac run_primitive E :=
  repeat match type of E with
         | (if ?c then _ else _) = Some _ =>
             destruct c eqn:?; [|discriminate E]
         end;
  injection E as <-.

Lemma insert_notification_frame (u : nat) (a : option nat)
    (k : Notification.kind) (p : option nat) (d d' : db) :
  insert_notification u a k p d = Some d' ->
  same_posts d d' /\ same_graph d d' /\ same_likes d d' /\ same_ratings d d'.
Proof.
  unfold insert_notification. intros E. run_primitive E.
  repeat split.
Qed.

Lemma notify_mentions_frame (me pid : nat) (ms : list string) :
  forall d d', notify_mentions me pid ms d = Some d' ->
    same_posts d d' /\ same_graph d d' /\ same_likes d d'
    /\ same_ratings d d'.
Proof.
  induction ms as [|m rest IH]; intros d d' E.
  - injection E as <-. repeat split.
  - cbn [notify_mentions] in E. unfold and_then in E.
    destruct (user_by_name d m) as [u|].
    + destruct (negb (User.id u =? me)); unfold when, skip in E.
      * destruct (insert_notification (User.id u) (Some me)
                    Notification.mention (Some pid) d) as [d1|] eqn:E1;
          [|discriminate].
        apply insert_notification_frame in E1
          as [[U1 P1] [[F1 B1] [L1 R1]]].
        apply IH in E as [[U2 P2] [[F2 B2] [L2 R2]]].
        unfold same_posts, same_graph, same_likes, same_ratings.
        repeat split; congruence.
      * now apply IH.
    + now apply IH.
Qed.

(** ** Posts keep their authors, their key order and their pins *)

Lemma posts_sound_frame (d d' : db) :
  same_posts d d' -> posts_sound d -> posts_sound d'.
Proof.
  intros [U P] [A [K N]].
  unfold posts_sound, posts_have_authors, posts_keyed, pins_unique,
    has_author, user_exists in *.
  rewrite U, P. auto.
Qed.

Lemma sorted_filter {A} (R : A -> A -> Prop) (c : A -> bool) (l : list A) :
  StronglySorted R l -> StronglySorted R (filter c l).
Proof.
  induction 1 as [|x l S IH F]; simpl; [constructor|].
  destruct (c x); auto. constructor; auto.
  rewrite Forall_forall in *. intros y Hy. apply F.
  now apply filter_In in Hy.
Qed.

Lemma keys_delete_sorted {A} `{Keyed A} (c : A -> bool) (t : table A) :
  StronglySorted lt (keys (rows t)) ->
  StronglySorted lt (keys (rows (delete c t))).
Proof.
  unfold keys, delete; simpl.
  induction (rows t) as [|x l IH]; simpl; intros S; [constructor|].
  apply StronglySorted_inv in S as [S F].
  destruct (c x); simpl; auto. constructor; auto.
  rewrite Forall_forall in *. intros k Hk. apply F.
  apply in_map_iff in Hk as [y [<- Hy]]. apply filter_In in Hy as [Hy _].
  now apply in_map.
Qed.

Lemma keys_insert_sorted {A} `{Keyed A} (mk : nat -> A) (t : table A) :
  (forall i, key (mk i) = i) ->
  StronglySorted lt (keys (rows t)) ->
  StronglySorted lt (keys (rows (insert mk t))).
Proof.
  intros K S. unfold insert, keys; simpl. rewrite map_app; simpl.
  rewrite K.
  assert (B : Forall (fun k => k < next_rowid t) (map key (rows t))).
  { rewrite Forall_forall. intros k Hk.
    apply in_map_iff in Hk as [x [<- Hx]]. now apply next_rowid_fresh. }
  unfold keys in S. revert S B.
  induction (map key (rows t)) as [|k ks IH]; simpl; intros S B.
  - repeat constructor.
  - apply StronglySorted_inv in S as [S F].
    apply Forall_cons_iff in B as [Bk Bks].
    constructor; auto.
    apply Forall_app. split; auto.
Qed.

Lemma count_delete_le {A} (c c' : A -> bool) (t : table A) :
  count c (delete c' t) <= count c t.
Proof.
  unfold count, delete; simpl.
  induction (rows t) as [|x l IH]; simpl; auto.
  destruct (c' x); simpl; destruct (c x); simpl; lia.
Qed.

Lemma insert_post_sound (u : nat) (s : string) (a b c : option nat)
    (now : nat) :
  preserves posts_sound (insert_post u s a b c now).
Proof.
  intros d d' [A [K N]] E. unfold insert_post in E.
  destruct (user_exists d u) eqn:Eu; [|discriminate].
  run_primitive E.
  unfold posts_sound, posts_have_authors, posts_keyed, pins_unique.
  cbn [posts with_posts]. split; [|split].
  - intros p Hp. unfold insert in Hp; simpl in Hp.
    apply in_app_or in Hp as [Hp|[<-|[]]]; [now apply A | exact Eu].
  - now apply keys_insert_sorted.
  - intros w. rewrite count_insert.
    assert (Z : forall i, pinned_by w (Post.mk i u s a b c false false now)
                          = false)
      by (intros i; unfold pinned_by; simpl; apply andb_false_r).
    rewrite Z. specialize (N w). lia.
Qed.

Lemma update_posts_sound (c : Post.t -> bool) (f : Post.t -> Post.t) :
  (forall x, Post.id (f x) = Post.id x) ->
  (forall x, Post.user_id (f x) = Post.user_id x) ->
  (forall x, Post.is_pinned (f x) = Post.is_pinned x) ->
  preserves posts_sound (update_posts c f).
Proof.
  intros Fi Fu Fp d d' [A [K N]] E. injection E as <-.
  unfold posts_sound, posts_have_authors, posts_keyed, pins_unique.
  cbn [posts with_posts]. split; [|split].
  - intros p Hp. apply in_update in Hp as [x [Hx ->]].
    specialize (A x Hx). unfold has_author in *.
    cbn [users with_posts]. unfold user_exists in *. cbn [users].
    destruct (c x); [now rewrite Fu | auto].
  - now rewrite keys_update.
  - intros w. rewrite count_update_ext; auto.
    intros x _. destruct (c x); auto. unfold pinned_by. now rewrite Fu, Fp.
Qed.

Lemma delete_post_row_sound (pid : nat) :
  preserves posts_sound (delete_post_row pid).
Proof.
  intros d d' [A [K N]] E. injection E as <-.
  unfold posts_sound, posts_have_authors, posts_keyed, pins_unique.
  cbn [posts]. split; [|split].
  - intros p Hp. apply in_update in Hp as [x [Hx ->]].
    unfold delete in Hx; simpl in Hx. apply filter_In in Hx as [Hx _].
    apply (A x Hx).
  - rewrite keys_update by reflexivity. now apply keys_delete_sorted.
  - intros w. rewrite count_update_ext by reflexivity.
    eapply Nat.le_trans; [apply count_delete_le | apply N].
Qed.

Lemma framed_sound (t : txn) :
  framed same_posts t -> preserves posts_sound t.
Proof. intros F d d' Hi E. eapply posts_sound_frame; eauto. Qed.

Ltac solve_framed :=
  let E := fresh "E" in
  intros ? ? E;
  first
    [ apply insert_notification_frame in E; tauto
    | apply notify_mentions_frame in E; tauto
    | rewrite recount_eq in E; injection E as <-; repeat split
    | unfold insert_follow, insert_block, insert_mute, insert_like,
        insert_rating, insert_post, delete_follows, delete_blocks,
        delete_mutes, delete_likes, update_posts, update_notes,
        update_ratings, delete_post_row, skip in E;
      run_primitive E; repeat split ].

Ltac split_handler :=
  repeat match goal with
         | |- context [match ?x with _ => _ end] => destruct x eqn:?
         end.

Lemma pin_post_authors (d : db) (g_user : option User.t) (pid : nat) :
  posts_have_authors d -> posts_have_authors (fst (pin_post d g_user pid)).
Proof.
  intros A. destruct g_user as [me|]; [|exact A].
  destruct (fetchone (owned_post pid (User.id me)) (posts d)) as [p|] eqn:E.
  - rewrite (pin_post_found d me pid p E). cbn [fst].
    intros q Hq. cbn [posts with_posts] in Hq.
    assert (Hx : exists x, In x (rows (posts d))
                           /\ Post.user_id q = Post.user_id x).
    { unfold posts_after_pin in Hq. destruct (Post.is_pinned p).
      - apply in_update in Hq as [x [Hx ->]]. exists x. split; auto.
        destruct (Post.user_id x =? User.id me); reflexivity.
      - apply in_update in Hq as [y [Hy ->]].
        apply in_update in Hy as [x [Hx ->]]. exists x. split; auto.
        repeat match goal with
               | |- context [if ?c then _ else _] => destruct c
               end; reflexivity. }
    destruct Hx as [x [Hx Eu]]. specialize (A x Hx).
    unfold has_author, user_exists in *. cbn [users with_posts].
    now rewrite Eu.
  - unfold pin_post. rewrite E. exact A.
Qed.

(** Every handler keeps posts with their authors, in key order, with at
    most one pin per author. *)
Theorem handle_posts_sound (d : db) (r : request) :
  posts_sound d -> posts_sound (fst (handle d r)).
Proof.
  intros Hi. unfold handle.
  destruct (before_request d (session_user_id r)) as [me|];
    destruct (act r) as [u|u|u|p j|p c now|p now|p|p|n s].
  all: try (destruct Hi as [A [K N]];
            match goal with
            | |- posts_sound (fst (pin_post ?d ?g ?p)) =>
                destruct (pin_post_invariant d g p K N);
                pose proof (pin_post_authors d g p A);
                repeat split; assumption
            end).
  all: unfold follow, block_user, mute_user, like_post, reply, repost,
         delete_post, rate_community_note.
  all: split_handler; cbn [fst]; try exact Hi.
  all: try (apply preserves_commit; [|solve [eauto]]).
  all: repeat first
         [ apply preserves_and_then
         | apply preserves_when
         | apply preserves_skip
         | apply insert_post_sound
         | apply delete_post_row_sound
         | apply update_posts_sound; reflexivity
         | apply framed_sound; solve_framed ].
  all: match goal with
       | H : posts_sound ?d1, E : and_then _ _ ?d1 = Some ?d0 |- _ =>
           apply preserves_commit;
           [ apply framed_sound; solve_framed
           | refine ((_ : preserves posts_sound _) d1 d0 H E);
             apply preserves_and_then;
             [ apply insert_post_sound
             | apply preserves_when, framed_sound; solve_framed ] ]
       end.
Qed.

(** ** Blocks keep severing follows *)

Lemma graph_frame (d d' : db) :
  same_graph d d' -> blocks_sever_follows d -> blocks_sever_follows d'.
Proof.
  intros [F B] S. unfold blocks_sever_follows in *. now rewrite F, B.
Qed.

Lemma framed_graph (t : txn) :
  framed same_graph t -> preserves blocks_sever_follows t.
Proof. intros F d d' Hi E. eapply graph_frame; eauto. Qed.

Lemma exists_row_delete_false {A} (c c' : A -> bool) (t : table A) :
  exists_row c t = false -> exists_row c (delete c' t) = false.
Proof.
  intros E. apply exists_row_none. intros x Hx.
  unfold delete in Hx; simpl in Hx. apply filter_In in Hx as [Hx _].
  exact (proj1 (exists_row_none c t) E x Hx).
Qed.

Lemma delete_follows_graph (c : Follow.t -> bool) :
  preserves blocks_sever_follows (delete_follows c).
Proof.
  intros d d' S E. injection E as <-. intros k Hk.
  destruct (S k Hk) as [Hne Hf]. split; auto.
  cbn [follows with_follows]. now apply exists_row_delete_false.
Qed.

Lemma delete_blocks_graph (c : Block.t -> bool) :
  preserves blocks_sever_follows (delete_blocks c).
Proof.
  intros d d' S E. injection E as <-. intros k Hk.
  cbn [blocks with_blocks] in Hk. unfold delete in Hk; simpl in Hk.
  apply filter_In in Hk as [Hk _]. exact (S k Hk).
Qed.

Lemma either_follow_new (x y a b i : nat) :
  either_follow x y (Follow.mk i a b) = true ->
  (x = a /\ y = b) \/ (x = b /\ y = a).
Proof.
  unfold either_follow, is_follow; simpl. intros E.
  apply orb_true_iff in E as [E|E]; apply andb_true_iff in E as [E1 E2];
    apply Nat.eqb_eq in E1, E2; auto.
Qed.

(** A follow edge may be written where no block joins the two users. *)
Lemma insert_follow_graph (a b : nat) (d d' : db) :
  exists_row (either_block a b) (blocks d) = false ->
  blocks_sever_follows d ->
  insert_follow a b d = Some d' -> blocks_sever_follows d'.
Proof.
  intros Hnb S E. unfold insert_follow in E. run_primitive E.
  intros k Hk. cbn [blocks with_follows] in Hk.
  destruct (S k Hk) as [Hne Hf]. split; auto.
  cbn [follows with_follows]. rewrite exists_row_insert, Hf. simpl.
  destruct (either_follow (Block.blocker_id k) (Block.blocked_id k)
              (Follow.mk (next_rowid (follows d)) a b)) eqn:N; auto.
  apply either_follow_new in N.
  pose proof (proj1 (exists_row_none _ _) Hnb k Hk) as F.
  unfold either_block, is_block in F.
  destruct N as [[E1 E2]|[E1 E2]]; rewrite E1, E2, !Nat.eqb_refl in F;
    simpl in F; try discriminate.
  rewrite orb_true_r in F. discriminate.
Qed.

(** A block row is written together with the deletion of the follow edges
    between its two users. *)
Lemma block_pair_graph (a b : nat) :
  a <> b ->
  preserves blocks_sever_follows
    (insert_block a b ;; delete_follows (either_follow a b)).
Proof.
  intros Hab d d' S E. unfold and_then in E.
  destruct (insert_block a b d) as [d1|] eqn:E1; [|discriminate].
  unfold insert_block in E1. run_primitive E1. injection E as <-.
  intros k Hk. cbn [blocks with_blocks with_follows follows] in *.
  unfold insert in Hk; simpl in Hk.
  apply in_app_or in Hk as [Hk|[<-|[]]].
  - destruct (S k Hk) as [Hne Hf]. split; auto.
    now apply exists_row_delete_false.
  - simpl. split; auto. apply exists_row_delete_same.
Qed.

Lemma follow_graph (d : db) (g : option User.t) (u : nat) :
  blocks_sever_follows d -> blocks_sever_follows (fst (follow d g u)).
Proof.
  intros S. unfold follow. split_handler; cbn [fst]; try exact S.
  - apply preserves_commit; auto. apply delete_follows_graph.
  - unfold commit, and_then.
    destruct (insert_follow (User.id t) u d) as [d1|] eqn:E1;
      [|exact S].
    pose proof (insert_follow_graph _ _ _ _ Heqb0 S E1) as S1.
    destruct (insert_notification u (Some (User.id t)) Notification.follow
                None d1) as [d2|] eqn:E2; [|exact S].
    cbn [fst]. apply insert_notification_frame in E2 as [_ [G _]].
    eapply graph_frame; eauto.
Qed.

Lemma block_user_graph (d : db) (g : option User.t) (u : nat) :
  blocks_sever_follows d -> blocks_sever_follows (fst (block_user d g u)).
Proof.
  intros S. unfold block_user. split_handler; cbn [fst]; try exact S.
  - apply preserves_commit; auto. apply delete_blocks_graph.
  - apply preserves_commit; auto. apply block_pair_graph.
    now apply Nat.eqb_neq.
Qed.

Theorem handle_graph (d : db) (r : request) :
  blocks_sever_follows d -> blocks_sever_follows (fst (handle d r)).
Proof.
  intros Hi. unfold handle.
  destruct (before_request d (session_user_id r)) as [me|];
    destruct (act r) as [u|u|u|p j|p c now|p now|p|p|n s].
  all: try (now apply follow_graph).
  all: try (now apply block_user_graph).
  all: unfold mute_user, like_post, reply, repost, pin_post,
         delete_post, rate_community_note.
  all: split_handler; cbn [fst]; try exact Hi.
  all: try (apply preserves_commit; [|solve [eauto]]).
  all: repeat first
         [ apply preserves_and_then
         | apply preserves_when
         | apply preserves_skip
         | apply framed_graph; solve_framed ].
  all: match goal with
       | H : blocks_sever_follows ?d1, E : and_then _ _ ?d1 = Some ?d0
         |- _ =>
           apply preserves_commit;
           [ apply framed_graph; solve_framed
           | refine ((_ : preserves blocks_sever_follows _) d1 d0 H E);
             apply preserves_and_then;
             [ apply framed_graph; solve_framed
             | apply preserves_when, framed_graph; solve_framed ] ]
       end.
Qed.

(** ** Likes and ratings stay unique *)

Lemma likes_frame (d d' : db) :
  same_likes d d' -> likes_unique d -> likes_unique d'.
Proof. intros L U. unfold likes_unique, same_likes in *. now rewrite L. Qed.

Lemma framed_likes (t : txn) :
  framed same_likes t -> preserves likes_unique t.
Proof. intros F d d' Hi E. eapply likes_frame; eauto. Qed.

Lemma insert_like_unique (u p : nat) : preserves likes_unique (insert_like u p).
Proof.
  intros d d' U E. unfold insert_like in E. run_primitive E.
  intros u' p'. cbn [likes with_likes]. rewrite count_insert.
  specialize (U u' p').
  destruct (is_like u' p' (Like.mk (next_rowid (likes d)) u p)) eqn:N;
    [|lia].
  unfold is_like in N; simpl in N. apply andb_true_iff in N as [N1 N2].
  apply Nat.eqb_eq in N1, N2. subst u' p'.
  match goal with
  | H : _ && negb (exists_row _ _) = true |- _ =>
      apply andb_true_iff in H as [_ H]; apply negb_true_iff in H;
      rewrite (exists_row_false_count _ _ H)
  end. lia.
Qed.

Lemma delete_likes_unique (c : Like.t -> bool) :
  preserves likes_unique (delete_likes c).
Proof.
  intros d d' U E. injection E as <-. intros u p. cbn [likes with_likes].
  eapply Nat.le_trans; [apply count_delete_le | apply U].
Qed.

Lemma delete_post_row_likes (pid : nat) :
  preserves likes_unique (delete_post_row pid).
Proof.
  intros d d' U E. injection E as <-. intros u p. cbn [likes].
  eapply Nat.le_trans; [apply count_delete_le | apply U].
Qed.

Theorem handle_likes_unique (d : db) (r : request) :
  likes_unique d -> likes_unique (fst (handle d r)).
Proof.
  intros Hi. unfold handle.
  destruct (before_request d (session_user_id r)) as [me|];
    destruct (act r) as [u|u|u|p j|p c now|p now|p|p|n s].
  all: unfold follow, block_user, mute_user, like_post, reply, repost,
         pin_post, delete_post, rate_community_note.
  all: split_handler; cbn [fst]; try exact Hi.
  all: try (apply preserves_commit; [|solve [eauto]]).
  all: repeat first
         [ apply preserves_and_then
         | apply preserves_when
         | apply preserves_skip
         | apply insert_like_unique
         | apply delete_likes_unique
         | apply delete_post_row_likes
         | apply framed_likes; solve_framed ].
  all: match goal with
       | H : likes_unique ?d1, E : and_then _ _ ?d1 = Some ?d0 |- _ =>
           apply preserves_commit;
           [ apply framed_likes; solve_framed
           | refine ((_ : preserves likes_unique _) d1 d0 H E);
             apply preserves_and_then;
             [ apply framed_likes; solve_framed
             | apply preserves_when, framed_likes; solve_framed ] ]
       end.
Qed.

Lemma ratings_frame (d d' : db) :
  same_ratings d d' -> ratings_unique d -> ratings_unique d'.
Proof.
  intros R U. unfold ratings_unique, same_ratings in *. now rewrite R.
Qed.

Lemma framed_ratings (t : txn) :
  framed same_ratings t -> preserves ratings_unique t.
Proof. intros F d d' Hi E. eapply ratings_frame; eauto. Qed.

Lemma NoDup_map_filter {A B} (f : A -> B) (c : A -> bool) (l : list A) :
  NoDup (map f l) -> NoDup (map f (filter c l)).
Proof.
  induction l as [|x l IH]; simpl; intros N; [constructor|].
  apply NoDup_cons_iff in N as [Nx Nl].
  destruct (c x); simpl; auto. constructor; auto.
  intros Hin. apply Nx. apply in_map_iff in Hin as [y [E Hy]].
  apply filter_In in Hy as [Hy _]. rewrite <- E. now apply in_map.
Qed.

Lemma insert_rating_unique (n u : nat) (v : Rating.value) :
  preserves ratings_unique (insert_rating n u v).
Proof.
  intros d d' U E. unfold insert_rating in E. run_primitive E.
  match goal with
  | H : _ && negb (exists_row _ _) = true |- _ =>
      apply andb_true_iff in H as [_ H]; apply negb_true_iff in H;
      rename H into Hn
  end.
  unfold ratings_unique in *. cbn [community_note_ratings
    with_community_note_ratings]. unfold insert; simpl.
  rewrite map_app; simpl.
  apply NoDup_app; [auto | repeat constructor; simpl; tauto|].
  intros p Hp [<-|[]].
  apply in_map_iff in Hp as [r [Er Hr]].
  pose proof (proj1 (exists_row_none _ _) Hn r Hr) as F.
  unfold is_rating in F. injection Er as E1 E2.
  rewrite E1, E2, !Nat.eqb_refl in F. discriminate.
Qed.

Lemma update_ratings_unique (c : Rating.t -> bool) (v : Rating.value) :
  preserves ratings_unique (update_ratings c (Rating.set_rating v)).
Proof.
  intros d d' U E. injection E as <-. unfold ratings_unique in *.
  cbn [community_note_ratings with_community_note_ratings].
  unfold update; simpl. rewrite map_map.
  erewrite map_ext; [exact U|].
  intros r. destruct (c r); reflexivity.
Qed.

Lemma delete_post_row_ratings (pid : nat) :
  preserves ratings_unique (delete_post_row pid).
Proof.
  intros d d' U E. injection E as <-. unfold ratings_unique in *.
  cbn [community_note_ratings]. unfold delete; simpl.
  now apply NoDup_map_filter.
Qed.

Theorem handle_ratings_unique (d : db) (r : request) :
  ratings_unique d -> ratings_unique (fst (handle d r)).
Proof.
  intros Hi. unfold handle.
  destruct (before_request d (session_user_id r)) as [me|];
    destruct (act r) as [u|u|u|p j|p c now|p now|p|p|n s].
  all: unfold follow, block_user, mute_user, like_post, reply, repost,
         pin_post, delete_post, rate_community_note.
  all: split_handler; cbn [fst]; try exact Hi.
  all: try (apply preserves_commit; [|solve [eauto]]).
  all: repeat first
         [ apply preserves_and_then
         | apply preserves_when
         | apply preserves_skip
         | apply insert_rating_unique
         | apply update_ratings_unique
         | apply delete_post_row_ratings
         | apply framed_ratings; solve_framed ].
  all: match goal with
       | H : ratings_unique ?d1, E : and_then _ _ ?d1 = Some ?d0 |- _ =>
           apply preserves_commit;
           [ apply framed_ratings; solve_framed
           | refine ((_ : preserves ratings_unique _) d1 d0 H E);
             apply preserves_and_then;
             [ apply framed_ratings; solve_framed
             | apply preserves_when, framed_ratings; solve_framed ] ]
       end.
Qed.

(** ** Every database the handlers reach *)

Theorem handle_consistent (d : db) (r : request) :
  consistent d -> consistent (fst (handle d r)).
Proof.
  intros [P [G [L R]]]. split; [|split; [|split]].
  - now apply handle_posts_sound.
  - now apply handle_graph.
  - now apply handle_likes_unique.
  - now apply handle_ratings_unique.
Qed.

Theorem serve_consistent (rs : list request) :
  forall d, consistent d -> consistent (serve d rs).
Proof.
  induction rs as [|r rs IH]; intros d C; [exact C|].
  simpl. apply IH. now apply handle_consistent.
Qed.

Lemma demo_likes_unique : likes_unique Demo.state.
Proof. intros u p. unfold count; simpl. lia. Qed.

Lemma demo_consistent : consistent Demo.state.
Proof.
  repeat split;
    auto using demo_posts_have_authors, demo_posts_keyed, demo_pins_unique,
      demo_likes_unique, demo_ratings_unique.
  all: apply demo_blocks_sever_follows; assumption.
Qed.

Lemma serve_consistent_witness :
  consistent
    (serve Demo.state
       [Request (Some 2) (LikePost 1 false); Request (Some 3) (Follow_ 2);
        Request (Some 1) (PinPost 1); Request (Some 1) (BlockUser 2);
        rate 2 "helpful"; Request (Some 1) (DeletePost 2)]).
Proof.
  apply (serve_consistent
           [Request (Some 2) (LikePost 1 false); Request (Some 3) (Follow_ 2);
            Request (Some 1) (PinPost 1); Request (Some 1) (BlockUser 2);
            rate 2 "helpful"; Request (Some 1) (DeletePost 2)]
           Demo.state).
  exact demo_consistent.
Defined.

(** ** The handlers at work on the demo database *)

(** Two helpful ratings leave the note proposed, a third approves it, and
    a later change of mind of one rater does not take the approval back. *)
Example three_helpful_ratings_approve :
  map (fun c => (Note.status c, Note.helpful_count c,
                 Note.not_helpful_count c))
      (rows (community_notes
               (serve Demo.state [rate 2 "helpful"; rate 3 "helpful"])))
  = [(Note.proposed, 2, 0)]
  /\ map (fun c => (Note.status c, Note.helpful_count c,
                    Note.not_helpful_count c))
         (rows (community_notes
                  (serve Demo.state [rate 2 "helpful"; rate 3 "helpful";
                                     rate 1 "helpful"])))
     = [(Note.approved, 3, 0)]
  /\ map (fun c => (Note.status c, Note.helpful_count c,
                    Note.not_helpful_count c))
         (rows (community_notes
                  (serve Demo.state [rate 2 "helpful"; rate 3 "helpful";
                                     rate 1 "helpful";
                                     rate 3 "not_helpful"])))
     = [(Note.approved, 2, 1)].
Proof. repeat split. Qed.

(** Bob replies to Alice's post and mentions Carol: the reply notification
    for Alice is the last row inserted before the mention loop, so the
    mention notification records the id of that notification row, 1, where
    the reply is post 4. *)
Example reply_mention_records_last_rowid :
  rows (notifications
          (fst (reply Demo.state (Some Demo.bob) 1 "@carol look" 20)))
  = [Notification.mk 1 1 (Some 2) Notification.reply (Some 1);
     Notification.mk 2 3 (Some 2) Notification.mention (Some 1)]
  /\ map Post.id
         (rows (posts
                  (fst (reply Demo.state (Some Demo.bob) 1 "@carol look"
                              20))))
     = [1; 2; 3; 4].
Proof. split; reflexivity. Qed.

(** Handles are read off the text greedily and resolved without regard to
    case. *)
Example mentions_of_text :
  extract_mentions "@bob hi @@al_x@bob @ x@Bob" = ["al_x"; "bob"; "Bob"]%string
  /\ option_map User.id (user_by_name Demo.state "BOB") = Some 2.
Proof. split; reflexivity. Qed.

(* ===================================================================== *)
(** * Sessions *)
(* ===================================================================== *)



(** [handle] is the route run with the user that [before_request] finds. *)
Lemma handle_is_route (d : db) (r : request) :
  handle d r = route d (before_request d (session_user_id r)) (act r).
Proof. unfold handle, route. destruct (act r); reflexivity. Qed.




(* ===================================================================== *)
(** * Soft deletion *)
(* ===================================================================== *)

Lemma delete_post_done (d : db) (me : User.t) (pid : nat) (p : Post.t) :
  fetchone (fun q => Post.id q =? pid) (posts d) = Some p ->
  Post.user_id p = User.id me \/ User.is_admin me = true ->
  delete_post d (Some me) pid
  = (with_posts d (update (fun q => Post.id q =? pid)
                          (Post.set_deleted true) (posts d)),
     redirect (Some ("Post deleted.", "info")%string)).
Proof.
  intros E Hok. unfold delete_post. rewrite E.
  assert (G : negb (Post.user_id p =? User.id me) && negb (User.is_admin me)
              = false).
  { destruct Hok as [H|H]; rewrite H; [now rewrite Nat.eqb_refl|].
    apply andb_false_r. }
  rewrite G. reflexivity.
Qed.

(** In a table whose rows with id [pid] are flagged deleted, no live post
    has id [pid]. *)
Lemma deleted_rows_not_live (pid : nat) (t : table Post.t) (q : Post.t) :
  In q (rows (update (fun q => Post.id q =? pid) (Post.set_deleted true) t)) ->
  Post.is_deleted q = false -> Post.id q <> pid.
Proof.
  intros Hq Hl. apply in_update in Hq as [x [_ ->]].
  destruct (Post.id x =? pid) eqn:E.
  - simpl in Hl. discriminate.
  - now apply Nat.eqb_neq.
Qed.

(** Deleting a post is open to its author and to administrators; anybody
    else gets 403 and nothing is written.  The deletion keeps the row, and
    with it every post id, and flags it: from then on like, reply and
    repost answer 404 for the post, and it is on no page of anybody's home
    timeline and in nobody's profile listing. *)
Theorem delete_post_hides (d : db) (me : User.t) (pid : nat) (p : Post.t) :
  fetchone (fun q => Post.id q =? pid) (posts d) = Some p ->
  (Post.user_id p <> User.id me -> User.is_admin me = false ->
   delete_post d (Some me) pid = (d, abort 403))
  /\ (Post.user_id p = User.id me \/ User.is_admin me = true ->
      exists d',
        delete_post d (Some me) pid
        = (d', redirect (Some ("Post deleted.", "info")%string))
        /\ keys (rows (posts d')) = keys (rows (posts d))
        /\ (forall u j, like_post d' (Some u) pid j = (d', abort 404))
        /\ (forall u c now, reply d' (Some u) pid c now = (d', abort 404))
        /\ (forall u now, repost d' (Some u) pid now = (d', abort 404))
        /\ (forall viewer page per_page q,
              In q (shown (get_feed_posts d' viewer page per_page)) ->
              Post.id q <> pid)
        /\ (forall subject q,
              In q (profile_rows d' subject) -> Post.id q <> pid)).
Proof.
  intros E. split.
  - intros Hne Hna. unfold delete_post. rewrite E.
    apply Nat.eqb_neq in Hne. now rewrite Hne, Hna.
  - intros Hok. eexists. split; [now apply delete_post_done with (p := p)|].
    cbn [posts with_posts].
    set (t' := update (fun q => Post.id q =? pid) (Post.set_deleted true)
                      (posts d)).
    assert (Gone : fetchone (live_post pid) t' = None).
    { apply fetchone_absent, exists_row_none. intros q Hq.
      unfold live_post. destruct (Post.is_deleted q) eqn:Dq;
        [apply andb_false_r|].
      apply (deleted_rows_not_live pid (posts d) q Hq) in Dq.
      apply Nat.eqb_neq in Dq. now rewrite Dq. }
    split; [apply keys_update; reflexivity|].
    split; [|split; [|split; [|split]]].
    + intros u j. unfold like_post. cbn [posts with_posts].
      fold t'. now rewrite Gone.
    + intros u c now. unfold reply. cbn [posts with_posts].
      fold t'. now rewrite Gone.
    + intros u now. unfold repost. cbn [posts with_posts].
      fold t'. now rewrite Gone.
    + intros viewer page per_page q Hq.
      unfold get_feed_posts in Hq. rewrite shown_enrich in Hq.
      apply limit_offset_incl, in_feed_rows in Hq as [Hq [_ Hf]].
      cbn [posts with_posts] in Hq.
      apply (deleted_rows_not_live pid (posts d) q Hq).
      unfold in_feed in Hf. destruct (Post.is_deleted q); [discriminate|].
      reflexivity.
    + intros subject q Hq. unfold profile_rows in Hq.
      rewrite order_by_In, filter_In in Hq. destruct Hq as [Hq Hc].
      cbn [posts with_posts] in Hq.
      apply (deleted_rows_not_live pid (posts d) q Hq).
      destruct (Post.is_deleted q); [|reflexivity].
      rewrite andb_false_r in Hc. discriminate.
Qed.

Lemma delete_post_hides_witness :
  (Post.user_id Demo.p1 <> User.id Demo.alice ->
   User.is_admin Demo.alice = false ->
   delete_post Demo.state (Some Demo.alice) 1 = (Demo.state, abort 403))
  /\ (Post.user_id Demo.p1 = User.id Demo.alice
      \/ User.is_admin Demo.alice = true ->
      exists d',
        delete_post Demo.state (Some Demo.alice) 1
        = (d', redirect (Some ("Post deleted.", "info")%string))
        /\ keys (rows (posts d')) = keys (rows (posts Demo.state))
        /\ (forall u j, like_post d' (Some u) 1 j = (d', abort 404))
        /\ (forall u c now, reply d' (Some u) 1 c now = (d', abort 404))
        /\ (forall u now, repost d' (Some u) 1 now = (d', abort 404))
        /\ (forall viewer page per_page q,
              In q (shown (get_feed_posts d' viewer page per_page)) ->
              Post.id q <> 1)
        /\ (forall subject q,
              In q (profile_rows d' subject) -> Post.id q <> 1)).
Proof.
  apply (delete_post_hides Demo.state Demo.alice 1 Demo.p1). reflexivity.
Defined.

(* ===================================================================== *)
(** * Following and the notifications of actions on others' posts *)
(* ===================================================================== *)

Lemma delete_inserted {A} `{Keyed A} (c : A -> bool) (mk : nat -> A)
    (t : table A) :
  exists_row c t = false -> c (mk (next_rowid t)) = true ->
  rows (delete c (insert mk t)) = rows t.
Proof.
  intros E Hc. unfold delete, insert; simpl.
  rewrite filter_app; simpl. rewrite Hc; simpl. rewrite app_nil_r.
  change (filter (fun r => negb (c r)) (rows t)) with (rows (delete c t)).
  now rewrite delete_nothing.
Qed.

Lemma is_follow_refl (i a b : nat) : is_follow a b (Follow.mk i a b) = true.
Proof. unfold is_follow; simpl. now rewrite !Nat.eqb_refl. Qed.

Lemma insert_follow_ok (d : db) (a b : nat) :
  user_exists d a = true -> user_exists d b = true ->
  exists_row (is_follow a b) (follows d) = false ->
  insert_follow a b d
  = Some (with_follows d (insert (fun i => Follow.mk i a b) (follows d))).
Proof. intros Ha Hb Hn. unfold insert_follow. now rewrite Ha, Hb, Hn. Qed.

(** Where no block stands between them, a first follow writes the edge and
    one follow notification for the followed user; a second follow by the
    same user takes the edge away again and leaves the notification where
    it is. *)
Theorem follow_then_unfollow (d : db) (me target : User.t) :
  logged_in d me ->
  fetchone (fun u => User.id u =? User.id target) (users d) = Some target ->
  User.id me <> User.id target ->
  exists_row (either_block (User.id me) (User.id target)) (blocks d) = false ->
  exists_row (is_follow (User.id me) (User.id target)) (follows d) = false ->
  exists d1 d2,
    follow d (Some me) (User.id target)
    = (d1, redirect (Some ("Following @" ++ User.username target ++ "!",
                           "success")%string))
    /\ rows (follows d1)
       = (rows (follows d)
          ++ [Follow.mk (next_rowid (follows d)) (User.id me)
                        (User.id target)])%list
    /\ rows (notifications d1)
       = (rows (notifications d)
          ++ [Notification.mk (next_rowid (notifications d))
                              (User.id target) (Some (User.id me))
                              Notification.follow None])%list
    /\ follow d1 (Some me) (User.id target)
       = (d2, redirect (Some ("Unfollowed @" ++ User.username target,
                              "info")%string))
    /\ rows (follows d2) = rows (follows d)
    /\ notifications d2 = notifications d1.
Proof.
  intros Hme Ht Hne Hnb Hnf.
  pose proof (logged_in_exists d me Hme) as Eme.
  assert (Et : user_exists d (User.id target) = true)
    by (unfold user_exists; now rewrite fetchone_exists, Ht).
  assert (Hneb : (User.id me =? User.id target) = false)
    by now apply Nat.eqb_neq.
  set (f1 := insert (fun i => Follow.mk i (User.id me) (User.id target))
                    (follows d)).
  set (n1 := insert (fun i => Notification.mk i (User.id target)
                                (Some (User.id me)) Notification.follow None)
                    (notifications d)).
  exists (with_notifications (with_follows d f1) n1).
  exists (with_follows (with_notifications (with_follows d f1) n1)
            (delete (is_follow (User.id me) (User.id target)) f1)).
  split.
  { unfold follow. rewrite Hneb, Ht, Hnb, Hnf.
    unfold commit, and_then. rewrite insert_follow_ok by assumption.
    rewrite insert_notification_ok; auto. }
  split; [reflexivity|]. split; [reflexivity|].
  split.
  { unfold follow. rewrite Hneb. cbn [users with_notifications with_follows
      blocks follows]. rewrite Ht, Hnb.
    assert (Ex : exists_row (is_follow (User.id me) (User.id target)) f1
                 = true).
    { unfold f1. rewrite exists_row_insert, is_follow_refl.
      apply orb_true_r. }
    rewrite Ex. reflexivity. }
  split; [|reflexivity].
  cbn [follows with_follows]. unfold f1.
  apply delete_inserted; auto. apply is_follow_refl.
Qed.

Lemma follow_then_unfollow_witness :
  exists d1 d2,
    follow Demo.state (Some Demo.alice) (User.id Demo.bob)
    = (d1, redirect (Some ("Following @" ++ User.username Demo.bob ++ "!",
                           "success")%string))
    /\ rows (follows d1)
       = (rows (follows Demo.state)
          ++ [Follow.mk (next_rowid (follows Demo.state)) (User.id Demo.alice)
                        (User.id Demo.bob)])%list
    /\ rows (notifications d1)
       = (rows (notifications Demo.state)
          ++ [Notification.mk (next_rowid (notifications Demo.state))
                              (User.id Demo.bob) (Some (User.id Demo.alice))
                              Notification.follow None])%list
    /\ follow d1 (Some Demo.alice) (User.id Demo.bob)
       = (d2, redirect (Some ("Unfollowed @" ++ User.username Demo.bob,
                              "info")%string))
    /\ rows (follows d2) = rows (follows Demo.state)
    /\ notifications d2 = notifications d1.
Proof.
  apply (follow_then_unfollow Demo.state Demo.alice Demo.bob).
  - unfold logged_in; simpl; auto.
  - reflexivity.
  - simpl; lia.
  - reflexivity.
  - reflexivity.
Defined.

(** A like, a repost or a reply (whose text names nobody) on a live post
    of another user appends exactly one notification: for the author of the
    post, from the acting user, of the kind of the action and about the
    post acted on. *)
Theorem fan_out_to_author (d : db) (me : User.t) (pid : nat) (p : Post.t) :
  logged_in d me ->
  fetchone (live_post pid) (posts d) = Some p ->
  has_author d p = true ->
  Post.user_id p <> User.id me ->
  let notice k :=
    Notification.mk (next_rowid (notifications d)) (Post.user_id p)
                    (Some (User.id me)) k (Some pid) in
  (forall j,
     exists_row (is_like (User.id me) pid) (likes d) = false ->
     rows (notifications (fst (like_post d (Some me) pid j)))
     = (rows (notifications d) ++ [notice Notification.like])%list)
  /\ (forall now,
        fetchone (is_repost_of (User.id me) pid) (posts d) = None ->
        rows (notifications (fst (repost d (Some me) pid now)))
        = (rows (notifications d) ++ [notice Notification.repost])%list)
  /\ (forall content now,
        1 <= String.length content <= 500 ->
        extract_mentions content = [] ->
        rows (notifications (fst (reply d (Some me) pid content now)))
        = (rows (notifications d) ++ [notice Notification.reply])%list).
Proof.
  intros Hme Hp Hau Hne notice.
  pose proof (logged_in_exists d me Hme) as Eme.
  pose proof (live_post_exists d pid p Hp) as Epost.
  assert (Hneb : (Post.user_id p =? User.id me) = false)
    by now apply Nat.eqb_neq.
  split; [|split].
  - intros j Hnl. unfold like_post.
    rewrite Hp, (fetchone_absent _ _ Hnl).
    unfold commit, and_then. rewrite (insert_like_ok d _ _ Eme Epost Hnl).
    rewrite Hneb. unfold when; cbn [negb].
    rewrite insert_notification_ok; auto.
  - intros now Hnr. unfold repost. rewrite Hp, Hnr.
    unfold commit, and_then.
    rewrite insert_post_ok; auto; [|simpl; lia].
    rewrite Hneb. unfold when; cbn [negb].
    rewrite insert_notification_ok; auto.
    cbn [ref_ok]. unfold post_exists. cbn [posts with_posts].
    rewrite exists_row_insert. unfold post_exists in Epost.
    now rewrite Epost.
  - intros content now [Hlo Hhi] Hnm. unfold reply. rewrite Hp.
    assert (E0 : (String.length content =? 0) = false)
      by (apply Nat.eqb_neq; lia).
    assert (E5 : (500 <? String.length content) = false)
      by (apply Nat.ltb_ge; lia).
    rewrite E0, E5, Hneb. cbn [orb negb].
    unfold and_then. rewrite insert_post_ok; auto.
    unfold when. rewrite insert_notification_ok; auto.
    + rewrite Hnm. reflexivity.
    + cbn [ref_ok]. unfold post_exists. cbn [posts with_posts].
      rewrite exists_row_insert. unfold post_exists in Epost.
      now rewrite Epost.
Qed.

Lemma fan_out_to_author_witness :
  let notice k :=
    Notification.mk (next_rowid (notifications Demo.state))
                    (Post.user_id Demo.p1) (Some (User.id Demo.bob)) k
                    (Some 1) in
  (forall j,
     exists_row (is_like (User.id Demo.bob) 1) (likes Demo.state) = false ->
     rows (notifications (fst (like_post Demo.state (Some Demo.bob) 1 j)))
     = (rows (notifications Demo.state) ++ [notice Notification.like])%list)
  /\ (forall now,
        fetchone (is_repost_of (User.id Demo.bob) 1) (posts Demo.state)
        = None ->
        rows (notifications (fst (repost Demo.state (Some Demo.bob) 1 now)))
        = (rows (notifications Demo.state)
           ++ [notice Notification.repost])%list)
  /\ (forall content now,
        1 <= String.length content <= 500 ->
        extract_mentions content = [] ->
        rows (notifications
                (fst (reply Demo.state (Some Demo.bob) 1 content now)))
        = (rows (notifications Demo.state)
           ++ [notice Notification.reply])%list).
Proof.
  apply (fan_out_to_author Demo.state Demo.bob 1 Demo.p1).
  - unfold logged_in; simpl; auto.
  - reflexivity.
  - reflexivity.
  - simpl; lia.
Defined.

(* ===================================================================== *)
(** * The post id of a mention in a reply *)
(* ===================================================================== *)

Lemma insert_notification_some (u : nat) (a : option nat)
    (k : Notification.kind) (p : option nat) (d d' : db) :
  insert_notification u a k p d = Some d' ->
  d' = with_notifications d
         (insert (fun i => Notification.mk i u a k p) (notifications d)).
Proof.
  unfold insert_notification. intros E. run_primitive E. reflexivity.
Qed.

(** Whatever the mention loop commits are mention notifications that
    record the post id it was given. *)
Lemma notify_mentions_rows (me pid : nat) (ms : list string) :
  forall d d',
    notify_mentions me pid ms d = Some d' ->
    exists t extra,
      d' = with_notifications d t
      /\ rows t = (rows (notifications d) ++ extra)%list
      /\ Forall (mention_about me pid) extra.
Proof.
  induction ms as [|m rest IH]; intros d d' E.
  - injection E as <-. exists (notifications d), [].
    rewrite app_nil_r. repeat split; auto. destruct d; reflexivity.
  - cbn [notify_mentions] in E. unfold and_then in E.
    destruct (user_by_name d m) as [u|]; [|now apply IH].
    destruct (negb (User.id u =? me)); unfold when, skip in E;
      [|now apply IH].
    destruct (insert_notification (User.id u) (Some me)
                Notification.mention (Some pid) d) as [d1|] eqn:E1;
      [|discriminate].
    apply insert_notification_some in E1. subst d1.
    apply IH in E as [t [extra [-> [R F]]]].
    exists t,
      (Notification.mk (next_rowid (notifications d)) (User.id u)
                       (Some me) Notification.mention (Some pid) :: extra).
    split; [reflexivity|]. split.
    + rewrite R. cbn [notifications with_notifications].
      unfold insert; simpl. now rewrite <- app_assoc.
    + constructor; auto. repeat split.
Qed.

(** The loop stops with an integrity error at the first handle of another
    user when no post has the id it is to record. *)
Lemma notify_mentions_fails (me pid : nat) (ms : list string) (d : db) :
  post_exists d pid = false ->
  (exists m u, In m ms /\ user_by_name d m = Some u /\ User.id u <> me) ->
  notify_mentions me pid ms d = None.
Proof.
  intros Hno. induction ms as [|m0 rest IH]; intros [m [u [Hm [Eu Hu]]]].
  - destruct Hm.
  - cbn [notify_mentions]. unfold and_then.
    destruct (user_by_name d m0) as [u0|] eqn:E0.
    + destruct (User.id u0 =? me) eqn:Eid; unfold when, skip; cbn [negb].
      * apply IH. destruct Hm as [->|Hm]; [|eauto].
        rewrite E0 in Eu. injection Eu as ->.
        apply Nat.eqb_eq in Eid. contradiction.
      * unfold insert_notification. cbn [ref_ok]. rewrite Hno.
        now rewrite !andb_false_r.
    + apply IH. destruct Hm as [->|Hm]; [congruence | eauto].
Qed.

Lemma reply_first_commit (d : db) (me : User.t) (pid now : nat)
    (content : string) (p : Post.t) :
  logged_in d me ->
  fetchone (live_post pid) (posts d) = Some p ->
  has_author d p = true ->
  Post.user_id p <> User.id me ->
  1 <= String.length content <= 500 ->
  let d1 :=
    with_notifications
      (with_posts d
         (insert (fun i => Post.mk i (User.id me) content (Some pid) None
                                   None false false now) (posts d)))
      (insert (fun i => Notification.mk i (Post.user_id p)
                          (Some (User.id me)) Notification.reply (Some pid))
              (notifications d)) in
  reply d (Some me) pid content now
  = commit d1
      (notify_mentions (User.id me) (next_rowid (notifications d))
                       (extract_mentions content))
      (fun _ => redirect (Some ("Reply posted!", "success")%string)).
Proof.
  intros Hme Hp Hau Hne [Hlo Hhi] d1.
  pose proof (logged_in_exists d me Hme) as Eme.
  pose proof (live_post_exists d pid p Hp) as Epost.
  assert (Hneb : (Post.user_id p =? User.id me) = false)
    by now apply Nat.eqb_neq.
  unfold reply. rewrite Hp.
  assert (E0 : (String.length content =? 0) = false)
    by (apply Nat.eqb_neq; lia).
  assert (E5 : (500 <? String.length content) = false)
    by (apply Nat.ltb_ge; lia).
  rewrite E0, E5, Hneb. cbn [orb negb].
  unfold and_then. rewrite insert_post_ok; auto.
  unfold when. rewrite insert_notification_ok; auto.
  cbn [ref_ok]. unfold post_exists. cbn [posts with_posts].
  rewrite exists_row_insert. unfold post_exists in Epost. now rewrite Epost.
Qed.

(** In a committed reply to a post of another user, every mention
    notification records the rowid of the reply notification, which is the
    last row inserted when [last_insert_rowid()] is read, while the reply
    itself is the post with the next rowid of the posts table. *)
Theorem reply_mentions_record_notification_id
    (d d' : db) (me : User.t) (pid now : nat) (content : string)
    (p : Post.t) :
  logged_in d me ->
  fetchone (live_post pid) (posts d) = Some p ->
  has_author d p = true ->
  Post.user_id p <> User.id me ->
  1 <= String.length content <= 500 ->
  reply d (Some me) pid content now
  = (d', redirect (Some ("Reply posted!", "success")%string)) ->
  let notice :=
    Notification.mk (next_rowid (notifications d)) (Post.user_id p)
                    (Some (User.id me)) Notification.reply (Some pid) in
  exists extra,
    rows (notifications d')
    = (rows (notifications d) ++ notice :: extra)%list
    /\ Forall (mention_about (User.id me) (Notification.id notice)) extra
    /\ rows (posts d')
       = (rows (posts d)
          ++ [Post.mk (next_rowid (posts d)) (User.id me) content (Some pid)
                      None None false false now])%list.
Proof.
  intros Hme Hp Hau Hne Hlen E notice.
  rewrite (reply_first_commit d me pid now content p) in E by assumption.
  unfold commit in E.
  match type of E with
  | match ?t with _ => _ end = _ => destruct t as [d2|] eqn:E2
  end; [|discriminate].
  injection E as <-.
  apply notify_mentions_rows in E2 as [t [extra [-> [R F]]]].
  exists extra. cbn [notifications posts with_notifications with_posts].
  split; [|split; [exact F | reflexivity]].
  rewrite R. cbn [notifications with_notifications].
  unfold insert; simpl. now rewrite <- app_assoc.
Qed.

(** When the text of a reply to another user's post names a third user and
    no post has the rowid of the reply notification, the reply and its
    notification are committed and the request then ends in a server
    error: the mention cannot be inserted. *)
Theorem reply_fails_after_commit
    (d : db) (me : User.t) (pid now : nat) (content : string) (p : Post.t) :
  logged_in d me ->
  fetchone (live_post pid) (posts d) = Some p ->
  has_author d p = true ->
  Post.user_id p <> User.id me ->
  1 <= String.length content <= 500 ->
  (exists m u, In m (extract_mentions content)
               /\ user_by_name d m = Some u /\ User.id u <> User.id me) ->
  post_exists d (next_rowid (notifications d)) = false ->
  next_rowid (notifications d) <> next_rowid (posts d) ->
  exists d1,
    reply d (Some me) pid content now = (d1, server_error)
    /\ rows (posts d1)
       = (rows (posts d)
          ++ [Post.mk (next_rowid (posts d)) (User.id me) content (Some pid)
                      None None false false now])%list
    /\ rows (notifications d1)
       = (rows (notifications d)
          ++ [Notification.mk (next_rowid (notifications d))
                              (Post.user_id p) (Some (User.id me))
                              Notification.reply (Some pid)])%list.
Proof.
  intros Hme Hp Hau Hne Hlen Hm Hno Hdiff.
  rewrite (reply_first_commit d me pid now content p) by assumption.
  assert (F : forall d1,
             post_exists d1 (next_rowid (notifications d)) = false ->
             users d1 = users d ->
             commit d1
               (notify_mentions (User.id me) (next_rowid (notifications d))
                                (extract_mentions content))
               (fun _ => redirect (Some ("Reply posted!", "success")%string))
             = (d1, server_error)).
  { intros d1 Hno1 Hu. unfold commit.
    rewrite notify_mentions_fails; auto.
    destruct Hm as [m [u [Hin [Eu Hu']]]]. exists m, u.
    repeat split; auto. unfold user_by_name in *. now rewrite Hu. }
  eexists. split; [apply F|split; reflexivity].
  - unfold post_exists. cbn [posts with_posts with_notifications].
    rewrite exists_row_insert. unfold post_exists in Hno. rewrite Hno.
    cbn [orb Post.id]. apply Nat.eqb_neq. congruence.
  - reflexivity.
Qed.

Lemma reply_mentions_record_notification_id_witness :
  let d' := fst (reply Demo.state (Some Demo.bob) 1 "@carol look" 20) in
  let notice :=
    Notification.mk (next_rowid (notifications Demo.state))
                    (Post.user_id Demo.p1) (Some (User.id Demo.bob))
                    Notification.reply (Some 1) in
  exists extra,
    rows (notifications d')
    = (rows (notifications Demo.state) ++ notice :: extra)%list
    /\ Forall (mention_about (User.id Demo.bob) (Notification.id notice))
              extra
    /\ rows (posts d')
       = (rows (posts Demo.state)
          ++ [Post.mk (next_rowid (posts Demo.state)) (User.id Demo.bob)
                      "@carol look" (Some 1) None None false false 20])%list.
Proof.
  apply (reply_mentions_record_notification_id Demo.state
           (fst (reply Demo.state (Some Demo.bob) 1 "@carol look" 20))
           Demo.bob 1 20 "@carol look" Demo.p1).
  - unfold logged_in; simpl; auto.
  - reflexivity.
  - reflexivity.
  - simpl; lia.
  - simpl; lia.
  - reflexivity.
Defined.

Lemma reply_fails_after_commit_witness :
  exists d1,
    reply busy (Some Demo.bob) 1 "@carol look" 20 = (d1, server_error)
    /\ rows (posts d1)
       = (rows (posts busy)
          ++ [Post.mk (next_rowid (posts busy)) (User.id Demo.bob)
                      "@carol look" (Some 1) None None false false 20])%list
    /\ rows (notifications d1)
       = (rows (notifications busy)
          ++ [Notification.mk (next_rowid (notifications busy))
                              (Post.user_id Demo.p1)
                              (Some (User.id Demo.bob))
                              Notification.reply (Some 1)])%list.
Proof.
  apply (reply_fails_after_commit busy Demo.bob 1 20 "@carol look" Demo.p1).
  - unfold logged_in; vm_compute; auto.
  - vm_compute; reflexivity.
  - vm_compute; reflexivity.
  - vm_compute; lia.
  - vm_compute; lia.
  - exists "carol"%string, Demo.carol. repeat split.
    + vm_compute; auto.
    + vm_compute; lia.
  - vm_compute; reflexivity.
  - vm_compute; lia.
Defined.

(* ===================================================================== *)
(** * Muting and unblocking *)
(* ===================================================================== *)

Lemma is_mute_refl (i a b : nat) : is_mute a b (Mute.mk i a b) = true.
Proof. unfold is_mute; simpl. now rewrite !Nat.eqb_refl. Qed.

Lemma feed_rows_ext (d d' : db) (w : nat) :
  users d' = users d -> posts d' = posts d ->
  follows d' = follows d -> blocks d' = blocks d ->
  (forall a, exists_row (is_mute w a) (mutes d')
             = exists_row (is_mute w a) (mutes d)) ->
  feed_rows d' w = feed_rows d w.
Proof.
  intros U P F B M. unfold feed_rows, has_author, user_exists, in_feed.
  rewrite U, P, F, B. f_equal. apply filter_ext. intros p.
  now rewrite M.
Qed.

(** Muting writes the mute row and nothing else: no notification, no
    change to follows.  From then on no page of the muter's home timeline
    shows a post of the muted user, while everybody else's timeline and
    every profile listing are what they were; a second call removes the
    row and gives every timeline back. *)
Theorem mute_hides_from_muter_only (d : db) (me target : User.t) :
  logged_in d me -> logged_in d target ->
  User.id me <> User.id target ->
  exists_row (is_mute (User.id me) (User.id target)) (mutes d) = false ->
  exists d1 d2,
    mute_user d (Some me) (User.id target) = (d1, redirect None)
    /\ notifications d1 = notifications d /\ follows d1 = follows d
    /\ (forall page per_page q,
          In q (shown (get_feed_posts d1 me page per_page)) ->
          Post.user_id q <> User.id target)
    /\ (forall w, w <> User.id me -> feed_rows d1 w = feed_rows d w)
    /\ (forall s, profile_rows d1 s = profile_rows d s)
    /\ mute_user d1 (Some me) (User.id target) = (d2, redirect None)
    /\ rows (mutes d2) = rows (mutes d)
    /\ (forall w, feed_rows d2 w = feed_rows d w).
Proof.
  intros Hme Ht Hne Hnm.
  pose proof (logged_in_exists d me Hme) as Eme.
  pose proof (logged_in_exists d target Ht) as Et.
  assert (Hneb : (User.id me =? User.id target) = false)
    by now apply Nat.eqb_neq.
  set (m1 := insert (fun i => Mute.mk i (User.id me) (User.id target))
                    (mutes d)).
  assert (Ex : exists_row (is_mute (User.id me) (User.id target)) m1 = true).
  { unfold m1. rewrite exists_row_insert, is_mute_refl. apply orb_true_r. }
  assert (Back : rows (delete (is_mute (User.id me) (User.id target)) m1)
                 = rows (mutes d)).
  { unfold m1. apply delete_inserted; auto. apply is_mute_refl. }
  exists (with_mutes d m1).
  exists (with_mutes (with_mutes d m1)
            (delete (is_mute (User.id me) (User.id target)) m1)).
  split.
  { unfold mute_user. rewrite Hneb, Hnm.
    unfold commit, insert_mute. now rewrite Eme, Et, Hnm. }
  split; [reflexivity|]. split; [reflexivity|].
  split.
  { intros page per_page q Hq.
    unfold get_feed_posts in Hq. rewrite shown_enrich in Hq.
    apply limit_offset_incl, in_feed_rows in Hq as [_ [_ Hf]].
    intros E. unfold in_feed in Hf. cbn [mutes with_mutes] in Hf.
    rewrite E, Ex in Hf. rewrite andb_false_r in Hf. discriminate. }
  split.
  { intros w Hw. apply feed_rows_ext; try reflexivity.
    intros a. cbn [mutes with_mutes]. unfold m1.
    rewrite exists_row_insert. unfold is_mute at 2; simpl.
    apply Nat.eqb_neq in Hw. rewrite Nat.eqb_sym in Hw. rewrite Hw.
    simpl. apply orb_false_r. }
  split; [reflexivity|].
  split.
  { unfold mute_user. rewrite Hneb. cbn [mutes with_mutes].
    rewrite Ex. reflexivity. }
  split; [exact Back|].
  intros w. apply feed_rows_ext; try reflexivity.
  intros a. cbn [mutes with_mutes]. unfold exists_row. now rewrite Back.
Qed.

Lemma mute_hides_from_muter_only_witness :
  exists d1 d2,
    mute_user Demo.state (Some Demo.bob) (User.id Demo.alice)
    = (d1, redirect None)
    /\ notifications d1 = notifications Demo.state
    /\ follows d1 = follows Demo.state
    /\ (forall page per_page q,
          In q (shown (get_feed_posts d1 Demo.bob page per_page)) ->
          Post.user_id q <> User.id Demo.alice)
    /\ (forall w, w <> User.id Demo.bob ->
                  feed_rows d1 w = feed_rows Demo.state w)
    /\ (forall s, profile_rows d1 s = profile_rows Demo.state s)
    /\ mute_user d1 (Some Demo.bob) (User.id Demo.alice)
       = (d2, redirect None)
    /\ rows (mutes d2) = rows (mutes Demo.state)
    /\ (forall w, feed_rows d2 w = feed_rows Demo.state w).
Proof.
  apply (mute_hides_from_muter_only Demo.state Demo.bob Demo.alice).
  - unfold logged_in; simpl; auto.
  - unfold logged_in; simpl; auto.
  - simpl; lia.
  - reflexivity.
Defined.

(** Blocking and then unblocking brings the blocks table back, but not the
    follow edges that the block removed; once the block is gone, a follow
    by the former blocker is accepted again. *)
Theorem unblock_keeps_follows_removed (d : db) (a b : User.t) :
  logged_in d a ->
  fetchone (fun u => User.id u =? User.id b) (users d) = Some b ->
  User.id a <> User.id b ->
  exists_row (either_block (User.id a) (User.id b)) (blocks d) = false ->
  exists d1 d2 d3,
    block_user d (Some a) (User.id b) = (d1, redirect None)
    /\ block_user d1 (Some a) (User.id b) = (d2, redirect None)
    /\ rows (blocks d2) = rows (blocks d)
    /\ follows d2 = follows d1
    /\ exists_row (either_follow (User.id a) (User.id b)) (follows d2)
       = false
    /\ follow d2 (Some a) (User.id b)
       = (d3, redirect (Some ("Following @" ++ User.username b ++ "!",
                              "success")%string))
    /\ exists_row (is_follow (User.id a) (User.id b)) (follows d3) = true.
Proof.
  intros Ha Hb Hne Hnb.
  pose proof (logged_in_exists d a Ha) as Ea.
  assert (Eb : user_exists d (User.id b) = true)
    by (unfold user_exists; now rewrite fetchone_exists, Hb).
  pose proof Hnb as Hnb'. rewrite exists_either_block in Hnb'.
  apply orb_false_iff in Hnb' as [Hab Hba].
  assert (Hneb : (User.id a =? User.id b) = false) by now apply Nat.eqb_neq.
  set (b1 := insert (fun i => Block.mk i (User.id a) (User.id b)) (blocks d)).
  set (f1 := delete (either_follow (User.id a) (User.id b)) (follows d)).
  set (b2 := delete (is_block (User.id a) (User.id b)) b1).
  assert (Ex : exists_row (is_block (User.id a) (User.id b)) b1 = true).
  { unfold b1. rewrite exists_row_insert, is_block_refl. apply orb_true_r. }
  assert (Back : rows b2 = rows (blocks d)).
  { unfold b2, b1. apply delete_inserted; auto. apply is_block_refl. }
  assert (Nf : exists_row (either_follow (User.id a) (User.id b)) f1 = false)
    by apply exists_row_delete_same.
  assert (Nf' : exists_row (is_follow (User.id a) (User.id b)) f1 = false).
  { apply exists_row_delete_weaker. intros f E. unfold either_follow.
    now rewrite E. }
  set (d2 := Db (users d) (posts d) (likes d) f1 b2 (mutes d)
                (notifications d) (community_notes d)
                (community_note_ratings d)).
  eexists. exists d2. eexists.
  split; [now apply block_user_inserts|].
  split.
  { unfold block_user. rewrite Hneb. cbn [blocks]. fold b1. rewrite Ex.
    reflexivity. }
  split; [exact Back|]. split; [reflexivity|]. split; [exact Nf|].
  assert (Hnb2 : exists_row (either_block (User.id a) (User.id b))
                            (blocks d2) = false).
  { unfold exists_row in *. cbn [blocks d2]. now rewrite Back. }
  split.
  - unfold follow. rewrite Hneb. cbn [users d2]. rewrite Hb, Hnb2.
    cbn [follows d2]. rewrite Nf'.
    unfold commit, and_then. rewrite insert_follow_ok; auto.
    rewrite insert_notification_ok; auto.
  - cbn [follows with_follows with_notifications d2].
    rewrite exists_row_insert, is_follow_refl. apply orb_true_r.
Qed.

Lemma unblock_keeps_follows_removed_witness :
  exists d1 d2 d3,
    block_user Demo.state (Some Demo.alice) (User.id Demo.bob)
    = (d1, redirect None)
    /\ block_user d1 (Some Demo.alice) (User.id Demo.bob)
       = (d2, redirect None)
    /\ rows (blocks d2) = rows (blocks Demo.state)
    /\ follows d2 = follows d1
    /\ exists_row (either_follow (User.id Demo.alice) (User.id Demo.bob))
                  (follows d2) = false
    /\ follow d2 (Some Demo.alice) (User.id Demo.bob)
       = (d3, redirect (Some ("Following @" ++ User.username Demo.bob ++ "!",
                              "success")%string))
    /\ exists_row (is_follow (User.id Demo.alice) (User.id Demo.bob))
                  (follows d3) = true.
Proof.
  apply (unblock_keeps_follows_removed Demo.state Demo.alice Demo.bob).
  - unfold logged_in; simpl; auto.
  - reflexivity.
  - simpl; lia.
  - reflexivity.
Defined.

(* ===================================================================== *)
(** * Pages of the home timeline *)
(* ===================================================================== *)

Lemma firstn_add {A} (a b : nat) (l : list A) :
  firstn (a + b) l = (firstn a l ++ firstn b (skipn a l))%list.
Proof.
  revert l. induction a as [|a IH]; intros l; [reflexivity|].
  destruct l as [|x l]; simpl.
  - now rewrite firstn_nil.
  - now rewrite IH.
Qed.

Lemma home_page_window (d : db) (u : User.t) (per_page : Z) (k : nat) :
  (0 <= per_page)%Z ->
  home_page d u per_page k
  = firstn (Z.to_nat per_page)
           (skipn (k * Z.to_nat per_page) (feed_rows d (User.id u))).
Proof.
  intros Hp. unfold home_page, get_feed_posts. rewrite shown_enrich.
  unfold limit_offset.
  destruct (per_page <? 0)%Z eqn:E; [apply Z.ltb_lt in E; lia|].
  replace (Z.to_nat ((Z.of_nat (S k) - 1) * per_page))
    with (k * Z.to_nat per_page); [reflexivity|].
  replace (Z.of_nat (S k) - 1)%Z with (Z.of_nat k) by lia.
  rewrite Z2Nat.inj_mul by lia. now rewrite Nat2Z.id.
Qed.

(** With a page size that is not negative, every page number below 1 gives
    the first page, and the pages 1 to n, put one after the other, are the
    first n times page-size posts of the listing: no post between two pages
    is left out and none comes twice.  The limit and the offsets are
    integers of 64 bits, which is what SQLite can bind. *)
Theorem home_pages_tile (d : db) (u : User.t) (per_page : Z) :
  (0 <= per_page < 2 ^ 63)%Z ->
  (forall page, (page <= 1)%Z -> (- 2 ^ 63 <= (page - 1) * per_page)%Z ->
     get_feed_posts d u page per_page = get_feed_posts d u 1 per_page)
  /\ (forall n, (Z.of_nat n * per_page < 2 ^ 63)%Z ->
        List.concat (map (home_page d u per_page) (List.seq 0 n))
        = firstn (n * Z.to_nat per_page) (feed_rows d (User.id u))).
Proof.
  intros Hp. split.
  - intros page Hpage _. unfold get_feed_posts, limit_offset.
    replace (Z.to_nat ((page - 1) * per_page)) with 0 by nia.
    replace (Z.to_nat ((1 - 1) * per_page)) with 0 by lia.
    reflexivity.
  - induction n as [|n IH]; intros Hn; [reflexivity|].
    rewrite seq_S, map_app, concat_app, IH by nia. simpl.
    rewrite app_nil_r, home_page_window by lia.
    replace (Z.to_nat per_page + n * Z.to_nat per_page)
      with (n * Z.to_nat per_page + Z.to_nat per_page) by lia.
    now rewrite firstn_add.
Qed.

Lemma home_pages_tile_witness :
  (forall page, (page <= 1)%Z -> (- 2 ^ 63 <= (page - 1) * 2)%Z ->
     get_feed_posts Demo.state Demo.alice page 2
     = get_feed_posts Demo.state Demo.alice 1 2)
  /\ (forall n, (Z.of_nat n * 2 < 2 ^ 63)%Z ->
        List.concat (map (home_page Demo.state Demo.alice 2) (List.seq 0 n))
        = firstn (n * Z.to_nat 2) (feed_rows Demo.state (User.id Demo.alice))).
Proof.
  apply (home_pages_tile Demo.state Demo.alice 2). lia.
Defined.

(* ===================================================================== *)
(** * Reposting and taking the repost back *)
(* ===================================================================== *)

Lemma fetchone_insert_old {A} `{Keyed A} (c : A -> bool) (mk : nat -> A)
    (t : table A) (x : A) :
  fetchone c t = Some x -> fetchone c (insert mk t) = Some x.
Proof.
  unfold fetchone, insert; simpl.
  induction (rows t) as [|y l IH]; simpl; [discriminate|].
  destruct (c y); auto.
Qed.

Lemma no_row_with_next_id (d : db) :
  post_exists d (next_rowid (posts d)) = false.
Proof.
  apply exists_row_none. intros x Hx. apply Nat.eqb_neq.
  pose proof (next_rowid_fresh (posts d) x Hx) as F.
  change (Post.id x < next_rowid (posts d)) in F.
  intros E. rewrite E in F. exact (Nat.lt_irrefl _ F).
Qed.

(** Nulling the references to an id that no row refers to changes nothing. *)
Lemma forget_unreferenced (d : db) (n : nat) (p : Post.t) :
  posts_refer_to_posts d -> post_exists d n = false ->
  In p (rows (posts d)) -> Post.forget n p = p.
Proof.
  intros R Hn Hp. destruct (R p Hp) as [R1 [R2 R3]].
  assert (K : forall o, ref_ok (post_exists d) o = true -> null_if n o = o).
  { intros [m|] Ho; [|reflexivity]. unfold null_if, opt_eqb.
    destruct (m =? n) eqn:E; [|reflexivity].
    apply Nat.eqb_eq in E. subst m. simpl in Ho. congruence. }
  destruct p; unfold Post.forget; simpl in *.
  now rewrite (K _ R1), (K _ R2), (K _ R3).
Qed.

(** A repost of a live post writes an empty post that refers to it; a
    second call by the same user deletes that row again: the posts table
    has the rows it had, the repost count of the post is back, and the
    rowid of the deleted repost is not given out again. *)
Theorem repost_then_remove
    (d : db) (me : User.t) (pid now later : nat) (p : Post.t) :
  logged_in d me ->
  fetchone (live_post pid) (posts d) = Some p ->
  has_author d p = true ->
  posts_refer_to_posts d ->
  fetchone (is_repost_of (User.id me) pid) (posts d) = None ->
  exists d1 d2,
    repost d (Some me) pid now
    = (d1, redirect (Some ("Rechirped!", "success")%string))
    /\ repost_count d1 pid = S (repost_count d pid)
    /\ repost d1 (Some me) pid later
       = (d2, redirect (Some ("Rechirp removed.", "info")%string))
    /\ rows (posts d2) = rows (posts d)
    /\ repost_count d2 pid = repost_count d pid
    /\ next_rowid (posts d2) = S (next_rowid (posts d)).
Proof.
  intros Hme Hp Hau Href Hnone.
  pose proof (logged_in_exists d me Hme) as Eme.
  pose proof (live_post_exists d pid p Hp) as Epost.
  set (mk := fun i => Post.mk i (User.id me) EmptyString None (Some pid)
                              None false false now).
  set (n := next_rowid (posts d)).
  set (t1 := insert mk (posts d)).
  assert (Hrep : is_repost_of (User.id me) pid (mk n) = true).
  { unfold is_repost_of; simpl. now rewrite !Nat.eqb_refl. }
  assert (Found : fetchone (is_repost_of (User.id me) pid) t1
                  = Some (mk n)).
  { apply fetchone_insert_new; auto. now apply fetchone_none. }
  assert (Live : fetchone (live_post pid) t1 = Some p)
    by now apply fetchone_insert_old.
  assert (Rows : rows (update (fun _ => true) (Post.forget n)
                         (delete (fun q => Post.id q =? n) t1))
                 = rows (posts d)).
  { unfold update. cbn [rows].
    replace (rows (delete (fun q => Post.id q =? n) t1))
      with (rows (posts d)).
    - rewrite <- (map_id (rows (posts d))) at 2. apply map_ext_in.
      intros x Hx. apply (forget_unreferenced d n x Href); auto.
      apply no_row_with_next_id.
    - symmetry. apply delete_inserted.
      + apply no_row_with_next_id.
      + simpl. apply Nat.eqb_refl. }
  assert (First : exists d1,
            repost d (Some me) pid now
            = (d1, redirect (Some ("Rechirped!", "success")%string))
            /\ users d1 = users d /\ posts d1 = t1).
  { unfold repost. rewrite Hp, Hnone. unfold commit, and_then.
    rewrite insert_post_ok; auto; [|simpl; lia].
    destruct (Post.user_id p =? User.id me); unfold when, skip; cbn [negb].
    - eexists. split; [reflexivity|]. split; reflexivity.
    - rewrite insert_notification_ok; auto.
      + eexists. split; [reflexivity|]. split; reflexivity.
      + cbn [ref_ok]. unfold post_exists. cbn [posts with_posts].
        rewrite exists_row_insert. unfold post_exists in Epost.
        now rewrite Epost. }
  destruct First as [d1 [E1 [U1 P1]]].
  exists d1. eexists.
  split; [exact E1|].
  split.
  { unfold repost_count. rewrite P1. unfold t1. rewrite count_insert.
    unfold mk; simpl. rewrite Nat.eqb_refl. lia. }
  split.
  { unfold repost. rewrite P1, Live, Found. unfold commit. reflexivity. }
  cbn [posts]. rewrite P1. fold n.
  change (Post.id (mk n)) with n.
  split; [exact Rows|]. split.
  - unfold repost_count, count. cbn [posts]. now rewrite Rows.
  - unfold next_rowid at 1. rewrite Rows.
    change (seq (update (fun _ => true) (Post.forget n)
                        (delete (fun p0 => Post.id p0 =? n) t1)))
      with n.
    pose proof (Nat.le_max_r (seq (posts d)) (max_id (rows (posts d)))).
    unfold n at 1 2. unfold next_rowid. lia.
Qed.

Lemma demo_posts_refer_to_posts : posts_refer_to_posts Demo.state.
Proof. intros p [<-|[<-|[<-|[]]]]; repeat split. Qed.

Lemma repost_then_remove_witness :
  exists d1 d2,
    repost Demo.state (Some Demo.bob) 1 20
    = (d1, redirect (Some ("Rechirped!", "success")%string))
    /\ repost_count d1 1 = S (repost_count Demo.state 1)
    /\ repost d1 (Some Demo.bob) 1 30
       = (d2, redirect (Some ("Rechirp removed.", "info")%string))
    /\ rows (posts d2) = rows (posts Demo.state)
    /\ repost_count d2 1 = repost_count Demo.state 1
    /\ next_rowid (posts d2) = S (next_rowid (posts Demo.state)).
Proof.
  apply (repost_then_remove Demo.state Demo.bob 1 20 30 Demo.p1).
  - unfold logged_in; simpl; auto.
  - reflexivity.
  - reflexivity.
  - exact demo_posts_refer_to_posts.
  - reflexivity.
Defined.

(* ===================================================================== *)
(** * The status of community notes under the handlers *)
(* ===================================================================== *)

Lemma notes_advance_refl (d : db) : notes_advance d d.
Proof. intros c Hc. exists c. repeat split; auto. Qed.

Lemma notes_frame (d0 d d' : db) :
  same_notes d d' -> notes_advance d0 d -> notes_advance d0 d'.
Proof. intros S N. unfold notes_advance, same_notes in *. now rewrite S. Qed.

Lemma framed_notes (d0 : db) (t : txn) :
  framed same_notes t -> preserves (notes_advance d0) t.
Proof. intros F d d' Hi E. eapply notes_frame; eauto. Qed.

Lemma notes_advance_update (d0 d : db) (c : Note.t -> bool)
    (f : Note.t -> Note.t) :
  (forall x, Note.id (f x) = Note.id x
             /\ Note.post_id (f x) = Note.post_id x
             /\ Note.author_id (f x) = Note.author_id x
             /\ (Note.status (f x) = Note.status x
                 \/ Note.status (f x) = Note.approved)) ->
  notes_advance d0 d ->
  notes_advance d0 (with_community_notes d (update c f (community_notes d))).
Proof.
  intros K N c' Hc'. cbn [community_notes with_community_notes] in Hc'.
  apply in_update in Hc' as [x [Hx ->]].
  destruct (N x Hx) as [c0 [H0 [Ei [Ep [Ea Es]]]]].
  exists c0. split; auto.
  destruct (c x); [|repeat split; auto].
  destruct (K x) as [Ki [Kp [Ka Ks]]].
  rewrite Ki, Kp, Ka. repeat split; auto.
  destruct Ks as [Ks|Ks]; rewrite Ks; auto.
Qed.

Lemma recount_advance (d0 : db) (nid : nat) :
  preserves (notes_advance d0) (recount nid).
Proof.
  intros d d' N E. rewrite recount_eq in E. injection E as <-.
  unfold notes_after. apply notes_advance_update; auto.
  intros x. unfold note_after.
  destruct (3 <=? count (rated nid Rating.helpful)
                        (community_note_ratings d)); simpl; auto 6.
Qed.

Lemma delete_post_row_advance (d0 : db) (pid : nat) :
  preserves (notes_advance d0) (delete_post_row pid).
Proof.
  intros d d' N E. injection E as <-. intros c Hc.
  cbn [community_notes] in Hc. unfold delete in Hc; simpl in Hc.
  apply filter_In in Hc as [Hc _]. exact (N c Hc).
Qed.

Lemma insert_notification_notes (u : nat) (a : option nat)
    (k : Notification.kind) (p : option nat) :
  framed same_notes (insert_notification u a k p).
Proof.
  intros d d' E. apply insert_notification_some in E. subst d'. reflexivity.
Qed.

Lemma notify_mentions_notes (me pid : nat) (ms : list string) :
  framed same_notes (notify_mentions me pid ms).
Proof.
  intros d d' E. apply notify_mentions_rows in E as [t [extra [-> _]]].
  reflexivity.
Qed.

Lemma handle_notes_advance (d0 d : db) (r : request) :
  notes_advance d0 d -> notes_advance d0 (fst (handle d r)).
Proof.
  intros Hi. unfold handle.
  destruct (before_request d (session_user_id r)) as [me|];
    destruct (act r) as [u|u|u|p j|p c now|p now|p|p|n s].
  all: unfold follow, block_user, mute_user, like_post, reply, repost,
         pin_post, delete_post, rate_community_note.
  all: split_handler; cbn [fst]; try exact Hi.
  all: try (apply preserves_commit; [|solve [eauto]]).
  all: repeat first
         [ apply preserves_and_then
         | apply preserves_when
         | apply preserves_skip
         | apply recount_advance
         | apply delete_post_row_advance
         | apply (framed_notes d0), insert_notification_notes
         | apply (framed_notes d0), notify_mentions_notes
         | apply framed_notes; solve_framed ].
  all: match goal with
       | H : notes_advance ?d00 ?d1, E : and_then _ _ ?d1 = Some ?d2 |- _ =>
           apply preserves_commit;
           [ apply framed_notes, notify_mentions_notes
           | refine ((_ : preserves (notes_advance d00) _) d1 d2 H E);
             apply preserves_and_then;
             [ apply framed_notes; solve_framed
             | apply preserves_when, framed_notes,
                 insert_notification_notes ] ]
       end.
Qed.

(** Over any sequence of follow, block, mute, like, reply, repost, pin,
    delete and rate requests, every community note that is there at the end
    was there at the start, on the same post and by the same author, and
    its status is the one it had or [approved]: no request rejects a note
    or takes an approval back. *)
Theorem notes_only_advance (rs : list request) (d : db) :
  notes_advance d (serve d rs)
  /\ (forall c c',
        In c (rows (community_notes d)) ->
        In c' (rows (community_notes (serve d rs))) ->
        NoDup (keys (rows (community_notes d))) ->
        Note.id c = Note.id c' ->
        Note.status c = Note.approved -> Note.status c' = Note.approved).
Proof.
  assert (G : forall rs d0 d, notes_advance d0 d ->
                              notes_advance d0 (serve d rs)).
  { clear. induction rs as [|r rs IH]; intros d0 d N; [exact N|].
    simpl. apply IH. now apply handle_notes_advance. }
  split; [apply G, notes_advance_refl|].
  intros c c' Hc Hc' Hk Eid Ha.
  destruct (G rs d d (notes_advance_refl d) c' Hc')
    as [c0 [H0 [Ei [_ [_ Es]]]]].
  assert (c0 = c).
  { apply (keyed_unique (rows (community_notes d))); auto.
    change (Note.id c0 = Note.id c). congruence. }
  subst c0. destruct Es as [Es|Es]; congruence.
Qed.

(* ===================================================================== *)
(** * Handles in a text *)
(* ===================================================================== *)

Lemma findall_at_marked (s : string) :
  forall st, Text.findall_at st s = findall_marked Text.is_at st s.
Proof.
  induction s as [|c s IH]; intros st; [reflexivity|].
  simpl. destruct st as [acc|]; [destruct (Text.is_word c)|];
    now rewrite ?IH.
Qed.

Lemma string_of_rev_cons (c : ascii) (acc : list ascii) (w : string) :
  (string_of_list_ascii (rev (c :: acc)) ++ w)%string
  = (string_of_list_ascii (rev acc) ++ String c w)%string.
Proof.
  simpl. induction (rev acc) as [|a l IH]; simpl; [reflexivity|].
  now rewrite IH.
Qed.

Lemma append_empty_r (s : string) : (s ++ "")%string = s.
Proof. induction s as [|c s IH]; simpl; [reflexivity | now rewrite IH]. Qed.

Lemma append_assoc (a b c : string) :
  ((a ++ b) ++ c)%string = (a ++ (b ++ c))%string.
Proof. induction a as [|x a IH]; simpl; [reflexivity | now rewrite IH]. Qed.

Lemma all_word_app (a b : string) :
  all_word (a ++ b) = all_word a && all_word b.
Proof.
  induction a as [|x a IH]; simpl; [reflexivity|].
  now rewrite IH, andb_assoc.
Qed.

Lemma all_word_of_list (l : list ascii) :
  all_word (string_of_list_ascii l) = forallb Text.is_word l.
Proof. induction l as [|x l IH]; simpl; [reflexivity | now rewrite IH]. Qed.

Lemma forallb_rev_word (l : list ascii) :
  forallb Text.is_word (rev l) = forallb Text.is_word l.
Proof.
  induction l as [|x l IH]; [reflexivity|].
  simpl. rewrite forallb_app, IH. simpl.
  rewrite andb_true_r. apply andb_comm.
Qed.

Lemma flush_sound (acc : list ascii) (h : string) :
  forallb Text.is_word acc = true ->
  In h (Text.flush (Some acc)) ->
  h = string_of_list_ascii (rev acc) /\ h <> EmptyString
  /\ all_word h = true.
Proof.
  intros W Hin. destruct acc as [|c acc]; [destruct Hin|].
  destruct Hin as [<-|[]]. split; [reflexivity|]. split.
  - simpl. destruct (rev acc); discriminate.
  - rewrite all_word_of_list, forallb_rev_word. exact W.
Qed.

(** What the scan returns: a handle still being read when the text began,
    or a word that stands after a marker in the text. *)
Lemma findall_marked_sound (mark : ascii -> bool) (s : string) :
  forall st h,
    (forall acc, st = Some acc -> forallb Text.is_word acc = true) ->
    In h (findall_marked mark st s) ->
    h <> EmptyString /\ all_word h = true
    /\ ((exists acc w rest,
           st = Some acc /\ s = (w ++ rest)%string
           /\ h = (string_of_list_ascii (rev acc) ++ w)%string)
        \/ marked_in mark h s).
Proof.
  induction s as [|c s IH]; intros st h W Hin.
  - destruct st as [acc|]; [|destruct Hin].
    destruct (flush_sound acc h (W acc eq_refl) Hin) as [E [N A]].
    split; auto. split; auto. left. exists acc, EmptyString, EmptyString.
    split; [reflexivity|]. split; [reflexivity|].
    now rewrite append_empty_r.
  - cbn [findall_marked] in Hin.
    assert (Fresh : forall h,
              In h (findall_marked mark (if mark c then Some [] else None) s)
              -> h <> EmptyString /\ all_word h = true
                 /\ marked_in mark h (String c s)).
    { intros h' Hin'. apply IH in Hin'.
      - destruct Hin' as [N [A [[acc [w [rest [Est [Es Eh]]]]]|M]]].
        + split; auto. split; auto.
          destruct (mark c) eqn:Mc; [|discriminate].
          injection Est as <-. simpl in Eh. subst h'.
          exists EmptyString, c, rest. simpl. now rewrite Es.
        + split; auto. split; auto.
          destruct M as [pre [c' [post [Es Mc']]]].
          exists (String c pre), c', post. simpl. now rewrite Es.
      - intros acc Eacc. destruct (mark c); [|discriminate].
        injection Eacc as <-. reflexivity. }
    destruct st as [acc|].
    + destruct (Text.is_word c) eqn:Wc.
      * apply IH in Hin.
        -- destruct Hin as [N [A [[acc' [w [rest [Est [Es Eh]]]]]|M]]];
             split; auto; split; auto.
           ++ left. injection Est as <-.
              exists acc, (String c w), rest. split; auto.
              split; [simpl; now rewrite Es|].
              now rewrite Eh, string_of_rev_cons.
           ++ right. destruct M as [pre [c' [post [Es Mc']]]].
              exists (String c pre), c', post. simpl. now rewrite Es.
        -- intros acc' Eacc. injection Eacc as <-. simpl.
           now rewrite Wc, (W acc eq_refl).
      * apply in_app_or in Hin as [Hin|Hin].
        -- destruct (flush_sound acc h (W acc eq_refl) Hin) as [E [N A]].
           split; auto. split; auto. left.
           exists acc, EmptyString, (String c s). simpl.
           rewrite append_empty_r. auto.
        -- destruct (Fresh h Hin) as [N [A M]]. auto.
    + destruct (Fresh h Hin) as [N [A M]]. auto.
Qed.

(** Every mention is a non-empty run of word characters that stands
    directly after an [@] in the text, and every hashtag one that stands
    directly after a [#]. *)
Theorem handles_are_marked_words (content h : string) :
  (In h (extract_mentions content) ->
   h <> EmptyString /\ all_word h = true
   /\ marked_in Text.is_at h content)
  /\ (In h (extract_hashtags content) ->
      h <> EmptyString /\ all_word h = true
      /\ marked_in is_hash h content).
Proof.
  assert (G : forall mark,
            In h (findall_marked mark None content) ->
            h <> EmptyString /\ all_word h = true
            /\ marked_in mark h content).
  { intros mark Hin.
    apply findall_marked_sound in Hin; [|discriminate].
    destruct Hin as [N [A [[acc [w [rest [Est _]]]]|M]]];
      [discriminate | auto]. }
  split; intros Hin.
  - unfold extract_mentions in Hin. apply nodup_In in Hin.
    rewrite findall_at_marked in Hin. now apply G.
  - unfold extract_hashtags in Hin. apply nodup_In in Hin. now apply G.
Qed.

(* ===================================================================== *)
(** * Polls *)
(* ===================================================================== *)

Lemma sum_map_add {A} (f g : A -> nat) (l : list A) :
  sum (map (fun i => f i + g i) l) = sum (map f l) + sum (map g l).
Proof.
  induction l as [|x l IH]; [reflexivity|].
  cbn [map sum fold_right] in *. fold (sum (map f l)) (sum (map g l)).
  fold (sum (map (fun i => f i + g i) l)). rewrite IH. lia.
Qed.

(** Exactly one index of a range is a given number of the range. *)
Lemma sum_one_index (i : Z) (n a : nat) :
  (Z.of_nat a <= i < Z.of_nat (a + n))%Z ->
  sum (map (fun k => if (i =? Z.of_nat k)%Z then 1 else 0) (List.seq a n))
  = 1.
Proof.
  revert a. induction n as [|n IH]; intros a Hi; [lia|].
  cbn [List.seq map sum fold_right].
  fold (sum (map (fun k => if (i =? Z.of_nat k)%Z then 1 else 0)
                 (List.seq (S a) n))).
  destruct (i =? Z.of_nat a)%Z eqn:E.
  - apply Z.eqb_eq in E.
    assert (Z : sum (map (fun k => if (i =? Z.of_nat k)%Z then 1 else 0)
                         (List.seq (S a) n)) = 0).
    { clear IH Hi. subst i. generalize (Nat.lt_succ_diag_r a).
      generalize (S a) as b. induction n as [|n IH]; intros b Hb;
        [reflexivity|].
      cbn [List.seq map sum fold_right].
      fold (sum (map (fun k => if (Z.of_nat a =? Z.of_nat k)%Z
                               then 1 else 0) (List.seq (S b) n))).
      rewrite IH by lia.
      destruct (Z.of_nat a =? Z.of_nat b)%Z eqn:E; [|reflexivity].
      apply Z.eqb_eq in E. lia. }
    now rewrite Z.
  - apply Z.eqb_neq in E. rewrite IH by lia. reflexivity.
Qed.

(** The votes of a poll, counted option by option, are all its votes when
    each of them is for one of the options. *)
Lemma count_by_option (n k : nat) (l : list PollVote.t) :
  (forall v, In v l -> PollVote.poll_id v = n ->
             (0 <= PollVote.option_index v < Z.of_nat k)%Z) ->
  sum (map (fun i => List.length (filter (votes_for n (Z.of_nat i)) l))
           (List.seq 0 k))
  = List.length (filter (fun v => PollVote.poll_id v =? n) l).
Proof.
  induction l as [|v l IH]; intros R.
  - cbn [filter List.length]. induction (List.seq 0 k) as [|x s IHs];
      [reflexivity | exact IHs].
  - assert (Rl : forall w, In w l -> PollVote.poll_id w = n ->
                   (0 <= PollVote.option_index w < Z.of_nat k)%Z)
      by (intros w Hw; apply R; now right).
    specialize (IH Rl). cbn [filter].
    destruct (PollVote.poll_id v =? n) eqn:E.
    + apply Nat.eqb_eq in E.
      pose proof (R v (or_introl eq_refl) E) as Hv.
      rewrite (map_ext
                 (fun i => List.length
                             (if votes_for n (Z.of_nat i) v
                              then v :: filter (votes_for n (Z.of_nat i)) l
                              else filter (votes_for n (Z.of_nat i)) l))
                 (fun i => (if (PollVote.option_index v =? Z.of_nat i)%Z
                            then 1 else 0)
                           + List.length
                               (filter (votes_for n (Z.of_nat i)) l))).
      * rewrite sum_map_add, IH, sum_one_index by (simpl; lia).
        reflexivity.
      * intros i. unfold votes_for at 1. rewrite E, Nat.eqb_refl.
        cbn [andb].
        destruct (PollVote.option_index v =? Z.of_nat i)%Z; reflexivity.
    + rewrite <- IH. apply f_equal, map_ext. intros i.
      unfold votes_for at 1. rewrite E. reflexivity.
Qed.

Lemma view_poll_adds_up (s : site) (g_user : option User.t) (n : nat)
    (row : Poll.t) :
  votes_in_range s ->
  fetchone (fun p => Poll.id p =? n) (polls s) = Some row ->
  sum (vote_counts (view_poll s g_user row))
  = total_votes (view_poll s g_user row).
Proof.
  intros R E. unfold view_poll; cbn [vote_counts total_votes]. unfold count.
  apply count_by_option. intros v Hv Ev.
  destruct (R v Hv) as [row' [E' Hr]].
  apply fetchone_some in E as En. destruct En as [_ En].
  apply Nat.eqb_eq in En. rewrite Ev, En in E'.
  rewrite E' in E. injection E as <-. exact Hr.
Qed.

Lemma vote_poll_in_range (s : site) (g : option User.t) (n : nat)
    (o : option Z) :
  votes_in_range s -> votes_in_range (fst (vote_poll s g n o)).
Proof.
  intros R. unfold vote_poll.
  destruct g as [me|]; [|exact R].
  destruct (fetchone (fun p => Poll.id p =? n) (polls s)) as [row|] eqn:E;
    [|exact R].
  destruct o as [i|]; [|exact R].
  destruct ((i <? 0)%Z
            || (Z.of_nat (List.length (Poll.options row)) <=? i)%Z) eqn:B;
    [exact R|].
  destruct (fetchone (is_vote n (User.id me)) (poll_votes s)); [exact R|].
  unfold insert_vote.
  destruct (poll_exists s n && user_exists (base s) (User.id me)
            && negb (exists_row (is_vote n (User.id me)) (poll_votes s)));
    [|exact R].
  cbn [fst]. intros v Hv. cbn [poll_votes with_poll_votes polls] in *.
  unfold insert in Hv; cbn [rows] in Hv.
  apply in_app_or in Hv as [Hv|[<-|[]]]; [exact (R v Hv)|].
  exists row. cbn [PollVote.poll_id PollVote.option_index].
  split; [exact E|].
  apply orb_false_iff in B as [B1 B2].
  apply Z.ltb_ge in B1. apply Z.leb_gt in B2. lia.
Qed.

Lemma vote_poll_unique (s : site) (g : option User.t) (n : nat)
    (o : option Z) :
  votes_unique s -> votes_unique (fst (vote_poll s g n o)).
Proof.
  intros U. unfold vote_poll.
  destruct g as [me|]; [|exact U].
  destruct (fetchone (fun p => Poll.id p =? n) (polls s)) as [row|];
    [|exact U].
  destruct o as [i|]; [|exact U].
  destruct ((i <? 0)%Z
            || (Z.of_nat (List.length (Poll.options row)) <=? i)%Z);
    [exact U|].
  destruct (fetchone (is_vote n (User.id me)) (poll_votes s)) eqn:F;
    [exact U|].
  unfold insert_vote.
  destruct (poll_exists s n && user_exists (base s) (User.id me)
            && negb (exists_row (is_vote n (User.id me)) (poll_votes s)));
    [|exact U].
  cbn [fst]. unfold votes_unique in *.
  cbn [poll_votes with_poll_votes]. unfold insert; cbn [rows].
  rewrite map_app. cbn [map PollVote.poll_id PollVote.user_id].
  apply NoDup_app; [exact U | repeat constructor; simpl; tauto|].
  intros p Hp [<-|[]].
  apply in_map_iff in Hp as [v [Ev Hv]].
  apply fetchone_none in F.
  pose proof (proj1 (exists_row_none _ _) F v Hv) as K.
  unfold is_vote in K. injection Ev as E1 E2.
  rewrite E1, E2, !Nat.eqb_refl in K. discriminate.
Qed.

Lemma votes_unique_count (s : site) (n u : nat) :
  votes_unique s -> count (is_vote n u) (poll_votes s) <= 1.
Proof.
  unfold votes_unique, count. induction (rows (poll_votes s)) as [|v l IH];
    intros U; [simpl; lia|].
  cbn [map] in U. apply NoDup_cons_iff in U as [Hn U].
  specialize (IH U). cbn [filter].
  destruct (is_vote n u v) eqn:E; [|exact IH].
  cbn [List.length].
  assert (Z : List.length (filter (is_vote n u) l) = 0); [|lia].
  destruct (filter (is_vote n u) l) as [|w r] eqn:F; [reflexivity|].
  exfalso. apply Hn.
  assert (Hw : In w (filter (is_vote n u) l)) by (rewrite F; now left).
  apply filter_In in Hw as [Hw Ew].
  apply in_map_iff. exists w. split; [|exact Hw].
  unfold is_vote in E, Ew.
  apply andb_true_iff in E as [E1 E2], Ew as [W1 W2].
  apply Nat.eqb_eq in E1, E2, W1, W2. congruence.
Qed.

(** However many votes are sent, by whom and for what, a poll never holds
    two votes of one user, and on the page of its post the counts of the
    options add up to the total it shows. *)
Theorem poll_counts_add_up (s : site) (bs : list ballot) :
  votes_in_range s -> votes_unique s ->
  (forall n u, count (is_vote n u) (poll_votes (poll_votes_after s bs)) <= 1)
  /\ (forall g_user pid page shown_poll,
        view_post (poll_votes_after s bs) g_user pid = Some page ->
        page_poll page = Some shown_poll ->
        sum (vote_counts shown_poll) = total_votes shown_poll).
Proof.
  intros R U.
  assert (G : votes_in_range (poll_votes_after s bs)
              /\ votes_unique (poll_votes_after s bs)).
  { revert s R U. induction bs as [|b bs IH]; intros s R U; [now split|].
    cbn [poll_votes_after].
    apply IH; [now apply vote_poll_in_range | now apply vote_poll_unique]. }
  destruct G as [R' U']. split.
  - intros n u. now apply votes_unique_count.
  - intros g_user pid page shown_poll V P. unfold view_post in V.
    destruct (fetchone _ (posts (base (poll_votes_after s bs))))
      as [p|]; [|discriminate].
    injection V as <-. cbn [page_poll] in P.
    destruct (poll_id (poll_votes_after s bs) (Post.id p)) as [[|n]|];
      try discriminate.
    destruct (fetchone (fun r => Poll.id r =? S n)
                       (polls (poll_votes_after s bs))) as [row|] eqn:E;
      [|discriminate].
    injection P as <-. now apply (view_poll_adds_up _ _ (S n)).
Qed.

Lemma demo_votes_in_range : votes_in_range demo_site.
Proof.
  intros v [<-|[]]. eexists. split; [reflexivity|]. simpl. lia.
Qed.

Lemma demo_votes_unique : votes_unique demo_site.
Proof. unfold votes_unique; simpl. repeat constructor. simpl. tauto. Qed.

Lemma poll_counts_add_up_witness :
  (forall n u,
     count (is_vote n u)
           (poll_votes
              (poll_votes_after demo_site
                 [Ballot (Some 1) 1 (Some 0%Z); Ballot (Some 2) 1 (Some 2%Z);
                  Ballot (Some 3) 1 (Some 7%Z); Ballot (Some 3) 1 (Some 1%Z)]))
     <= 1)
  /\ (forall g_user pid page shown_poll,
        view_post
          (poll_votes_after demo_site
             [Ballot (Some 1) 1 (Some 0%Z); Ballot (Some 2) 1 (Some 2%Z);
              Ballot (Some 3) 1 (Some 7%Z); Ballot (Some 3) 1 (Some 1%Z)])
          g_user pid = Some page ->
        page_poll page = Some shown_poll ->
        sum (vote_counts shown_poll) = total_votes shown_poll).
Proof.
  apply (poll_counts_add_up demo_site
           [Ballot (Some 1) 1 (Some 0%Z); Ballot (Some 2) 1 (Some 2%Z);
            Ballot (Some 3) 1 (Some 7%Z); Ballot (Some 3) 1 (Some 1%Z)]).
  - exact demo_votes_in_range.
  - exact demo_votes_unique.
Defined.

(** A first vote for an option of the poll is stored as cast, whatever the
    time the poll expires at: the total goes up by one and the page shows
    the voter the option chosen.  A later vote of the same user, for any
    option, changes nothing, and a vote that names no option of the poll is
    answered with 400. *)
Theorem first_vote_stands (s : site) (me : User.t) (n : nat) (row : Poll.t)
    (i : Z) :
  logged_in (base s) me ->
  fetchone (fun p => Poll.id p =? n) (polls s) = Some row ->
  (0 <= i < Z.of_nat (List.length (Poll.options row)))%Z ->
  fetchone (is_vote n (User.id me)) (poll_votes s) = None ->
  exists s1,
    vote_poll s (Some me) n (Some i)
    = (s1, redirect (Some ("Vote cast!", "success")%string))
    /\ rows (poll_votes s1)
       = (rows (poll_votes s)
          ++ [PollVote.mk (next_rowid (poll_votes s)) n (User.id me) i])%list
    /\ total_votes (view_poll s1 (Some me) row)
       = S (total_votes (view_poll s (Some me) row))
    /\ user_voted (view_poll s1 (Some me) row) = Some i
    /\ (forall j,
          (0 <= j < Z.of_nat (List.length (Poll.options row)))%Z ->
          vote_poll s1 (Some me) n (Some j)
          = (s1, redirect (Some ("You already voted.", "info")%string)))
    /\ vote_poll s1 (Some me) n None = (s1, abort 400)
    /\ (forall j,
          (j < 0 \/ Z.of_nat (List.length (Poll.options row)) <= j)%Z ->
          vote_poll s1 (Some me) n (Some j) = (s1, abort 400)).
Proof.
  intros Hme Hrow Hi Hnone.
  pose proof (logged_in_exists _ _ Hme) as Eme.
  pose proof (fetchone_some_exists _ _ _ Hrow) as Ep.
  pose proof (fetchone_none _ _ Hnone) as En.
  apply fetchone_some in Hrow as Hid. destruct Hid as [_ Hid].
  apply Nat.eqb_eq in Hid.
  set (mk := fun k => PollVote.mk k n (User.id me) i).
  set (s1 := with_poll_votes s (insert mk (poll_votes s))).
  assert (Hin : ((i <? 0)%Z
                 || (Z.of_nat (List.length (Poll.options row)) <=? i)%Z)
                = false).
  { apply orb_false_iff. split; [apply Z.ltb_ge | apply Z.leb_gt]; lia. }
  assert (Found : fetchone (is_vote n (User.id me)) (poll_votes s1)
                  = Some (mk (next_rowid (poll_votes s)))).
  { apply fetchone_insert_new; auto.
    unfold is_vote, mk; simpl. now rewrite !Nat.eqb_refl. }
  exists s1. split.
  { unfold vote_poll. rewrite Hrow, Hin, Hnone. unfold insert_vote.
    unfold poll_exists. now rewrite Ep, Eme, En. }
  split; [reflexivity|]. split.
  { unfold view_poll; cbn [total_votes]. cbn [poll_votes s1 with_poll_votes].
    rewrite count_insert. unfold mk; cbn [PollVote.poll_id].
    rewrite Hid, Nat.eqb_refl. lia. }
  split.
  { unfold view_poll; cbn [user_voted]. rewrite Hid, Found. reflexivity. }
  split.
  { intros j Hj. unfold vote_poll. cbn [polls s1 with_poll_votes].
    rewrite Hrow.
    replace ((j <? 0)%Z
             || (Z.of_nat (List.length (Poll.options row)) <=? j)%Z)
      with false
      by (symmetry; apply orb_false_iff;
          split; [apply Z.ltb_ge | apply Z.leb_gt]; lia).
    now rewrite Found. }
  split.
  { unfold vote_poll. cbn [polls s1 with_poll_votes]. now rewrite Hrow. }
  intros j Hj. unfold vote_poll. cbn [polls s1 with_poll_votes].
  rewrite Hrow.
  replace ((j <? 0)%Z
           || (Z.of_nat (List.length (Poll.options row)) <=? j)%Z)
    with true; [reflexivity|].
  symmetry. apply orb_true_iff.
  destruct Hj; [left; apply Z.ltb_lt | right; apply Z.leb_le]; lia.
Qed.

Lemma first_vote_stands_witness :
  exists s1,
    vote_poll demo_site (Some Demo.carol) 1 (Some 2%Z)
    = (s1, redirect (Some ("Vote cast!", "success")%string))
    /\ rows (poll_votes s1)
       = (rows (poll_votes demo_site)
          ++ [PollVote.mk (next_rowid (poll_votes demo_site)) 1
                          (User.id Demo.carol) 2%Z])%list
    /\ total_votes
         (view_poll s1 (Some Demo.carol)
                    (Poll.mk 1 1 ["yes"; "no"; "maybe"]%string 100))
       = S (total_votes
              (view_poll demo_site (Some Demo.carol)
                         (Poll.mk 1 1 ["yes"; "no"; "maybe"]%string 100)))
    /\ user_voted
         (view_poll s1 (Some Demo.carol)
                    (Poll.mk 1 1 ["yes"; "no"; "maybe"]%string 100))
       = Some 2%Z
    /\ (forall j,
          (0 <= j < Z.of_nat
                      (List.length
                         (Poll.options
                            (Poll.mk 1 1 ["yes"; "no"; "maybe"]%string
                                     100))))%Z ->
          vote_poll s1 (Some Demo.carol) 1 (Some j)
          = (s1, redirect (Some ("You already voted.", "info")%string)))
    /\ vote_poll s1 (Some Demo.carol) 1 None = (s1, abort 400)
    /\ (forall j,
          (j < 0 \/ Z.of_nat
                      (List.length
                         (Poll.options
                            (Poll.mk 1 1 ["yes"; "no"; "maybe"]%string
                                     100))) <= j)%Z ->
          vote_poll s1 (Some Demo.carol) 1 (Some j) = (s1, abort 400)).
Proof.
  apply (first_vote_stands demo_site Demo.carol 1
           (Poll.mk 1 1 ["yes"; "no"; "maybe"]%string 100) 2%Z).
  - unfold logged_in; simpl; auto.
  - reflexivity.
  - simpl; lia.
  - reflexivity.
Defined.

(* ===================================================================== *)
(** * Bookmarks *)
(* ===================================================================== *)

Lemma is_bookmark_refl (i u p now : nat) :
  is_bookmark u p (Bookmark.mk i u p now) = true.
Proof. unfold is_bookmark; simpl. now rewrite !Nat.eqb_refl. Qed.

Lemma posts_of_enriched (s : site) (g : option User.t) (l : list Post.t) :
  map (fun x => post (shown_item x)) (map (enrich_post_in s g) l) = l.
Proof.
  induction l as [|p l IH]; [reflexivity|]. simpl. now rewrite IH.
Qed.

Lemma is_bookmarked_exists (s : site) (me : User.t) (p : Post.t) :
  is_bookmarked (enrich_post_in s (Some me) p)
  = exists_row (is_bookmark (User.id me) (Post.id p)) (bookmarks s).
Proof. unfold enrich_post_in; cbn [is_bookmarked]. now rewrite fetchone_exists. Qed.

(** A first call of [bookmark_post] for a post that exists, deleted or
    not, stores the bookmark and the post is shown as bookmarked; a second
    call takes the bookmark away again.  For an id that no post has, the
    insertion fails on the foreign key and nothing is stored. *)
Theorem bookmark_then_remove
    (s : site) (me : User.t) (pid now later : nat) (json : bool) :
  logged_in (base s) me ->
  fetchone (is_bookmark (User.id me) pid) (bookmarks s) = None ->
  let answer b :=
    if json then json_bookmarked b else html (redirect None) in
  (post_exists (base s) pid = false ->
   bookmark_post s (Some me) pid now json = (s, html server_error))
  /\ (post_exists (base s) pid = true ->
      exists s1 s2,
        bookmark_post s (Some me) pid now json = (s1, answer true)
        /\ rows (bookmarks s1)
           = (rows (bookmarks s)
              ++ [Bookmark.mk (next_rowid (bookmarks s)) (User.id me) pid
                              now])%list
        /\ base s1 = base s
        /\ (forall p, Post.id p = pid ->
              is_bookmarked (enrich_post_in s1 (Some me) p) = true)
        /\ bookmark_post s1 (Some me) pid later json = (s2, answer false)
        /\ rows (bookmarks s2) = rows (bookmarks s)
        /\ base s2 = base s
        /\ (forall p, Post.id p = pid ->
              is_bookmarked (enrich_post_in s2 (Some me) p) = false)).
Proof.
  intros Hme Hnone answer.
  pose proof (logged_in_exists _ _ Hme) as Eme.
  pose proof (fetchone_none _ _ Hnone) as En.
  split; intros Hp.
  - unfold bookmark_post, insert_bookmark. rewrite Hnone, Eme, Hp.
    reflexivity.
  - set (mk := fun i => Bookmark.mk i (User.id me) pid now).
    set (b1 := insert mk (bookmarks s)).
    assert (Found : fetchone (is_bookmark (User.id me) pid) b1
                    = Some (mk (next_rowid (bookmarks s)))).
    { apply fetchone_insert_new; auto. apply is_bookmark_refl. }
    assert (Back : rows (delete (is_bookmark (User.id me) pid) b1)
                   = rows (bookmarks s)).
    { apply delete_inserted; auto. apply is_bookmark_refl. }
    exists (with_bookmarks s b1).
    exists (with_bookmarks (with_bookmarks s b1)
              (delete (is_bookmark (User.id me) pid) b1)).
    split.
    { unfold bookmark_post, insert_bookmark. rewrite Hnone, Eme, Hp, En.
      reflexivity. }
    split; [reflexivity|]. split; [reflexivity|]. split.
    { intros p <-. rewrite is_bookmarked_exists.
      cbn [bookmarks with_bookmarks].
      now rewrite fetchone_exists, Found. }
    split.
    { unfold bookmark_post. cbn [bookmarks with_bookmarks].
      now rewrite Found. }
    split; [exact Back|]. split; [reflexivity|].
    intros p <-. rewrite is_bookmarked_exists.
    cbn [bookmarks with_bookmarks]. unfold exists_row. rewrite Back.
    exact En.
Qed.

Lemma bookmark_then_remove_witness :
  (post_exists (base demo_site) 1 = false ->
   bookmark_post demo_site (Some Demo.carol) 1 40 true
   = (demo_site, html server_error))
  /\ (post_exists (base demo_site) 1 = true ->
      exists s1 s2,
        bookmark_post demo_site (Some Demo.carol) 1 40 true
        = (s1, json_bookmarked true)
        /\ rows (bookmarks s1)
           = (rows (bookmarks demo_site)
              ++ [Bookmark.mk (next_rowid (bookmarks demo_site))
                              (User.id Demo.carol) 1 40])%list
        /\ base s1 = base demo_site
        /\ (forall p, Post.id p = 1 ->
              is_bookmarked (enrich_post_in s1 (Some Demo.carol) p) = true)
        /\ bookmark_post s1 (Some Demo.carol) 1 50 true
           = (s2, json_bookmarked false)
        /\ rows (bookmarks s2) = rows (bookmarks demo_site)
        /\ base s2 = base demo_site
        /\ (forall p, Post.id p = 1 ->
              is_bookmarked (enrich_post_in s2 (Some Demo.carol) p)
              = false)).
Proof.
  apply (bookmark_then_remove demo_site Demo.carol 1 40 50 true).
  - unfold logged_in; simpl; auto.
  - reflexivity.
Defined.

Lemma length_flat_map_le {A B} (f : A -> list B) (l : list A) :
  (forall x, In x l -> List.length (f x) <= 1) ->
  List.length (flat_map f l) <= List.length l.
Proof.
  induction l as [|x l IH]; intros K; [simpl; lia|].
  cbn [flat_map]. rewrite length_app. cbn [List.length].
  pose proof (K x (or_introl eq_refl)).
  assert (List.length (flat_map f l) <= List.length l)
    by (apply IH; intros y Hy; apply K; now right).
  lia.
Qed.

Lemma length_filter_le {A} (c : A -> bool) (l : list A) :
  List.length (filter c l) <= List.length l.
Proof.
  induction l as [|x l IH]; simpl; [lia|]. destruct (c x); simpl; lia.
Qed.

Lemma in_bookmark_rows_all (s : site) (uid : nat) (q : Post.t) :
  In q (flat_map (bookmarked_post s)
          (order_by (key_desc Bookmark.created_at)
             (select (fun b => Bookmark.user_id b =? uid) (bookmarks s))))
  <-> In q (rows (posts (base s)))
      /\ Post.is_deleted q = false
      /\ has_author (base s) q = true
      /\ exists_row (is_bookmark uid (Post.id q)) (bookmarks s) = true.
Proof.
  rewrite in_flat_map. split.
  - intros [b [Hb Hq]]. apply order_by_In in Hb.
    unfold select in Hb. apply filter_In in Hb as [Hb Eb].
    unfold bookmarked_post, select in Hq.
    apply filter_In in Hq as [Hq Ec]. apply filter_In in Hq as [Hq Ei].
    apply andb_true_iff in Ec as [Ea Ed]. apply negb_true_iff in Ed.
    repeat split; auto.
    apply exists_row_In. exists b. split; auto.
    unfold is_bookmark. rewrite Eb. apply Nat.eqb_eq in Ei.
    rewrite Ei. now rewrite Nat.eqb_refl.
  - intros [Hq [Ed [Ea Ex]]].
    apply exists_row_In in Ex as [b [Hb Eb]].
    unfold is_bookmark in Eb. apply andb_true_iff in Eb as [Eu Ep].
    exists b. split.
    + apply order_by_In. unfold select. apply filter_In. now split.
    + unfold bookmarked_post, select. apply filter_In. split.
      * apply filter_In. split; auto. apply Nat.eqb_eq in Ep.
        rewrite Ep. apply Nat.eqb_refl.
      * now rewrite Ea, Ed.
Qed.

(** The bookmarks page lists at most 50 posts; each of them is a post in
    the table that is not deleted, has its author, holds a bookmark of the
    viewer and is shown as bookmarked.  When the viewer has no more than 50
    bookmarks, every such post is listed. *)
Theorem bookmarks_page_contents
    (s : site) (me : User.t) (l : list page_item) :
  bookmarks_page s (Some me) = Some l ->
  List.length l <= 50
  /\ (forall x, In x l ->
        In (post (shown_item x)) (rows (posts (base s)))
        /\ Post.is_deleted (post (shown_item x)) = false
        /\ has_author (base s) (post (shown_item x)) = true
        /\ exists_row (is_bookmark (User.id me)
                                   (Post.id (post (shown_item x))))
                      (bookmarks s) = true
        /\ is_bookmarked x = true)
  /\ (posts_keyed (base s) ->
      count (fun b => Bookmark.user_id b =? User.id me) (bookmarks s) <= 50 ->
      forall q,
        In q (rows (posts (base s))) ->
        Post.is_deleted q = false ->
        has_author (base s) q = true ->
        exists_row (is_bookmark (User.id me) (Post.id q)) (bookmarks s)
        = true ->
        In q (map (fun x => post (shown_item x)) l)).
Proof.
  intros E. injection E as <-. split; [|split].
  - rewrite length_map. unfold bookmark_rows, limit_offset.
    cbn [Z.ltb Z.compare Z.to_nat skipn]. apply firstn_le_length.
  - intros x Hx. apply in_map_iff in Hx as [q [<- Hq]].
    unfold bookmark_rows in Hq. apply limit_offset_incl in Hq.
    apply in_bookmark_rows_all in Hq as [H1 [H2 [H3 H4]]].
    cbn [enrich_post_in shown_item post enrich_post].
    repeat split; auto.
    change (is_bookmarked (enrich_post_in s (Some me) q) = true).
    now rewrite is_bookmarked_exists.
  - intros K C q H1 H2 H3 H4. rewrite posts_of_enriched.
    unfold bookmark_rows, limit_offset.
    cbn [Z.ltb Z.compare Z.to_nat skipn].
    rewrite firstn_all2; [apply in_bookmark_rows_all; auto|].
    eapply Nat.le_trans; [apply length_flat_map_le|].
    + intros b _. unfold bookmarked_post.
      eapply Nat.le_trans; [apply length_filter_le|].
      apply (count_key_le_1 (posts (base s)) (Bookmark.post_id b)).
      apply keyed_NoDup. exact K.
    + rewrite (Permutation_length (order_by_perm _ _)). exact C.
Qed.

Lemma bookmarks_page_contents_witness :
  List.length (map (enrich_post_in demo_site (Some Demo.bob))
                   (bookmark_rows demo_site (User.id Demo.bob))) <= 50
  /\ (forall x,
        In x (map (enrich_post_in demo_site (Some Demo.bob))
                  (bookmark_rows demo_site (User.id Demo.bob))) ->
        In (post (shown_item x)) (rows (posts (base demo_site)))
        /\ Post.is_deleted (post (shown_item x)) = false
        /\ has_author (base demo_site) (post (shown_item x)) = true
        /\ exists_row (is_bookmark (User.id Demo.bob)
                                   (Post.id (post (shown_item x))))
                      (bookmarks demo_site) = true
        /\ is_bookmarked x = true)
  /\ (posts_keyed (base demo_site) ->
      count (fun b => Bookmark.user_id b =? User.id Demo.bob)
            (bookmarks demo_site) <= 50 ->
      forall q,
        In q (rows (posts (base demo_site))) ->
        Post.is_deleted q = false ->
        has_author (base demo_site) q = true ->
        exists_row (is_bookmark (User.id Demo.bob) (Post.id q))
                   (bookmarks demo_site) = true ->
        In q (map (fun x => post (shown_item x))
                  (map (enrich_post_in demo_site (Some Demo.bob))
                       (bookmark_rows demo_site (User.id Demo.bob))))).
Proof.
  apply (bookmarks_page_contents demo_site Demo.bob). reflexivity.
Defined.

(* ===================================================================== *)
(** * The page of a post *)
(* ===================================================================== *)

Lemma oldest_first_sorted (l : list Post.t) :
  StronglySorted (fun p q => Post.created_at p <= Post.created_at q)
                 (order_by oldest_first l).
Proof.
  apply order_by_sorted; unfold oldest_first.
  - intros x y E. now apply Nat.leb_le in E.
  - intros x y E. apply Nat.leb_gt in E. lia.
  - intros x y z; lia.
Qed.

(** The page of a post shows the post asked for, which is not deleted.
    Its replies are the posts that are not deleted and name it as parent,
    the oldest first, and in a database where every post has its author
    the reply count on the post is the number of replies listed. *)
Theorem view_post_replies
    (s : site) (g_user : option User.t) (pid : nat) (page : post_page) :
  view_post s g_user pid = Some page ->
  let replies := map (fun x => post (shown_item x)) (page_replies page) in
  Post.id (post (shown_item (page_post page))) = pid
  /\ Post.is_deleted (post (shown_item (page_post page))) = false
  /\ (forall q, In q replies ->
        In q (rows (posts (base s)))
        /\ Post.parent_id q = Some pid /\ Post.is_deleted q = false)
  /\ StronglySorted (fun p q => Post.created_at p <= Post.created_at q)
                    replies
  /\ (posts_have_authors (base s) ->
      replies_n (shown_item (page_post page)) = List.length replies).
Proof.
  intros V replies. unfold view_post in V.
  destruct (fetchone _ (posts (base s))) as [p|] eqn:E; [|discriminate].
  injection V as <-. subst replies. cbn [page_post page_replies].
  rewrite posts_of_enriched.
  apply fetchone_some in E as [Hp Ep].
  apply andb_true_iff in Ep as [_ Ep]. unfold live_post in Ep.
  apply andb_true_iff in Ep as [Ei Ed]. apply Nat.eqb_eq in Ei.
  apply negb_true_iff in Ed.
  cbn [enrich_post_in shown_item enrich_post post replies_n].
  split; [exact Ei|]. split; [exact Ed|]. split; [|split].
  - intros q Hq. unfold reply_rows in Hq. apply order_by_In in Hq.
    apply filter_In in Hq as [Hq Ec].
    apply andb_true_iff in Ec as [Ec E3]. apply andb_true_iff in Ec as [_ E2].
    apply negb_true_iff in E3. repeat split; auto.
    destruct (Post.parent_id q) as [m|]; [|discriminate].
    apply Nat.eqb_eq in E2. now subst m.
  - apply oldest_first_sorted.
  - intros A. unfold reply_rows.
    rewrite (Permutation_length (order_by_perm _ _)).
    unfold reply_count, count. rewrite Ei. f_equal.
    apply filter_ext_in. intros q Hq. rewrite (A q Hq). reflexivity.
Qed.

Lemma view_post_replies_witness :
  let page :=
    PostPage (enrich_post_in demo_site (Some Demo.bob) Demo.p1)
             (Some (view_poll demo_site (Some Demo.bob)
                      (Poll.mk 1 1 ["yes"; "no"; "maybe"]%string 100)))
             (map (enrich_post_in demo_site (Some Demo.bob))
                  (reply_rows (base demo_site) 1)) in
  let replies := map (fun x => post (shown_item x)) (page_replies page) in
  Post.id (post (shown_item (page_post page))) = 1
  /\ Post.is_deleted (post (shown_item (page_post page))) = false
  /\ (forall q, In q replies ->
        In q (rows (posts (base demo_site)))
        /\ Post.parent_id q = Some 1 /\ Post.is_deleted q = false)
  /\ StronglySorted (fun p q => Post.created_at p <= Post.created_at q)
                    replies
  /\ (posts_have_authors (base demo_site) ->
      replies_n (shown_item (page_post page)) = List.length replies).
Proof.
  apply (view_post_replies demo_site (Some Demo.bob) 1). reflexivity.
Defined.

(* ===================================================================== *)
(** * The API timeline and the API like *)
(* ===================================================================== *)

Section FilterSorted.
Context {A : Type} (before : A -> A -> bool) (c : A -> bool).
Hypothesis before_total :
  forall x y, before x y = false -> before y x = true.
Hypothesis before_trans :
  forall x y z, before x y = true -> before y z = true -> before x z = true.

Lemma place_first (x : A) (l : list A) :
  (forall z, In z l -> before x z = true) -> place before x l = x :: l.
Proof.
  destruct l as [|y l]; intros K; [reflexivity|].
  cbn [place]. now rewrite (K y (or_introl eq_refl)).
Qed.

Lemma place_filter (x : A) (l : list A) :
  StronglySorted (fun a b => before a b = true) l ->
  filter c (place before x l)
  = if c x then place before x (filter c l) else filter c l.
Proof.
  induction l as [|y l IH]; intros S.
  - simpl. destruct (c x); reflexivity.
  - apply StronglySorted_inv in S as [Sl Fy]. cbn [place].
    destruct (before x y) eqn:B.
    + cbn [filter]. destruct (c x) eqn:Cx; [|reflexivity].
      destruct (c y) eqn:Cy.
      * cbn [place]. now rewrite B.
      * symmetry. apply place_first. intros z Hz.
        apply filter_In in Hz as [Hz _].
        apply (before_trans x y z B).
        rewrite Forall_forall in Fy. now apply Fy.
    + cbn [filter]. rewrite (IH Sl).
      destruct (c y), (c x); cbn [place]; rewrite ?B; reflexivity.
Qed.

(** Leaving rows out before or after a stable sort gives the same list. *)
Lemma order_by_filter (l : list A) :
  filter c (order_by before l) = order_by before (filter c l).
Proof.
  induction l as [|x l IH]; [reflexivity|].
  cbn [order_by filter]. rewrite place_filter.
  - rewrite IH. destruct (c x); reflexivity.
  - apply order_by_sorted; auto.
Qed.

End FilterSorted.

Lemma filter_both {A} (f c : A -> bool) (l : list A) :
  filter c (filter f l) = filter (fun x => f x && c x) l.
Proof.
  induction l as [|x l IH]; [reflexivity|].
  cbn [filter]. destruct (f x); cbn [filter andb]; now rewrite IH.
Qed.

(** The home timeline is the API timeline without the posts of the users
    that the viewer has muted or blocked: the API query consults neither
    table, so it lists every post of the home timeline and, besides, the
    posts of followed users whom the viewer has muted. *)
Theorem home_is_timeline_without_silenced (d : db) (viewer : nat) :
  feed_rows d viewer
  = filter (not_silenced d viewer) (timeline_rows d viewer)
  /\ (forall p, In p (feed_rows d viewer) -> In p (timeline_rows d viewer))
  /\ (forall p,
        In p (rows (posts d)) -> has_author d p = true ->
        Post.is_deleted p = false ->
        exists_row (is_follow viewer (Post.user_id p)) (follows d) = true ->
        exists_row (is_mute viewer (Post.user_id p)) (mutes d) = true ->
        In p (timeline_rows d viewer) /\ ~ In p (feed_rows d viewer)).
Proof.
  assert (E : feed_rows d viewer
              = filter (not_silenced d viewer) (timeline_rows d viewer)).
  { unfold feed_rows, timeline_rows. rewrite order_by_filter.
    - f_equal. rewrite filter_both. apply filter_ext. intros p.
      unfold in_feed, in_timeline, not_silenced.
      destruct (has_author d p), (negb (Post.is_deleted p)),
        (negb (exists_row (is_mute viewer (Post.user_id p)) (mutes d))),
        (negb (exists_row (is_block viewer (Post.user_id p)) (blocks d))),
        ((Post.user_id p =? viewer)
         || exists_row (is_follow viewer (Post.user_id p)) (follows d));
        reflexivity.
    - unfold newest_first. intros x y H. apply Nat.leb_gt in H.
      apply Nat.leb_le. lia.
    - unfold newest_first. intros x y z H1 H2.
      apply Nat.leb_le in H1, H2. apply Nat.leb_le. lia. }
  split; [exact E|]. split.
  - intros p Hp. rewrite E in Hp. now apply filter_In in Hp.
  - intros p Hp Ha Hd Hf Hm. split.
    + unfold timeline_rows. apply order_by_In, filter_In. split; auto.
      unfold in_timeline. rewrite Ha, Hd, Hf. cbn [negb andb].
      apply orb_true_r.
    + rewrite E. intros Hin. apply filter_In in Hin as [_ Hs].
      unfold not_silenced in Hs. rewrite Hm in Hs. discriminate.
Qed.

(** The page size of the API timeline is capped from above only: a size
    over 100 gives the page of size 100, a size that is not negative gives
    at most that many posts, and a negative size lifts the limit, so that
    the first and every later page is the whole listing. *)
Theorem timeline_page_size (d : db) (me : User.t) (page per_page : Z) :
  ((100 <= per_page)%Z ->
   timeline d (Some me) page per_page = timeline d (Some me) page 100)
  /\ ((0 <= per_page)%Z ->
      forall posts p q,
        timeline d (Some me) page per_page = api_timeline posts p q ->
        (Z.of_nat (List.length posts) <= Z.min per_page 100)%Z)
  /\ ((- 2 ^ 63 <= per_page < 0)%Z -> (1 <= page)%Z ->
      ((page - 1) * per_page >= - 2 ^ 63)%Z ->
      timeline d (Some me) page per_page
      = api_timeline (map (api_post_of d) (timeline_rows d (User.id me)))
                     page per_page).
Proof.
  split; [|split].
  - intros H. unfold timeline. now rewrite (Z.min_r per_page 100 H).
  - intros H posts p q E. unfold timeline in E.
    destruct (fits_int64 (Z.min per_page 100)
              && fits_int64 ((page - 1) * Z.min per_page 100));
      [|discriminate].
    injection E as <- _ _. rewrite length_map. unfold limit_offset.
    destruct (Z.min per_page 100 <? 0)%Z eqn:N;
      [apply Z.ltb_lt in N; lia|].
    pose proof (firstn_le_length (Z.to_nat (Z.min per_page 100))
                  (skipn (Z.to_nat ((page - 1) * Z.min per_page 100))
                         (timeline_rows d (User.id me)))).
    lia.
  - intros H Hp Ho. unfold timeline.
    rewrite (Z.min_l per_page 100) by lia.
    assert (F1 : fits_int64 per_page = true).
    { unfold fits_int64. apply andb_true_iff.
      split; [apply Z.leb_le | apply Z.ltb_lt]; lia. }
    assert (F2 : fits_int64 ((page - 1) * per_page) = true).
    { unfold fits_int64. apply andb_true_iff.
      split; [apply Z.leb_le | apply Z.ltb_lt]; nia. }
    rewrite F1, F2. cbn [andb]. unfold limit_offset.
    replace (per_page <? 0)%Z with true by (symmetry; apply Z.ltb_lt; lia).
    replace (Z.to_nat ((page - 1) * per_page)) with 0 by nia.
    reflexivity.
Qed.

Lemma no_like_with_next_id (d : db) :
  exists_row (like_with_id (next_rowid (likes d))) (likes d) = false.
Proof.
  apply exists_row_none. intros x Hx. apply Nat.eqb_neq.
  pose proof (next_rowid_fresh (likes d) x Hx) as F.
  change (Like.id x < next_rowid (likes d)) in F. intros E.
  rewrite E in F. exact (Nat.lt_irrefl _ F).
Qed.

(** The like of the API on a post that exists and that the user has not
    liked stores the like without looking at [is_deleted] and without a
    notification; on a post that is not deleted it leaves the likes table
    that [like_post] leaves.  A second call removes the like again. *)
Theorem api_like_writes_no_notification
    (d : db) (me : User.t) (pid : nat) :
  logged_in d me ->
  post_exists d pid = true ->
  fetchone (is_like (User.id me) pid) (likes d) = None ->
  exists d1 d2,
    api_like d (Some me) pid = (d1, api_liked true (S (like_count d pid)))
    /\ rows (likes d1)
       = (rows (likes d)
          ++ [Like.mk (next_rowid (likes d)) (User.id me) pid])%list
    /\ notifications d1 = notifications d
    /\ (forall p json,
          fetchone (live_post pid) (posts d) = Some p ->
          has_author d p = true ->
          likes (fst (like_post d (Some me) pid json)) = likes d1)
    /\ api_like d1 (Some me) pid = (d2, api_liked false (like_count d pid))
    /\ rows (likes d2) = rows (likes d)
    /\ notifications d2 = notifications d.
Proof.
  intros Hme Hp Hnone.
  pose proof (logged_in_exists d me Hme) as Eme.
  pose proof (fetchone_none _ _ Hnone) as En.
  set (mk := fun i => Like.mk i (User.id me) pid).
  set (l1 := insert mk (likes d)).
  assert (Found : fetchone (is_like (User.id me) pid) l1
                  = Some (mk (next_rowid (likes d)))).
  { apply fetchone_insert_new; auto. apply is_like_refl. }
  assert (Back : rows (delete (like_with_id (next_rowid (likes d))) l1)
                 = rows (likes d)).
  { apply delete_inserted; [apply no_like_with_next_id|].
    unfold like_with_id, mk; simpl. apply Nat.eqb_refl. }
  exists (with_likes d l1).
  exists (with_likes (with_likes d l1)
            (delete (like_with_id (next_rowid (likes d))) l1)).
  split.
  { unfold api_like. rewrite Hnone, (insert_like_ok d _ _ Eme Hp En).
    unfold like_count. cbn [likes with_likes]. fold mk l1. unfold l1.
    rewrite count_insert. unfold mk; cbn [Like.post_id].
    rewrite Nat.eqb_refl. do 2 f_equal. lia. }
  split; [reflexivity|]. split; [reflexivity|]. split.
  { intros p json Hlive Hau.
    destruct (like_post_likes d me pid json p Hme Hlive Hau) as [L _].
    cbv zeta in L. rewrite L, En. reflexivity. }
  split.
  { unfold api_like. cbn [likes with_likes]. rewrite Found.
    cbn [Like.id mk]. do 2 f_equal. unfold like_count, count.
    cbn [likes with_likes]. now rewrite Back. }
  split; [exact Back | reflexivity].
Qed.

Lemma api_like_writes_no_notification_witness :
  exists d1 d2,
    api_like Demo.state (Some Demo.bob) 1
    = (d1, api_liked true (S (like_count Demo.state 1)))
    /\ rows (likes d1)
       = (rows (likes Demo.state)
          ++ [Like.mk (next_rowid (likes Demo.state)) (User.id Demo.bob)
                      1])%list
    /\ notifications d1 = notifications Demo.state
    /\ (forall p json,
          fetchone (live_post 1) (posts Demo.state) = Some p ->
          has_author Demo.state p = true ->
          likes (fst (like_post Demo.state (Some Demo.bob) 1 json))
          = likes d1)
    /\ api_like d1 (Some Demo.bob) 1
       = (d2, api_liked false (like_count Demo.state 1))
    /\ rows (likes d2) = rows (likes Demo.state)
    /\ notifications d2 = notifications Demo.state.
Proof.
  apply (api_like_writes_no_notification Demo.state Demo.bob 1).
  - unfold logged_in; simpl; auto.
  - reflexivity.
  - reflexivity.
Defined.
